(** * pyxsim: photon projection and event lists

    A shallow embedding of [pyxsim/photon_list.py] ([PhotonList.__init__],
    [PhotonList.project_photons]) and of [photon_simulator/event_list.py]
    ([EventList.__init__], [__getitem__], [__add__] and the binning half of
    [write_fits_image]), followed by the properties the specification states
    about them.

    Conventions.
    - NumPy [float64] values are kept behind the interface [Scalar]; the
      program is written once over that interface and run at two instances:
      IEEE binary64 ([float], what NumPy computes) and exact rationals ([Q],
      where the order laws of the mathematics hold).
    - [uint64] values are integers in [Z] with the wrap-around modulo [2^64]
      written out.
    - Python dictionaries whose iteration order matters are association
      lists in iteration order.
    - Python exceptions are values of [exn]; code that raises returns in the
      left summand, and the state reached so far is kept.
    - Execution is serial (one worker): [comm.mpi_allreduce] and
      [comm.par_combine_object] return their argument. *)

From Stdlib Require Import ZArith QArith Qround List String Bool Lia Lqa.
From Stdlib Require Import Permutation Floats.
Import ListNotations.
Open Scope Z_scope.

Set Implicit Arguments.

(** ** Exceptions and the state-and-error monad *)

Inductive exn : Type :=
| ValueError (msg : string)
| KeyError (key : string)
| IndexError
| NameError (name : string)
| AssertionError
| RuntimeError (msg : string)
| TypeError (msg : string)
| UndefinedCast
| IOError (msg : string)
| AttributeError (name : string).

Module Monad.

(** A computation over a store [W]: it ends in an exception or a value,
    and the store is returned either way. *)
Definition M (W A : Type) : Type := W -> (exn + A) * W.

Definition ret {W A} (a : A) : M W A := fun w => (inr a, w).

Definition bind {W A B} (c : M W A) (k : A -> M W B) : M W B :=
  fun w =>
    match c w with
    | (inl e, w') => (inl e, w')
    | (inr a, w') => k a w'
    end.

Definition raise {W A} (e : exn) : M W A := fun w => (inl e, w).

Definition gets {W A} (f : W -> A) : M W A := fun w => (inr (f w), w).

Definition modify {W} (f : W -> W) : M W unit := fun w => (inr tt, f w).

(** A pure step that may raise. *)
Definition lift {W A} (r : exn + A) : M W A := fun w => (r, w).

Definition lift_opt {W A} (e : exn) (o : option A) : M W A :=
  match o with
  | Some a => ret a
  | None => raise e
  end.

(** The computation [c] never ends in the exception [e]. *)
Definition never_raises {W A} (e : exn) (c : M W A) : Prop :=
  forall w e' w', c w = (inl e', w') -> e' <> e.

(** Code without a store: a value or an exception. *)
Definition try_bind {A B} (c : exn + A) (k : A -> exn + B) : exn + B :=
  match c with inl e => inl e | inr a => k a end.

(** [None] as the exception [e]. *)
Definition try_opt {A} (e : exn) (o : option A) : exn + A :=
  match o with Some a => inr a | None => inl e end.

(** A list comprehension whose body may raise: the first exception ends
    it. *)
Fixpoint try_map {A B} (f : A -> exn + B) (l : list A) : exn + list B :=
  match l with
  | [] => inr []
  | a :: l' =>
      match f a with
      | inl e => inl e
      | inr b =>
          match try_map f l' with
          | inl e => inl e
          | inr r => inr (b :: r)
          end
      end
  end.

(** A [for] loop over [l] whose body acts on the store. *)
Fixpoint for_each {W A} (body : A -> M W unit) (l : list A) : M W unit :=
  match l with
  | [] => ret tt
  | a :: l' => bind (body a) (fun _ => for_each body l')
  end.

End Monad.

Declare Scope py_scope.
Delimit Scope py_scope with py.
Notation "x <- c ;; k" := (Monad.bind c (fun x => k))
  (at level 61, c at next level, right associativity) : py_scope.
Notation "c ;;; k" := (Monad.bind c (fun _ => k))
  (at level 61, right associativity) : py_scope.
Notation "x <~ c ;; k" := (Monad.try_bind c (fun x => k))
  (at level 61, c at next level, right associativity) : py_scope.

(** ** Scalars *)

(** The [float64] operations the two modules use. [of_Z] is the conversion of
    an integer to a float, [pow x n] is [x ** n] for a literal exponent [n],
    the power function of the C library that CPython and NumPy call,
    [trunc] the truncation toward zero that an integer cast performs
    ([None] on a NaN or an infinity) and [floor] the mathematical floor. *)
Class Scalar (num : Type) : Type := {
  of_Z : Z -> num;
  add : num -> num -> num;
  sub : num -> num -> num;
  mul : num -> num -> num;
  div : num -> num -> num;
  opp : num -> num;
  pow : num -> nat -> num;
  ltb : num -> num -> bool;
  leb : num -> num -> bool;
  eqb : num -> num -> bool;
  trunc : num -> option Z;
  floor : num -> option Z
}.

(** [np.sqrt], kept apart from [Scalar] as the rationals have none. *)
Class Sqrt (num : Type) : Type := sqrt : num -> num.

Declare Scope num_scope.
Delimit Scope num_scope with num.
Infix "+" := add : num_scope.
Infix "-" := sub : num_scope.
Infix "*" := mul : num_scope.
Infix "/" := div : num_scope.
Notation "- x" := (opp x) : num_scope.
Infix "<?" := ltb : num_scope.
Infix "<=?" := leb : num_scope.
Infix "=?" := eqb : num_scope.

(** [x > y] is [y < x]. *)
Definition gtb {num} `{Scalar num} (x y : num) : bool := ltb y x.

(** The two facts about the order that the properties below rely on: a value
    at most [y] is not above [y], and on a non-negative value the truncation
    of an integer cast is the floor, itself non-negative. *)
Record ScalarLaws (num : Type) `{Scalar num} : Prop := {
  leb_not_gtb : forall x y : num, leb x y = true -> gtb x y = false;
  trunc_nonneg : forall (x : num) (k : Z),
    leb (of_Z 0) x = true -> floor x = Some k -> trunc x = Some k /\ 0 <= k
}.
Arguments ScalarLaws num {_}.

(** *** IEEE binary64 *)

Module F64.

Definition of_Z (z : Z) : float :=
  SF2Prim (binary_normalize prec emax z 0 false).

(** The integer part of the magnitude of a finite float [m * 2^e]. *)
Definition magnitude (m : positive) (e : Z) : Z :=
  if 0 <=? e then Z.pos m * 2 ^ e else Z.pos m / 2 ^ (- e).

(** Whether [m * 2^e] has a fractional part. *)
Definition has_fraction (m : positive) (e : Z) : bool :=
  if 0 <=? e then false else negb (Z.pos m mod 2 ^ (- e) =? 0).

(** [x ** n]: the exact power of a finite [x], rounded once to the nearest
    float, ties to even. The power keeps the sign of [x] when [n] is odd. *)
Definition pow (x : float) (n : nat) : float :=
  match n with
  | O => of_Z 1
  | S _ =>
      match Prim2SF x with
      | S754_zero s => SF2Prim (S754_zero (s && Nat.odd n))
      | S754_infinity s => SF2Prim (S754_infinity (s && Nat.odd n))
      | S754_nan => SF2Prim S754_nan
      | S754_finite s m e =>
          let p := Z.pos m ^ Z.of_nat n in
          SF2Prim (binary_normalize prec emax
                     (if s && Nat.odd n then - p else p)
                     (Z.of_nat n * e) (s && Nat.odd n))
      end
  end.

Definition trunc (x : float) : option Z :=
  match Prim2SF x with
  | S754_zero _ => Some 0
  | S754_finite s m e =>
      Some (if s then - magnitude m e else magnitude m e)
  | _ => None
  end.

Definition floor (x : float) : option Z :=
  match Prim2SF x with
  | S754_zero _ => Some 0
  | S754_finite s m e =>
      Some (if s
            then (if has_fraction m e then - magnitude m e - 1
                  else - magnitude m e)
            else magnitude m e)
  | _ => None
  end.

End F64.

#[export] Instance Scalar_float : Scalar float := {|
  of_Z := F64.of_Z;
  add := PrimFloat.add;
  sub := PrimFloat.sub;
  mul := PrimFloat.mul;
  div := PrimFloat.div;
  opp := PrimFloat.opp;
  pow := F64.pow;
  ltb := PrimFloat.ltb;
  leb := PrimFloat.leb;
  eqb := PrimFloat.eqb;
  trunc := F64.trunc;
  floor := F64.floor
|}.

#[export] Instance Sqrt_float : Sqrt float := PrimFloat.sqrt.

(** *** Exact rationals *)

Module Rat.

Definition ltb (x y : Q) : bool := negb (Qle_bool y x).

Definition trunc (x : Q) : option Z := Some (Z.quot (Qnum x) (Z.pos (Qden x))).

Definition floor (x : Q) : option Z := Some (Qfloor x).

End Rat.

#[export] Instance Scalar_Q : Scalar Q := {|
  of_Z := inject_Z;
  add := Qplus;
  sub := Qminus;
  mul := Qmult;
  div := Qdiv;
  opp := Qopp;
  pow := fun x n => Qpower x (Z.of_nat n);
  ltb := Rat.ltb;
  leb := Qle_bool;
  eqb := Qeq_bool;
  trunc := Rat.trunc;
  floor := Rat.floor
|}.

(** ** Dictionaries in iteration order *)

Module Dict.

Definition dict (V : Type) : Type := list (string * V).

Fixpoint get {V} (d : dict V) (k : string) : option V :=
  match d with
  | [] => None
  | (k', v) :: d' => if String.eqb k' k then Some v else get d' k
  end.

Definition mem {V} (d : dict V) (k : string) : bool :=
  match get d k with Some _ => true | None => false end.

(** [d[k] = v]: a present key keeps its position, a new key goes last. *)
Fixpoint set {V} (d : dict V) (k : string) (v : V) : dict V :=
  match d with
  | [] => [(k, v)]
  | (k', v') :: d' =>
      if String.eqb k' k then (k', v) :: d' else (k', v') :: set d' k v
  end.

Definition keys {V} (d : dict V) : list string := map fst d.

End Dict.

(** ** NumPy arrays as lists *)

Module Np.

Definition uint64_modulus : Z := 2 ^ 64.

Definition wrap64 (z : Z) : Z := z mod uint64_modulus.

(** [a.sum()] of a [uint64] array. *)
Definition sum (a : list Z) : Z :=
  fold_left (fun acc v => wrap64 (acc + v)) a 0.

(** The sum of the entries in [Z], without wrap-around. *)
Definition total (a : list Z) : Z := fold_right Z.add 0 a.

Fixpoint cumsum_from (acc : Z) (a : list Z) : list Z :=
  match a with
  | [] => []
  | v :: a' => let acc' := wrap64 (acc + v) in acc' :: cumsum_from acc' a'
  end.

(** [np.cumsum(a)] of a [uint64] array. *)
Definition cumsum (a : list Z) : list Z := cumsum_from 0 a.

(** [np.insert(a, 0, [v])]. *)
Definition insert0 {A} (a : list A) (v : A) : list A := v :: a.

(** [np.arange(n, dtype='uint64')]. *)
Definition arange (n : Z) : list Z := map Z.of_nat (seq 0 (Z.to_nat n)).

(** [a[:n]]. *)
Definition slice_to {A} (a : list A) (n : Z) : list A := firstn (Z.to_nat n) a.

(** [a[lo:hi]] for bounds that are not negative: the entries from [lo] up
    to, and without, [hi], as far as [a] reaches. *)
Definition slice {A} (a : list A) (lo hi : Z) : list A :=
  firstn (Z.to_nat (hi - lo)) (skipn (Z.to_nat lo) a).

(** [a[i]] for an integer [i]: a negative index counts from the end. *)
Definition item {A} (a : list A) (i : Z) : option A :=
  let n := Z.of_nat (List.length a) in
  if (0 <=? i) && (i <? n) then nth_error a (Z.to_nat i)
  else if (- n <=? i) && (i <? 0) then nth_error a (Z.to_nat (i + n))
  else None.

(** [a[idx]] for an integer array [idx]; [None] is [IndexError]. *)
Fixpoint take {A} (a : list A) (idx : list Z) : option (list A) :=
  match idx with
  | [] => Some []
  | i :: idx' =>
      match item a i, take a idx' with
      | Some v, Some r => Some (v :: r)
      | _, _ => None
      end
  end.

(** [a[mask]] for a boolean array [mask] of the List.length of [a]; [None] is
    [IndexError]. *)
Fixpoint compress {A} (a : list A) (mask : list bool) : option (list A) :=
  match a, mask with
  | [], [] => Some []
  | v :: a', b :: mask' =>
      match compress a' mask' with
      | Some r => Some (if b then v :: r else r)
      | None => None
      end
  | _, _ => None
  end.

(** Element-wise binary operation on arrays of one shape. *)
Fixpoint map2 {A B C} (f : A -> B -> C) (a : list A) (b : list B) : list C :=
  match a, b with
  | v :: a', w :: b' => f v w :: map2 f a' b'
  | _, _ => []
  end.

(** [f(a, b)] element-wise, with NumPy's broadcasting of one-dimensional
    arrays: equal lengths, or one operand of length one. [None] is the
    [ValueError] of shapes that do not broadcast. *)
Definition broadcast {A B C} (f : A -> B -> C) (a : list A) (b : list B)
    : option (list C) :=
  if Nat.eqb (List.length a) (List.length b) then Some (map2 f a b)
  else
    match a, b with
    | [v], _ => Some (map (f v) b)
    | _, [w] => Some (map (fun v => f v w) a)
    | _, _ => None
    end.

(** [a op= b]: the result has the shape of [a], so only [b] may be
    broadcast. *)
Definition inplace {A B} (f : A -> B -> A) (a : list A) (b : list B)
    : option (list A) :=
  if Nat.eqb (List.length a) (List.length b) then Some (map2 f a b)
  else
    match b with
    | [w] => Some (map (fun v => f v w) a)
    | _ => None
    end.

(** [np.ones(n, dtype='bool')]. *)
Definition ones (n : nat) : list bool := repeat true n.

(** The loop of [np.searchsorted(a, key, side='right')]: the interval
    [lo, hi) is halved until it is empty. *)
Fixpoint binsearch_right {A} (lt : A -> A -> bool) (a : list A) (key : A)
    (fuel lo hi : nat) : nat :=
  match fuel with
  | O => lo
  | S fuel' =>
      if (lo <? hi)%nat then
        let mid := (lo + (hi - lo) / 2)%nat in
        match nth_error a mid with
        | Some v =>
            if lt key v then binsearch_right lt a key fuel' lo mid
            else binsearch_right lt a key fuel' (S mid) hi
        | None => lo
        end
      else lo
  end.

(** Whether the entry of [a] at [i] is above the key; an index past the
    end counts as above. *)
Definition above {A} (lt : A -> A -> bool) (a : list A) (key : A) (i : nat)
    : bool :=
  match nth_error a i with
  | Some v => lt key v
  | None => true
  end.

Definition searchsorted_right {A} (lt : A -> A -> bool) (a : list A) (key : A)
    : nat :=
  binsearch_right lt a key (List.length a) 0 (List.length a).

(** [np.linspace(start, stop, num, endpoint=True)]: [None] is the
    [ValueError] of a negative [num]. *)
Definition linspace {num} `{Scalar num} (start stop : num) (n : Z)
    : option (list num) :=
  if n <? 0 then None
  else
    let d := n - 1 in
    let step := ((stop - start) / of_Z d)%num in
    let y := map (fun i => (of_Z i * step + start)%num) (arange n) in
    Some (if 1 <? n then removelast y ++ [stop] else y).

(** The bin number of [v] among [edges], as [np.histogramdd] computes it:
    a right-side search, with a value on the last edge moved into the
    last bin. Bin [0] is below the first edge and bin [List.length edges] above
    the last one. *)
Definition bin_number {num} `{Scalar num} (edges : list num) (v : num) : nat :=
  let k := searchsorted_right ltb edges v in
  match last (map Some edges) None with
  | Some e => if eqb v e then (k - 1)%nat else k
  | None => k
  end.

(** The count of one cell: the samples whose bin numbers are [i+1] and
    [j+1]. *)
Definition cell_count {num} `{Scalar num} (xe ye : list num)
    (sample : list (num * num)) (i j : nat) : nat :=
  List.length (filter (fun s => Nat.eqb (bin_number xe (fst s)) (S i)
                            && Nat.eqb (bin_number ye (snd s)) (S j)) sample).

(** [np.histogram2d(x, y, bins=[xe, ye])[0]]: the inner cells only, the
    outliers dropped. [None] is the [ValueError] of [x] and [y] of
    different lengths. *)
Definition histogram2d {num} `{Scalar num} (x y : list num) (xe ye : list num)
    : option (list (list nat)) :=
  if Nat.eqb (List.length x) (List.length y) then
    Some (map (fun i => map (fun j => cell_count xe ye (combine x y) i j)
                            (seq 0 (List.length ye - 1)))
              (seq 0 (List.length xe - 1)))
  else None.

(** Whether [v] falls in one of the bins that [edges] delimit, that is
    whether its bin number is neither [0] nor [length edges]. *)
Definition in_core {num} `{Scalar num} (edges : list num) (v : num) : bool :=
  let k := bin_number edges v in
  Nat.leb 1 k && Nat.leb k (List.length edges - 1).

(** The sum of [f 0], ..., [f (n-1)]. *)
Definition row_sum (f : nat -> nat) (n : nat) : nat :=
  fold_right Nat.add 0%nat (map f (seq 0 n)).

(** [H.sum()]. *)
Definition sum2 (H : list (list nat)) : nat :=
  fold_right (fun row acc => (fold_right Nat.add 0 row + acc)%nat) 0%nat H.

End Np.

(** ** HDF5 files

    What the two modules use of [h5py]: files that hold datasets at the
    root (the layout of the old files) or inside groups of datasets (the
    layout that [write_h5_file] produces). *)

Module H5.

(** The value of a dataset: a scalar or a one-dimensional array. *)
Inductive value (num : Type) : Type :=
| Float (v : num)
| Int (z : Z)
| Str (s : string)
| Floats (a : list num)
| Ints (a : list Z).
Arguments Int {num} z.
Arguments Str {num} s.
Arguments Ints {num} a.

(** A group of datasets. *)
Definition group (num : Type) : Type := Dict.dict (value num).

(** A member of the root group. *)
Inductive node (num : Type) : Type :=
| Dataset (v : value num)
| Group (g : group num).

(** A file is its root group; [fs] holds the files by name. *)
Definition file (num : Type) : Type := Dict.dict (node num).

Definition fs (num : Type) : Type := Dict.dict (file num).

(** A new member of a group: [h5py] lists the members in the order of
    their names. *)
Fixpoint insert {V} (g : Dict.dict V) (k : string) (v : V) : Dict.dict V :=
  match g with
  | [] => [(k, v)]
  | (k', v') :: g' =>
      if String.ltb k k' then (k, v) :: g else (k', v') :: insert g' k v
  end.

Definition name_exists : exn :=
  ValueError "Unable to create link (name already exists)".

(** [h5py] refuses a name that the group already has. *)
Definition create {V} (g : Dict.dict V) (k : string) (v : V)
    : exn + Dict.dict V :=
  if Dict.mem g k then inl name_exists else inr (insert g k v).

Section Operations.

Context {num : Type}.

Import Monad.
Local Open Scope py_scope.

Definition no_such_file : exn := IOError "Unable to open file".

(** [h5py.File(name, "r")]. *)
Definition File_r (name : string) : M (fs num) (file num) :=
  f <- gets (fun s : fs num => Dict.get s name) ;;
  lift_opt no_such_file f.

(** [h5py.File(name, "w")]: the file is created, or truncated if it
    exists; HDF5 does not truncate a file that is open, and [opened] are
    the files that the caller holds open. Whatever is written to the new
    file is written through to [fs]. *)
Definition File_w (name : string) (opened : list string) : M (fs num) unit :=
  if existsb (String.eqb name) opened then
    raise (IOError "Unable to create file (unable to truncate a file which is already open)")
  else modify (fun s : fs num => Dict.set s name []).

(** [f.create_group(name)] on the file [file_name], open for writing. *)
Definition create_group (file_name name : string) : M (fs num) unit :=
  f <- File_r file_name ;;
  f' <- lift (create f name (Group [])) ;;
  modify (fun s : fs num => Dict.set s file_name f').

(** [f[group_name]] where a group is expected; [e] is the exception that
    the caller meets on a dataset. *)
Definition group_of (e : exn) (f : file num) (group_name : string)
    : exn + group num :=
  match Dict.get f group_name with
  | Some (Group g) => inr g
  | Some (Dataset _) => inl e
  | None => inl (KeyError group_name)
  end.

(** [g.create_dataset(key, data=v)] and [g[key] = v] for the group [g]
    of the file [file_name], open for writing. *)
Definition create_dataset (file_name group_name key : string) (v : value num)
    : M (fs num) unit :=
  f <- File_r file_name ;;
  g <- lift (group_of (TypeError "not a group") f group_name) ;;
  g' <- lift (create g key v) ;;
  modify (fun s : fs num => Dict.set s file_name (Dict.set f group_name (Group g'))).

(** [g[key].value] for a group [g]. *)
Definition dataset (g : group num) (key : string) : exn + value num :=
  try_opt (KeyError key) (Dict.get g key).

(** [f[key].value] at the root of a file. *)
Definition root_value (f : file num) (key : string) : exn + value num :=
  match Dict.get f key with
  | Some (Dataset v) => inr v
  | Some (Group _) => inl (AttributeError "value")
  | None => inl (KeyError key)
  end.

(** [d[:]]: the whole of an array; a scalar has nothing to slice. *)
Definition whole (v : value num) : exn + value num :=
  match v with
  | Floats _ | Ints _ => inr v
  | _ => inl (ValueError "Illegal slicing argument for scalar dataspace")
  end.

End Operations.

End H5.

(** ** Event lists ([photon_simulator/event_list.py]) *)

Module EventList.

(** A value of the [parameters] dictionary: a number, a string (a file
    name, a channel type) or an array ([pix_center], [sky_center]). *)
Inductive pvalue (num : Type) : Type :=
| PNum (v : num)
| PStr (s : string)
| PArr (a : list num).
Arguments PStr {num} s.

(** The fields of the [astropy] WCS object that [__init__] sets. *)
Record WCS (num : Type) : Type := {
  crpix : list num;
  crval : list num;
  cdelt : list num;
  ctype : list string;
  cunit : list string
}.

Record t (num : Type) : Type := {
  events : Dict.dict (list num);
  parameters : Dict.dict (pvalue num);
  num_events : nat;
  wcs : WCS num
}.

Section Methods.

Context {num : Type} `{Scalar num}.

(** [wcs.wcs_pix2world(x, y, 1)] of [astropy], an external collaborator. *)
Variable wcs_pix2world : WCS num -> list num -> list num -> list num * list num.

Definition as_num (v : pvalue num) : exn + num :=
  match v with PNum q => inr q | _ => inl (TypeError "not a quantity") end.

Definition as_arr (v : pvalue num) : exn + list num :=
  match v with PArr a => inr a | _ => inl (TypeError "not an array") end.

Definition lookup {V} (d : Dict.dict V) (k : string) : exn + V :=
  match Dict.get d k with Some v => inr v | None => inl (KeyError k) end.

Definition ebind {A B} (c : exn + A) (k : A -> exn + B) : exn + B :=
  match c with inl e => inl e | inr a => k a end.

(** [EventList.__init__]. *)
Definition __init__ (events : Dict.dict (list num))
    (parameters : Dict.dict (pvalue num)) : exn + t num :=
  ebind (lookup events "xpix") (fun xpix =>
  ebind (ebind (lookup parameters "pix_center") as_arr) (fun pix_center =>
  ebind (ebind (lookup parameters "sky_center") as_arr) (fun sky_center =>
  ebind (ebind (lookup parameters "dtheta") as_num) (fun dtheta =>
  inr {| events := events;
         parameters := parameters;
         num_events := List.length xpix;
         wcs := {| crpix := pix_center;
                   crval := sky_center;
                   cdelt := [(- dtheta)%num; dtheta];
                   ctype := ["RA---TAN"; "DEC--TAN"]%string;
                   cunit := ["deg"; "deg"]%string |} |})))).

(** [keys] and [items]. *)
Definition keys (self : t num) : list string := Dict.keys (events self).

Definition items (self : t num) : list (string * list num) := events self.

Definition set_events (ev : Dict.dict (list num)) (self : t num) : t num :=
  {| events := ev;
     parameters := parameters self;
     num_events := num_events self;
     wcs := wcs self |}.

Import Monad.
Local Open Scope py_scope.

(** [EventList.__getitem__]: the first read of ["xsky"] or ["ysky"]
    stores both sky-coordinate fields in [self.events]. *)
Definition __getitem__ (key : string) : M (t num) (list num) :=
  self <- gets (fun s => s) ;;
  (if negb (Dict.mem (events self) key)
      && (String.eqb key "xsky" || String.eqb key "ysky")
   then
     xpix <- lift (lookup (events self) "xpix") ;;
     ypix <- lift (lookup (events self) "ypix") ;;
     let (x, y) := wcs_pix2world (wcs self) xpix ypix in
     modify (fun s => set_events (Dict.set (events s) "xsky" x) s) ;;;
     modify (fun s => set_events (Dict.set (events s) "ysky" y) s)
   else ret tt) ;;;
  self' <- gets (fun s => s) ;;
  lift (lookup (events self') key).

Fixpoint list_eqb {A} (eq : A -> A -> bool) (a b : list A) : bool :=
  match a, b with
  | [], [] => true
  | v :: a', w :: b' => eq v w && list_eqb eq a' b'
  | _, _ => false
  end.

Definition pvalue_eqb (v w : pvalue num) : bool :=
  match v, w with
  | PNum p, PNum q => eqb p q
  | PStr s, PStr r => String.eqb s r
  | PArr a, PArr b => list_eqb eqb a b
  | _, _ => false
  end.

Definition same_wcs (w1 w2 : WCS num) : bool :=
  list_eqb eqb (crpix w1) (crpix w2)
  && list_eqb eqb (crval w1) (crval w2)
  && list_eqb eqb (cdelt w1) (cdelt w2)
  && list_eqb String.eqb (ctype w1) (ctype w2)
  && list_eqb String.eqb (cunit w1) (cunit w2).

(** Modelled from the spec: [assert_same_wcs] of [yt.utilities.fits_image]
    is not under src/. The spec (sections 3, 4.7 and 7) has the merge fail
    unless the detector geometry (pixel scale, reference pixel, sky
    reference) of the two operands is identical. *)
Definition assert_same_wcs (w1 w2 : WCS num) : exn + unit :=
  if same_wcs w1 w2 then inr tt else inl AssertionError.

Definition same_parameters (p1 p2 : Dict.dict (pvalue num)) : bool :=
  Nat.eqb (List.length p1) (List.length p2)
  && forallb (fun kv => match Dict.get p2 (fst kv) with
                        | Some w => pvalue_eqb (snd kv) w
                        | None => false
                        end) p1.

(** Modelled from the spec: [validate_parameters] of
    [photon_simulator/utils.py] is not under src/. The spec (section 3)
    has the parameter sets of the two operands match; [__add__] names no
    parameter that may differ. *)
Definition validate_parameters (p1 p2 : Dict.dict (pvalue num)) : exn + unit :=
  if same_parameters p1 p2 then inr tt
  else inl (RuntimeError "The two inputs do not have the same parameters!").

(** The loop of [__add__]: the items of the two operands are paired by
    position, and the pair is stored under the key of the left item. *)
Definition add_events (i1 i2 : list (string * list num))
    : Dict.dict (list num) :=
  fold_left (fun ev p => Dict.set ev (fst (fst p)) (snd (fst p) ++ snd (snd p)))
            (combine i1 i2) [].

(** The items of two operands paired by position, each pair under the key
    of its left item. *)
Definition paired (i1 i2 : list (string * list num)) : Dict.dict (list num) :=
  map (fun p => (fst (fst p), snd (fst p) ++ snd (snd p))) (combine i1 i2).

(** [EventList.__add__]. *)
Definition __add__ (self other : t num) : exn + t num :=
  ebind (assert_same_wcs (wcs self) (wcs other)) (fun _ =>
  ebind (validate_parameters (parameters self) (parameters other)) (fun _ =>
  __init__ (add_events (items self) (items other)) (parameters self))).

(** [emin is None] gives an all-true mask, otherwise [eobs > emin]. *)
Definition mask_emin (emin : option num) (eobs : list num) (n : nat)
    : list bool :=
  match emin with
  | None => Np.ones n
  | Some lo => map (fun e => gtb e lo) eobs
  end.

Definition mask_emax (emax : option num) (eobs : list num) (n : nat)
    : list bool :=
  match emax with
  | None => Np.ones n
  | Some hi => map (fun e => ltb e hi) eobs
  end.

(** Whether an event of energy [e] passes the energy mask. *)
Definition passes (emin emax : option num) (e : num) : bool :=
  match emin with None => true | Some lo => gtb e lo end
  && match emax with None => true | Some hi => ltb e hi end.

(** Whether the pixel [(x, y)] lies on the grid of [nx] by [ny] unit bins
    that starts at one half. *)
Definition in_grid (nx ny : Z) (x y : num) : bool :=
  leb (of_Z 1 / of_Z 2)%num x && leb x (of_Z nx + of_Z 1 / of_Z 2)%num
  && leb (of_Z 1 / of_Z 2)%num y && leb y (of_Z ny + of_Z 1 / of_Z 2)%num.

(** [int(v)]: [None] is the [ValueError] of a NaN or an infinity. *)
Definition int (v : num) : exn + Z :=
  match trunc v with
  | Some z => inr z
  | None => inl (ValueError "cannot convert float to integer")
  end.

Definition half : num := (of_Z 1 / of_Z 2)%num.

(** The binning of [EventList.write_fits_image], up to the histogram [H];
    the FITS header and the file are not modelled. *)
Definition write_fits_image (emin emax : option num)
    : M (t num) (list (list nat)) :=
  self <- gets (fun s => s) ;;
  eobs_min <- match emin with
              | None => ret []
              | Some _ => __getitem__ "eobs"
              end ;;
  eobs_max <- match emax with
              | None => ret []
              | Some _ => __getitem__ "eobs"
              end ;;
  mask <- lift_opt (ValueError "operands could not be broadcast together")
            (Np.broadcast andb (mask_emin emin eobs_min (num_events self))
                               (mask_emax emax eobs_max (num_events self))) ;;
  pix_center <- lift (ebind (lookup (parameters self) "pix_center") as_arr) ;;
  pc0 <- lift_opt IndexError (Np.item pix_center 0) ;;
  nx <- lift (int (of_Z 2 * pc0 - of_Z 1)%num) ;;
  pc1 <- lift_opt IndexError (Np.item pix_center 1) ;;
  ny <- lift (int (of_Z 2 * pc1 - of_Z 1)%num) ;;
  xbins <- lift_opt (ValueError "Number of samples must be non-negative")
             (Np.linspace half (of_Z nx + half)%num (nx + 1)) ;;
  ybins <- lift_opt (ValueError "Number of samples must be non-negative")
             (Np.linspace half (of_Z ny + half)%num (ny + 1)) ;;
  xpix <- __getitem__ "xpix" ;;
  x <- lift_opt IndexError (Np.compress xpix mask) ;;
  ypix <- __getitem__ "ypix" ;;
  y <- lift_opt IndexError (Np.compress ypix mask) ;;
  lift_opt (ValueError "x and y must have the same length")
           (Np.histogram2d x y xbins ybins).

End Methods.

Section Regions.

Context {num : Type} `{Scalar num}.

Variable wcs_pix2world : WCS num -> list num -> list num -> list num * list num.

(** [pyregion], an external collaborator. [get_filter region wcs] stands
    for lines 97-102: the region is opened if [region] names a file and
    parsed otherwise, it is put in the image coordinates of the header of
    the WCS, and its filter is taken. [inside_x_y] is the method of the
    filter. *)
Variable region_filter : Type.
Variable get_filter : string -> WCS num -> exn + region_filter.
Variable inside_x_y : region_filter -> list num -> list num -> exn + list bool.

Import Monad.
Local Open Scope py_scope.

(** [idxs.sum()] of a boolean array. *)
Definition count_true (idxs : list bool) : nat :=
  List.length (filter (fun b : bool => b) idxs).

(** The loop of lines 107-108: [new_events[k] = v[idxs]] for every item. *)
Fixpoint select_events (idxs : list bool) (items : list (string * list num))
    (new_events : Dict.dict (list num)) : exn + Dict.dict (list num) :=
  match items with
  | [] => inr new_events
  | (k, v) :: rest =>
      v' <~ try_opt IndexError (Np.compress v idxs) ;;
      select_events idxs rest (Dict.set new_events k v')
  end.

(** [EventList.filter_events]. *)
Definition filter_events (region : string) : M (t num) (t num) :=
  self <- gets (fun s => s) ;;
  f <- lift (get_filter region (wcs self)) ;;
  xpix <- __getitem__ wcs_pix2world "xpix" ;;
  ypix <- __getitem__ wcs_pix2world "ypix" ;;
  idxs <- lift (inside_x_y f xpix ypix) ;;
  if (count_true idxs =? 0)%nat then
    raise (RuntimeError "No events are inside this region!")
  else
    self <- gets (fun s => s) ;;
    new_events <- lift (select_events idxs (items self) []) ;;
    lift (__init__ new_events (parameters self)).

End Regions.

End EventList.

(** The bin edges [np.linspace(0.5, n + 0.5, n + 1)] of one axis of the
    image, over the rationals. *)
Definition grid_edges (n : Z) : list Q :=
  let start : Q := EventList.half in
  let stop : Q := (of_Z n + EventList.half)%num in
  let step : Q := ((stop - start) / of_Z (n + 1 - 1))%num in
  map (fun i => (of_Z i * step + start)%num) (Np.arange n) ++ [stop].

(** ** Converting old files ([convert_old_file] of [event_list.py]) *)

Section Conversion.

Context {num : Type}.

Import Monad.
Local Open Scope py_scope.

(** Lines 737-739: an output file that exists is kept unless [clobber]. *)
Definition refuse_overwrite (output_file : string) (clobber : bool)
    : M (H5.fs num) unit :=
  s <- gets (fun s : H5.fs num => s) ;;
  if Dict.mem s output_file && negb clobber then
    raise (IOError ("Cannot overwrite existing file " ++ output_file
                    ++ ". If you want to do this, set clobber=True."))
  else ret tt.

(** The names of lines 743-752. *)
Definition photon_params : list string :=
  ["fid_exp_time"; "fid_area"; "fid_d_a"; "fid_redshift"; "dimension";
   "width"; "hubble"; "omega_matter"; "omega_lambda"]%string.

Definition photon_data : list string :=
  ["x"; "y"; "z"; "dx"; "vx"; "vy"; "vz"; "energy"; "num_photons"]%string.

Definition event_params : list string :=
  ["exp_time"; "area"; "redshift"; "d_a"; "arf"; "rmf"; "channel_type";
   "mission"; "telescope"; "instrument"; "sky_center"; "pix_center";
   "dtheta"]%string.

Definition event_data : list string :=
  ["xsky"; "ysky"; "xpix"; "ypix"; "eobs"; "pi"; "pha"]%string.

(** The loops of lines 759-765: a name that the old file has at its root
    is copied into the group of the new file. *)
Definition copy_keys (f_in : H5.file num) (output_file group_name : string)
    (keys : list string) : M (H5.fs num) unit :=
  for_each
    (fun key =>
       if Dict.mem f_in key then
         v <- lift (H5.root_value f_in key) ;;
         H5.create_dataset output_file group_name key v
       else ret tt)
    keys.

(** [convert_old_file]. An old file with neither ["num_photons"] nor
    ["pix_center"] leaves [params] and [data] unbound; the first use of
    [params] is the loop of line 759, after the new file and its two
    groups were created. *)
Definition convert_old_file (input_file output_file : string) (clobber : bool)
    : M (H5.fs num) unit :=
  refuse_overwrite output_file clobber ;;;
  f_in <- H5.File_r input_file ;;
  let names :=
    if Dict.mem f_in "num_photons" then Some (photon_params, photon_data)
    else if Dict.mem f_in "pix_center" then Some (event_params, event_data)
    else None in
  H5.File_w output_file [input_file] ;;;
  H5.create_group output_file "parameters" ;;;
  H5.create_group output_file "data" ;;;
  params <- lift_opt (NameError "params") (option_map fst names) ;;
  copy_keys f_in output_file "parameters" params ;;;
  data <- lift_opt (NameError "data") (option_map snd names) ;;
  copy_keys f_in output_file "data" data.

End Conversion.

(** ** Merging files ([merge_files] of [event_list.py]) *)

Section Merging.

Context {num : Type} `{Scalar num}.

Import Monad.
Local Open Scope py_scope.

(** [validate_parameters(first, second, skip=skip)] of
    [photon_simulator/utils.py], which is not under src/, on the group
    ["parameters"] of the first file and on what another file holds under
    that name. *)
Variable validate_parameters :
  H5.group num -> H5.node num -> list string -> exn + unit.

(** [key.endswith(suffix)]. *)
Definition endswith (key suffix : string) : bool :=
  (String.length suffix <=? String.length key)%nat
  && String.eqb (substring (String.length key - String.length suffix)
                           (String.length suffix) key)
                suffix.

(** The loop of lines 681-685 over the items of the parameters of the
    first file; the result is [exp_time_key]. *)
Fixpoint copy_parameters (output_file : string)
    (items : list (string * H5.value num)) (exp_time_key : string)
    : M (H5.fs num) string :=
  match items with
  | [] => ret exp_time_key
  | (key, param) :: rest =>
      if endswith key "exp_time" then copy_parameters output_file rest key
      else
        H5.create_dataset output_file "parameters" key param ;;;
        copy_parameters output_file rest exp_time_key
  end.

(** [tot_exp_time += v] for a float or an array of floats [tot]. *)
Definition plus (tot v : H5.value num) : exn + H5.value num :=
  let unsupported := TypeError "unsupported operand type(s) for +" in
  let shape := ValueError "operands could not be broadcast together" in
  match tot, v with
  | H5.Float a, H5.Float b => inr (H5.Float (a + b)%num)
  | H5.Float a, H5.Int z => inr (H5.Float (a + of_Z z)%num)
  | H5.Float a, H5.Floats b => inr (H5.Floats (map (fun w => (a + w)%num) b))
  | H5.Float a, H5.Ints b =>
      inr (H5.Floats (map (fun z => (a + of_Z z)%num) b))
  | H5.Floats a, H5.Float b => inr (H5.Floats (map (fun w => (w + b)%num) a))
  | H5.Floats a, H5.Int z =>
      inr (H5.Floats (map (fun w => (w + of_Z z)%num) a))
  | H5.Floats a, H5.Floats b =>
      t <~ try_opt shape (Np.broadcast add a b) ;; inr (H5.Floats t)
  | H5.Floats a, H5.Ints b =>
      t <~ try_opt shape (Np.broadcast add a (map of_Z b)) ;; inr (H5.Floats t)
  | _, _ => inl unsupported
  end.

(** Lines 704-705: the arrays of the group ["data"] of one file are
    appended to the lists of [data], a new key going last. *)
Fixpoint append_data (d : H5.group num) (keys : list string)
    (data : Dict.dict (list (H5.value num)))
    : exn + Dict.dict (list (H5.value num)) :=
  match keys with
  | [] => inr data
  | key :: rest =>
      v <~ H5.dataset d key ;;
      a <~ H5.whole v ;;
      append_data d rest
        (Dict.set data key
           (match Dict.get data key with Some l => l | None => [] end ++ [a]))
  end.

(** The loop of lines 698-706. [first] tells the first file ([i == 0]).
    A dataset where the loop expects a group is outside of what the
    files of the two classes hold; the exception stands for the one of
    [h5py]. *)
Fixpoint gather_data (add_exposure_times : bool) (exp_time_key : string)
    (input_files : list string) (first : bool) (tot_exp_time : H5.value num)
    (data : Dict.dict (list (H5.value num)))
    : M (H5.fs num) (H5.value num * Dict.dict (list (H5.value num))) :=
  match input_files with
  | [] => ret (tot_exp_time, data)
  | fn :: rest =>
      f <- H5.File_r fn ;;
      tot <- (if add_exposure_times || first then
                p <- lift (H5.group_of (TypeError "not a group") f "parameters") ;;
                v <- lift (H5.dataset p exp_time_key) ;;
                if add_exposure_times then lift (plus tot_exp_time v)
                else ret v
              else ret tot_exp_time) ;;
      d <- lift (H5.group_of (TypeError "not a group") f "data") ;;
      data' <- lift (append_data d (Dict.keys d) data) ;;
      gather_data add_exposure_times exp_time_key rest false tot data'
  end.

(** [np.concatenate] of one-dimensional arrays: integers stay integers
    unless an array of floats is among them. *)
Definition concatenate (chunks : list (H5.value num)) : exn + H5.value num :=
  let is_array v :=
    match v with H5.Floats _ | H5.Ints _ => true | _ => false end in
  let is_ints v := match v with H5.Ints _ => true | _ => false end in
  match chunks with
  | [] => inl (ValueError "need at least one array to concatenate")
  | _ =>
      if negb (forallb is_array chunks) then
        inl (ValueError "zero-dimensional arrays cannot be concatenated")
      else if forallb is_ints chunks then
        inr (H5.Ints
               (List.concat
                  (map (fun v => match v with H5.Ints a => a | _ => [] end)
                       chunks)))
      else
        inr (H5.Floats
               (List.concat
                  (map (fun v => match v with
                                 | H5.Floats a => a
                                 | H5.Ints a => map of_Z a
                                 | _ => []
                                 end)
                       chunks)))
  end.

(** [merge_files]. *)
Definition merge_files (input_files : list string) (output_file : string)
    (clobber add_exposure_times : bool) : M (H5.fs num) unit :=
  refuse_overwrite output_file clobber ;;;
  first <- lift_opt IndexError (hd_error input_files) ;;
  f_in <- H5.File_r first ;;
  H5.File_w output_file [first] ;;;
  H5.create_group output_file "parameters" ;;;
  p_in <- lift (H5.group_of (AttributeError "items") f_in "parameters") ;;
  exp_time_key <- copy_parameters output_file p_in "" ;;
  let skip := if add_exposure_times then [exp_time_key] else [] in
  for_each
    (fun fn =>
       f <- H5.File_r fn ;;
       p <- lift_opt (KeyError "parameters") (Dict.get f "parameters") ;;
       lift (validate_parameters p_in p skip))
    (tl input_files) ;;;
  gathered <- gather_data add_exposure_times exp_time_key input_files true
                (H5.Float (of_Z 0)) [] ;;
  H5.create_dataset output_file "parameters" "exp_time" (fst gathered) ;;;
  H5.create_group output_file "data" ;;;
  for_each
    (fun kv : string * list (H5.value num) =>
       v <- lift (concatenate (snd kv)) ;;
       H5.create_dataset output_file "data" (fst kv) v)
    (snd gathered).

End Merging.

(** ** Photon lists ([pyxsim/photon_list.py]) *)

Module PhotonList.

(** The [photons] dictionary: one entry per emitting cell in every array
    but [Energy], which is flat over all photons. *)
Record Photons (num : Type) : Type := {
  ph_x : list num;
  ph_y : list num;
  ph_z : list num;
  ph_dx : list num;
  ph_vx : list num;
  ph_vy : list num;
  ph_vz : list num;
  NumberOfPhotons : list Z;
  Energy : list num
}.

(** The [parameters] dictionary of a photon list. *)
Record Parameters (num : Type) : Type := {
  FiducialExposureTime : num;
  FiducialArea : num;
  FiducialRedshift : num;
  FiducialAngularDiameterDistance : num;
  Dimension : Z;
  Width : num;
  DataType : string;
  HubbleConstant : num;
  OmegaMatter : num;
  OmegaLambda : num
}.

(** A photon list: the three constructor arguments and the two derived
    fields. [cosmo z1 z2] is [cosmo.angular_diameter_distance(z1, z2)] in
    Mpc, of [yt]. *)
Record t (num : Type) : Type := {
  photons : Photons num;
  parameters : Parameters num;
  cosmo : num -> num -> num;
  num_cells : nat;
  p_bins : list Z
}.

(** [PhotonList.__init__]. *)
Definition __init__ {num} (photons : Photons num) (parameters : Parameters num)
    (cosmo : num -> num -> num) : t num :=
  {| photons := photons;
     parameters := parameters;
     cosmo := cosmo;
     num_cells := List.length (ph_x photons);
     p_bins := Np.insert0 (Np.cumsum (NumberOfPhotons photons)) 0 |}.

(** [self.photons[key]] for the keys of float arrays. *)
Definition photons_get {num} (p : Photons num) (key : string)
    : option (list num) :=
  if String.eqb key "x" then Some (ph_x p)
  else if String.eqb key "y" then Some (ph_y p)
  else if String.eqb key "z" then Some (ph_z p)
  else if String.eqb key "dx" then Some (ph_dx p)
  else if String.eqb key "vx" then Some (ph_vx p)
  else if String.eqb key "vy" then Some (ph_vy p)
  else if String.eqb key "vz" then Some (ph_vz p)
  else if String.eqb key "Energy" then Some (Energy p)
  else None.

(** [axes_lookup]. *)
Definition axes_lookup : Dict.dict (string * string) :=
  [("x", ("y", "z")); ("y", ("z", "x")); ("z", ("x", "y"))]%string.

Definition vec3 (num : Type) : Type := (num * num * num)%type.

(** [v[0]], [v[1]] and [v[2]]. *)
Definition v0 {num} (v : vec3 num) : num := fst (fst v).
Definition v1 {num} (v : vec3 num) : num := snd (fst v).
Definition v2 {num} (v : vec3 num) : num := snd v.

(** An [AuxiliaryResponseFile] of [pyxsim.responses]. *)
Record AuxiliaryResponseFile (num : Type) : Type := {
  filename : string;
  max_area : num;
  rmffile : option string
}.

(** An absorption model between [prepare_spectrum] and [cleanup_spectrum]:
    the energy grid [emid] and the curve that [get_spectrum] returns. *)
Record AbsorbModel (num : Type) : Type := {
  emid : list num;
  get_spectrum : list num
}.

Inductive normal_arg (num : Type) : Type :=
| NormalAxis (s : string)
| NormalVector (L : vec3 num).
Arguments NormalAxis {num} s.

Inductive area_arg (num : Type) : Type :=
| AreaValue (v : num)
| AreaARF (arf : AuxiliaryResponseFile num).

(** The arguments of [project_photons] that its body reads; [None] is
    Python's [None]. The generator [prng] is part of the store. *)
Record args (num : Type) : Type := {
  normal : normal_arg num;
  area_new : option (area_arg num);
  exp_time_new : option num;
  redshift_new : option num;
  dist_new : option num;
  absorb_model : option (AbsorbModel num);
  sky_center : option (list num);
  no_shifting : bool;
  north_vector : option (vec3 num)
}.

(** What the body takes from NumPy, [yt] and [pyxsim.responses]. A random
    array of size [n] is [n] successive draws of the generator. *)
Class Collaborators (num G : Type) : Type := {
  rng_permutation : Z -> G -> list Z * G;
  rng_uniform : num -> num -> G -> num * G;
  rng_normal : num -> num -> G -> num * G;
  Orientation : vec3 num -> option (vec3 num) -> vec3 num * vec3 num * vec3 num;
  in_cgs : num -> num;
  clight : num;
  interp : list num -> list num -> list num -> list num;
  amax : list num -> option num;
  rad2deg : num -> num;
  detect_events : AuxiliaryResponseFile num -> list num -> G -> list bool * G
}.

(** One call of a method of the generator. *)
Inductive draw : Type :=
| DrawPermutation (n : Z)
| DrawUniform (size : nat)
| DrawNormal (size : nat)
| DrawDetect (size : nat).

Inductive level : Type := INFO | ERROR.

(** The store of a call: the photon list itself, the generator, the calls
    made to the generator so far and the log. *)
Record world (num G : Type) : Type := {
  self : t num;
  prng : G;
  draws : list draw;
  log : list (level * string)
}.

(** What the rescaling block leaves in the local variables. *)
Record rescaled (num : Type) : Type := {
  my_n_obs : Z;
  zobs : num;
  D_A : num;
  scale_factor : num;
  out_parameters : Dict.dict (EventList.pvalue num);
  arf : option (AuxiliaryResponseFile num);
  area : option num
}.

Section Methods.

Context {num G : Type} `{Scalar num} `{Sqrt num} `{Collaborators num G}.

Import Monad.
Local Open Scope py_scope.

Local Notation "'W'" := (world num G).

Definition set_prng (g : G) (d : draw) (w : W) : W :=
  {| self := self w; prng := g; draws := draws w ++ [d]; log := log w |}.

(** [mylog.info(msg)] and [mylog.error(msg)]; the formatted numbers are
    left out of the messages. *)
Definition mylog (l : level) (msg : string) : M W unit :=
  modify (fun w => {| self := self w; prng := prng w; draws := draws w;
                      log := log w ++ [(l, msg)] |}).

(** [n] successive draws. *)
Fixpoint draw_n (one : G -> num * G) (n : nat) (g : G) : list num * G :=
  match n with
  | O => ([], g)
  | S n' =>
      let (v, g1) := one g in
      let (r, g2) := draw_n one n' g1 in
      (v :: r, g2)
  end.

(** [prng.permutation(n)]. *)
Definition prng_permutation (n : Z) : M W (list Z) :=
  fun w =>
    let (p, g) := rng_permutation n (prng w) in
    (inr p, set_prng g (DrawPermutation n) w).

(** [prng.uniform(low=low, high=high, size=size)]. *)
Definition prng_uniform (low high : num) (size : nat) : M W (list num) :=
  fun w =>
    let (v, g) := draw_n (rng_uniform low high) size (prng w) in
    (inr v, set_prng g (DrawUniform size) w).

(** [prng.normal(loc=loc, scale=scale, size=size)]. *)
Definition prng_normal (loc scale : num) (size : nat) : M W (list num) :=
  fun w =>
    let (v, g) := draw_n (rng_normal loc scale) size (prng w) in
    (inr v, set_prng g (DrawNormal size) w).

(** [arf.detect_events(eobs, prng=prng)]. *)
Definition arf_detect_events (arf : AuxiliaryResponseFile num)
    (eobs : list num) : M W (list bool) :=
  fun w =>
    let (d, g) := detect_events arf eobs (prng w) in
    (inr d, set_prng g (DrawDetect (List.length eobs)) w).

(** Modelled from the spec: [parse_value] of [pyxsim/utils.py] is not
    under src/. The docstring of [project_photons] takes a number without
    units in the default unit, and the spec (section 4.1) divides the
    requested value by the fiducial one. *)
Definition parse_value (v : num) (default_units : string) : num := v.

(** [np.uint64(v)]: the truncation of [v] where it is a [uint64]; a
    C cast of any other value is undefined. *)
Definition uint64 (v : num) : option Z :=
  match trunc v with
  | Some z =>
      if (0 <=? z) && (z <? Np.uint64_modulus) then Some z else None
  | None => None
  end.

Definition one : num := of_Z 1.

Definition half : num := (of_Z 1 / of_Z 2)%num.

(** Whether no override was requested (line 522). *)
Definition no_override (a : args num) : bool :=
  match exp_time_new a, area_new a, redshift_new a, dist_new a with
  | None, None, None, None => true
  | _, _, _, _ => false
  end.

(** Lines 528-531. *)
Definition Tratio (p : Parameters num) (a : args num) : num :=
  match exp_time_new a with
  | None => one
  | Some t => (parse_value t "s" / FiducialExposureTime p)%num
  end.

(** Lines 532-544, the value only. *)
Definition Aratio (p : Parameters num) (a : args num) : num :=
  match area_new a with
  | None => one
  | Some (AreaARF arf) => (max_area arf / FiducialArea p)%num
  | Some (AreaValue v) => (parse_value v "cm**2" / FiducialArea p)%num
  end.

(** Lines 545-556: the observed redshift. *)
Definition zobs_of (pl : t num) (a : args num) : num :=
  match redshift_new a, dist_new a with
  | None, None => FiducialRedshift (parameters pl)
  | None, Some _ => of_Z 0
  | Some z, _ => z
  end.

(** Lines 545-556: the angular diameter distance of the observation. *)
Definition D_A_of (pl : t num) (a : args num) : num :=
  match redshift_new a, dist_new a with
  | None, None => FiducialAngularDiameterDistance (parameters pl)
  | None, Some d => parse_value d "Mpc"
  | Some z, _ => cosmo pl (of_Z 0) z
  end.

(** Lines 520 and 556. *)
Definition scale_factor_of (pl : t num) (a : args num) : num :=
  match redshift_new a with
  | None => one
  | Some z => ((one + FiducialRedshift (parameters pl)) / (one + z))%num
  end.

(** Lines 545-558. *)
Definition Dratio (pl : t num) (a : args num) : num :=
  match redshift_new a, dist_new a with
  | None, None => one
  | _, _ =>
      let zobs0 := FiducialRedshift (parameters pl) in
      let D_A0 := FiducialAngularDiameterDistance (parameters pl) in
      let zobs := zobs_of pl a in
      let D_A := D_A_of pl a in
      (D_A0 * D_A0 * pow (one + zobs0) 3
       / (D_A * D_A * pow (one + zobs) 3))%num
  end.

(** Line 559. *)
Definition fak (pl : t num) (a : args num) : num :=
  (Aratio (parameters pl) a * Tratio (parameters pl) a * Dratio pl a)%num.

Definition budget_message : string :=
  "This combination of requested parameters results in more photons collected than are available in the sample. Please reduce the collecting area, exposure time, or increase the distance/redshift of the object. Alternatively, generate a larger sample of photons.".

(** Lines 532-544: the log lines and the entries of the new [parameters]
    dictionary that the area leaves. *)
Definition area_effects (a : args num)
    : M W (Dict.dict (EventList.pvalue num)) :=
  match area_new a with
  | None => ret []
  | Some (AreaARF arf) =>
      mylog INFO "Using energy-dependent effective area: %s" ;;;
      let p1 := Dict.set [] "ARF" (EventList.PStr (filename arf)) in
      ret (match rmffile arf with
           | Some r => Dict.set p1 "RMF" (EventList.PStr r)
           | None => p1
           end)
  | Some (AreaValue _) =>
      mylog INFO "Using constant effective area." ;;;
      ret []
  end.

(** [area_new] after line 536. *)
Definition area_value (a : args num) : option num :=
  match area_new a with
  | None => None
  | Some (AreaARF arf) => Some (max_area arf)
  | Some (AreaValue v) => Some v
  end.

Definition arf_of (a : args num) : option (AuxiliaryResponseFile num) :=
  match area_new a with
  | Some (AreaARF arf) => Some arf
  | _ => None
  end.

(** Lines 516-567: the rescaling of the sample. *)
Definition rescale (a : args num) (n_ph_tot : Z) : M W (rescaled num) :=
  pl <- gets (@self num G) ;;
  if no_override a then
    ret {| my_n_obs := n_ph_tot;
           zobs := FiducialRedshift (parameters pl);
           D_A := FiducialAngularDiameterDistance (parameters pl);
           scale_factor := one;
           out_parameters := [];
           arf := None;
           area := None |}
  else
    params <- area_effects a ;;
    if gtb (fak pl a) one then raise (ValueError budget_message)
    else
      n <- lift_opt UndefinedCast (uint64 (of_Z n_ph_tot * fak pl a)%num) ;;
      ret {| my_n_obs := n;
             zobs := zobs_of pl a;
             D_A := D_A_of pl a;
             scale_factor := scale_factor_of pl a;
             out_parameters := params;
             arf := arf_of a;
             area := area_value a |}.

(** Lines 573-576: the indices of the photons that are kept. *)
Definition select_indices (my_n_obs n_ph_tot : Z) : M W (list Z) :=
  if my_n_obs =? n_ph_tot then ret (Np.arange my_n_obs)
  else
    p <- prng_permutation n_ph_tot ;;
    ret (Np.slice_to p my_n_obs).

(** Line 577: the cell that owns a photon. *)
Definition owner (p_bins : list Z) (j : Z) : Z :=
  Z.of_nat (Np.searchsorted_right Z.ltb p_bins j) - 1.

Definition obs_cells_of (p_bins : list Z) (idxs : list Z) : list Z :=
  map (owner p_bins) idxs.

Definition shape_error : exn :=
  ValueError "operands could not be broadcast together".

(** [size] uniform draws in [-0.5, 0.5) for cells, normal draws for
    particles; for any other [DataType] nothing is drawn and the local
    variable stays unbound. *)
Definition offsets (data_type : string) (size : nat)
    : M W (option (list num)) :=
  if String.eqb data_type "cells" then
    v <- prng_uniform (- half)%num half size ;; ret (Some v)
  else if String.eqb data_type "particles" then
    v <- prng_normal (of_Z 0) one size ;; ret (Some v)
  else ret None.

(** [self.photons[key].d[obs_cells]]. *)
Definition gather (pl : t num) (key : string) (obs_cells : list Z)
    : M W (list num) :=
  col <- lift_opt (KeyError key) (photons_get (photons pl) key) ;;
  lift_opt IndexError (Np.take col obs_cells).

(** Lines 582-594: projection along a principal axis. The result is
    [xsky], [ysky] and, unless [no_shifting], the velocities [vz]. *)
Definition project_axis (a : args num) (pl : t num) (axis : string) (size : nat)
    (obs_cells : list Z) (delta : list num)
    : M W (list num * list num * option (list num)) :=
  xo <- offsets (DataType (parameters pl)) size ;;
  yo <- offsets (DataType (parameters pl)) size ;;
  xsky <- lift_opt (NameError "xsky") xo ;;
  xsky <- lift_opt shape_error (Np.inplace mul xsky delta) ;;
  ysky <- lift_opt (NameError "ysky") yo ;;
  ysky <- lift_opt shape_error (Np.inplace mul ysky delta) ;;
  ax <- lift_opt (KeyError axis) (Dict.get axes_lookup axis) ;;
  px <- gather pl (fst ax) obs_cells ;;
  xsky <- lift_opt shape_error (Np.inplace add xsky px) ;;
  ax <- lift_opt (KeyError axis) (Dict.get axes_lookup axis) ;;
  py <- gather pl (snd ax) obs_cells ;;
  ysky <- lift_opt shape_error (Np.inplace add ysky py) ;;
  if no_shifting a then ret (xsky, ysky, None)
  else
    vz <- lift_opt (KeyError ("v" ++ axis))
            (photons_get (photons pl) ("v" ++ axis)) ;;
    ret (xsky, ysky, Some vz).

(** [u*w[0] + v*w[1] + t*w[2]] on arrays. *)
Definition dot3 (u v t : list num) (w : vec3 num) : option (list num) :=
  match Np.broadcast add (map (fun e => (e * v0 w)%num) u)
                         (map (fun e => (e * v1 w)%num) v) with
  | Some s => Np.broadcast add s (map (fun e => (e * v2 w)%num) t)
  | None => None
  end.

(** Lines 598-620: projection along an arbitrary line of sight. *)
Definition project_off_axis (a : args num) (pl : t num)
    (x_hat y_hat z_hat : vec3 num) (size : nat)
    (obs_cells : list Z) (delta : list num)
    : M W (list num * list num * option (list num)) :=
  xo <- offsets (DataType (parameters pl)) size ;;
  yo <- offsets (DataType (parameters pl)) size ;;
  zo <- offsets (DataType (parameters pl)) size ;;
  vz <- (if no_shifting a then ret None
         else
           v <- lift_opt shape_error
                  (dot3 (ph_vx (photons pl)) (ph_vy (photons pl))
                        (ph_vz (photons pl)) z_hat) ;;
           ret (Some v)) ;;
  x <- lift_opt (NameError "x") xo ;;
  x <- lift_opt shape_error (Np.inplace mul x delta) ;;
  y <- lift_opt (NameError "y") yo ;;
  y <- lift_opt shape_error (Np.inplace mul y delta) ;;
  z <- lift_opt (NameError "z") zo ;;
  z <- lift_opt shape_error (Np.inplace mul z delta) ;;
  px <- gather pl "x" obs_cells ;;
  x <- lift_opt shape_error (Np.inplace add x px) ;;
  py <- gather pl "y" obs_cells ;;
  y <- lift_opt shape_error (Np.inplace add y py) ;;
  pz <- gather pl "z" obs_cells ;;
  z <- lift_opt shape_error (Np.inplace add z pz) ;;
  xsky <- lift_opt shape_error (dot3 x y z x_hat) ;;
  ysky <- lift_opt shape_error (dot3 x y z y_hat) ;;
  ret (xsky, ysky, vz).

(** Lines 625-626: the Doppler factor of one line-of-sight velocity. *)
Definition doppler_shift (v : num) : num :=
  let shift := ((- in_cgs v) / clight)%num in
  sqrt ((one - shift) / (one + shift))%num.

(** The Doppler factor as the specification words it,
    [sqrt((1 - v/c) / (1 + v/c))], for comparison with [doppler_shift]. *)
Definition spec_doppler_shift (v : num) : num :=
  let beta := (in_cgs v / clight)%num in
  sqrt ((one - beta) / (one + beta))%num.

(** Lines 622-628: the observed energies of the selected photons. *)
Definition observed_energies (a : args num) (pl : t num) (idxs obs_cells : list Z)
    (vz : option (list num)) (scale_factor : num) : M W (list num) :=
  eobs <- (if no_shifting a then
             lift_opt IndexError (Np.take (Energy (photons pl)) idxs)
           else
             vz <- lift_opt (NameError "vz") vz ;;
             let shift := map doppler_shift vz in
             e <- lift_opt IndexError (Np.take (Energy (photons pl)) idxs) ;;
             s <- lift_opt IndexError (Np.take shift obs_cells) ;;
             lift_opt shape_error (Np.broadcast mul e s)) ;;
  ret (map (fun e => (e * scale_factor)%num) eobs).

(** Lines 630-640: the photons that the absorption leaves. *)
Definition absorption (a : args num) (eobs : list num) : M W (list bool) :=
  match absorb_model a with
  | None => ret (Np.ones (List.length eobs))
  | Some m =>
      mylog INFO "Absorbing." ;;;
      let aspec := get_spectrum m in
      let absorb := interp eobs (emid m) aspec in
      top <- lift_opt (ValueError "zero-size array to reduction operation maximum")
               (amax aspec) ;;
      u <- prng_uniform (of_Z 0) one (List.length eobs) ;;
      let randvec := map (fun e => (top * e)%num) u in
      lift_opt shape_error (Np.broadcast ltb randvec absorb)
  end.

(** Lines 642-648: the photons that are detected. *)
Definition detection (r : rescaled num) (eobs : list num) (not_abs : list bool)
    : M W (list bool) :=
  detected <- (if negb (Dict.mem (out_parameters r) "ARF") then
                 ret (Np.ones (List.length eobs))
               else
                 mylog INFO "Applying energy-dependent effective area." ;;;
                 f <- lift_opt (NameError "arf") (arf r) ;;
                 arf_detect_events f eobs) ;;
  lift_opt shape_error (Np.broadcast andb not_abs detected).

(** Lines 666-678: the parameters of the event list. *)
Definition event_parameters (a : args num) (pl : t num) (r : rescaled num)
    (sky : list num) (dtheta : num) : Dict.dict (EventList.pvalue num) :=
  let nx := Dimension (parameters pl) in
  let p := out_parameters r in
  let p := Dict.set p "ExposureTime"
             (EventList.PNum match exp_time_new a with
                             | None => FiducialExposureTime (parameters pl)
                             | Some t => t
                             end) in
  let p := Dict.set p "Area"
             (EventList.PNum match area r with
                             | None => FiducialArea (parameters pl)
                             | Some v => v
                             end) in
  let p := Dict.set p "Redshift" (EventList.PNum (zobs r)) in
  let p := Dict.set p "AngularDiameterDistance" (EventList.PNum (D_A r)) in
  let p := Dict.set p "sky_center" (EventList.PArr sky) in
  let p := Dict.set p "pix_center"
             (EventList.PArr [(half * of_Z (nx + 1))%num;
                              (half * of_Z (nx + 1))%num]) in
  Dict.set p "dtheta" (EventList.PNum dtheta).

(** Lines 569-680: the projection of the photons that the rescaling
    keeps. *)
Definition project_selected (a : args num) (pl : t num) (r : rescaled num)
    (sky : list num) : M W (EventList.t num) :=
  let dx := ph_dx (photons pl) in
  let nx := Dimension (parameters pl) in
  let n_ph_tot := Np.sum (NumberOfPhotons (photons pl)) in
  mylog INFO "Total number of photons to use: %d" ;;;
  idxs <- select_indices (my_n_obs r) n_ph_tot ;;
  let obs_cells := obs_cells_of (p_bins pl) idxs in
  delta <- lift_opt IndexError (Np.take dx obs_cells) ;;
  let size := Z.to_nat (my_n_obs r) in
  sky_vz <- match normal a with
            | NormalAxis s => project_axis a pl s size obs_cells delta
            | NormalVector L =>
                let '(x_hat, y_hat, z_hat) := Orientation L (north_vector a) in
                project_off_axis a pl x_hat y_hat z_hat size obs_cells delta
            end ;;
  let xsky := fst (fst sky_vz) in
  let ysky := snd (fst sky_vz) in
  eobs <- observed_energies a pl idxs obs_cells (snd sky_vz) (scale_factor r) ;;
  not_abs <- absorption a eobs ;;
  detected <- detection r eobs not_abs ;;
  let dx_min := (Width (parameters pl) / of_Z (Dimension (parameters pl)))%num in
  let dtheta := rad2deg (dx_min / D_A r)%num in
  xs <- lift_opt IndexError (Np.compress xsky detected) ;;
  ys <- lift_opt IndexError (Np.compress ysky detected) ;;
  es <- lift_opt IndexError (Np.compress eobs detected) ;;
  let centre := (half * of_Z (nx + 1))%num in
  let events :=
    Dict.set (Dict.set (Dict.set []
      "xpix" (map (fun v => (v / dx_min + centre)%num) xs))
      "ypix" (map (fun v => (v / dx_min + centre)%num) ys))
      "eobs" es in
  mylog INFO "Total number of observed photons: %d" ;;;
  let params := event_parameters a pl r sky dtheta in
  lift (EventList.__init__ events params).

(** [PhotonList.project_photons]: lines 491-567, then the projection.
    The basis of an off-axis projection (lines 506-511) does not enter
    the rescaling and is computed where it is used. *)
Definition project_photons (a : args num) : M W (EventList.t num) :=
  (match redshift_new a, dist_new a with
   | Some _, Some _ =>
       mylog ERROR "You may specify a new redshift or distance, but not both!"
   | _, _ => ret tt
   end) ;;;
  let sky := match sky_center a with
             | None => [of_Z 30; of_Z 45]
             | Some c => c
             end in
  pl <- gets (@self num G) ;;
  let n_ph_tot := Np.sum (NumberOfPhotons (photons pl)) in
  r <- rescale a n_ph_tot ;;
  project_selected a pl r sky.

End Methods.

Section Container.

Context {num : Type}.

Import Monad.

(** What [self[key]] returns: the energies cell by cell, a column of
    floats, or the photon counts. *)
Inductive field : Type :=
| ByCell (e : list (list num))
| Column (a : list num)
| Counts (n : list Z).

(** [self.photons["Energy"][self.p_bins[i]:self.p_bins[i+1]]]. *)
Definition energy_of_cell (self : t num) (i : nat) : exn + list num :=
  try_bind (try_opt IndexError (Np.item (p_bins self) (Z.of_nat i))) (fun lo =>
  try_bind (try_opt IndexError (Np.item (p_bins self) (Z.of_nat i + 1))) (fun hi =>
  inr (Np.slice (Energy (photons self)) lo hi))).

(** [PhotonList.__getitem__]. *)
Definition __getitem__ (self : t num) (key : string) : exn + field :=
  if String.eqb key "Energy" then
    try_bind (try_map (energy_of_cell self) (seq 0 (num_cells self)))
             (fun e => inr (ByCell e))
  else if String.eqb key "NumberOfPhotons" then
    inr (Counts (NumberOfPhotons (photons self)))
  else
    match photons_get (photons self) key with
    | Some a => inr (Column a)
    | None => inl (KeyError key)
    end.

End Container.

Section Files.

Context {num : Type} `{Scalar num}.

Import Monad.
Local Open Scope py_scope.

(** [comm.rank] and [comm.size]: a serial run is rank 0 of size 1. *)
Variables rank size : Z.

(** [force_unicode] of [pyxsim/utils.py], which is not under src/. *)
Variable force_unicode : string -> string.

(** [Cosmology(hubble_constant=h, omega_matter=m, omega_lambda=l)] of
    [yt], as the distance function that a photon list keeps. *)
Variable Cosmology : num -> num -> num -> num -> num -> num.

(** [YTQuantity(v, unit)]: one number, as a float. *)
Definition YTQuantity (v : H5.value num) : exn + num :=
  match v with
  | H5.Float q => inr q
  | H5.Int z => inr (of_Z z)
  | H5.Str _ => inl (RuntimeError "YTQuantity values must be numeric")
  | _ => inl (RuntimeError "YTQuantity instances must be scalars")
  end.

(** A parameter that [from_file] stores as it reads it. The record keeps
    it at the type of its field: a value of another type, which Python
    would store and meet at its first use, is refused at the read. *)
Definition number (v : H5.value num) : exn + num :=
  match v with
  | H5.Float q => inr q
  | H5.Int z => inr (of_Z z)
  | _ => inl (TypeError "not a number")
  end.

Definition integer (v : H5.value num) : exn + Z :=
  match v with
  | H5.Int z => inr z
  | _ => inl (TypeError "not an integer")
  end.

Definition text (v : H5.value num) : exn + string :=
  match v with
  | H5.Str s => inr s
  | _ => inl (TypeError "not a string")
  end.

(** An array of floats and an array of photon counts. *)
Definition floats (v : H5.value num) : exn + list num :=
  match v with
  | H5.Floats a => inr a
  | H5.Ints a => inr (map of_Z a)
  | _ => inl (ValueError "Illegal slicing argument for scalar dataspace")
  end.

Definition counts (v : H5.value num) : exn + list Z :=
  match v with
  | H5.Ints a => inr a
  | H5.Floats _ => inl (TypeError "not an array of integers")
  | _ => inl (ValueError "Illegal slicing argument for scalar dataspace")
  end.

(** The cells of this rank, lines 125-127. *)
Definition start_c (num_cells : Z) : Z := rank * num_cells / size.

Definition end_c (num_cells : Z) : Z := (rank + 1) * num_cells / size.

(** The photons of this rank, lines 139-143. *)
Definition start_e (n_ph : list Z) (num_cells : Z) : Z :=
  if rank =? 0 then 0 else Np.sum (Np.slice_to n_ph (start_c num_cells)).

Definition end_e (n_ph : list Z) (num_cells : Z) : Z :=
  Np.wrap64 (start_e n_ph num_cells
             + Np.sum (Np.slice n_ph (start_c num_cells) (end_c num_cells))).

(** What [from_file] reads from an open file. *)
Definition read_photon_list (f : H5.file num) : exn + t num :=
  p <~ H5.group_of (ValueError "Field names only allowed for compound types")
         f "parameters" ;;
  fid_exp_time <~ (v <~ H5.dataset p "fid_exp_time" ;; YTQuantity v) ;;
  fid_area <~ (v <~ H5.dataset p "fid_area" ;; YTQuantity v) ;;
  fid_redshift <~ (v <~ H5.dataset p "fid_redshift" ;; number v) ;;
  fid_d_a <~ (v <~ H5.dataset p "fid_d_a" ;; YTQuantity v) ;;
  dimension <~ (v <~ H5.dataset p "dimension" ;; integer v) ;;
  width <~ (v <~ H5.dataset p "width" ;; YTQuantity v) ;;
  hubble <~ (v <~ H5.dataset p "hubble" ;; number v) ;;
  omega_matter <~ (v <~ H5.dataset p "omega_matter" ;; number v) ;;
  omega_lambda <~ (v <~ H5.dataset p "omega_lambda" ;; number v) ;;
  data_type <~ (if Dict.mem p "data_type"
                then v <~ H5.dataset p "data_type" ;;
                     s <~ text v ;; inr (force_unicode s)
                else inr "cells"%string) ;;
  d <~ H5.group_of (ValueError "Field names only allowed for compound types")
         f "data" ;;
  shape <~ (v <~ H5.dataset d "x" ;; floats v) ;;
  let num_cells := Z.of_nat (List.length shape) in
  let lo := start_c num_cells in
  let hi := end_c num_cells in
  x <~ (v <~ H5.dataset d "x" ;; floats v) ;;
  y <~ (v <~ H5.dataset d "y" ;; floats v) ;;
  z <~ (v <~ H5.dataset d "z" ;; floats v) ;;
  dx <~ (v <~ H5.dataset d "dx" ;; floats v) ;;
  vx <~ (v <~ H5.dataset d "vx" ;; floats v) ;;
  vy <~ (v <~ H5.dataset d "vy" ;; floats v) ;;
  vz <~ (v <~ H5.dataset d "vz" ;; floats v) ;;
  n_ph <~ (v <~ H5.dataset d "num_photons" ;; counts v) ;;
  energy <~ (v <~ H5.dataset d "energy" ;; floats v) ;;
  inr (__init__
         {| ph_x := Np.slice x lo hi;
            ph_y := Np.slice y lo hi;
            ph_z := Np.slice z lo hi;
            ph_dx := Np.slice dx lo hi;
            ph_vx := Np.slice vx lo hi;
            ph_vy := Np.slice vy lo hi;
            ph_vz := Np.slice vz lo hi;
            NumberOfPhotons := Np.slice n_ph lo hi;
            Energy := Np.slice energy (start_e n_ph num_cells)
                                      (end_e n_ph num_cells) |}
         {| FiducialExposureTime := fid_exp_time;
            FiducialArea := fid_area;
            FiducialRedshift := fid_redshift;
            FiducialAngularDiameterDistance := fid_d_a;
            Dimension := dimension;
            Width := width;
            DataType := data_type;
            HubbleConstant := hubble;
            OmegaMatter := omega_matter;
            OmegaLambda := omega_lambda |}
         (Cosmology hubble omega_matter omega_lambda)).

(** [PhotonList.from_file]. *)
Definition from_file (filename : string) : M (H5.fs num) (t num) :=
  f <- H5.File_r filename ;;
  lift (read_photon_list f).

(** [PhotonList.write_h5_file] of a serial run ([parallel_capable] is
    false and the rank is 0). *)
Definition write_h5_file (self : t num) (photonfile : string)
    : M (H5.fs num) unit :=
  let p := parameters self in
  let ph := photons self in
  H5.File_w photonfile [] ;;;
  H5.create_group photonfile "parameters" ;;;
  H5.create_dataset photonfile "parameters" "fid_area"
    (H5.Float (FiducialArea p)) ;;;
  H5.create_dataset photonfile "parameters" "fid_exp_time"
    (H5.Float (FiducialExposureTime p)) ;;;
  H5.create_dataset photonfile "parameters" "fid_redshift"
    (H5.Float (FiducialRedshift p)) ;;;
  H5.create_dataset photonfile "parameters" "hubble"
    (H5.Float (HubbleConstant p)) ;;;
  H5.create_dataset photonfile "parameters" "omega_matter"
    (H5.Float (OmegaMatter p)) ;;;
  H5.create_dataset photonfile "parameters" "omega_lambda"
    (H5.Float (OmegaLambda p)) ;;;
  H5.create_dataset photonfile "parameters" "fid_d_a"
    (H5.Float (FiducialAngularDiameterDistance p)) ;;;
  H5.create_dataset photonfile "parameters" "dimension"
    (H5.Int (Dimension p)) ;;;
  H5.create_dataset photonfile "parameters" "width" (H5.Float (Width p)) ;;;
  H5.create_dataset photonfile "parameters" "data_type"
    (H5.Str (DataType p)) ;;;
  H5.create_group photonfile "data" ;;;
  H5.create_dataset photonfile "data" "x" (H5.Floats (ph_x ph)) ;;;
  H5.create_dataset photonfile "data" "y" (H5.Floats (ph_y ph)) ;;;
  H5.create_dataset photonfile "data" "z" (H5.Floats (ph_z ph)) ;;;
  H5.create_dataset photonfile "data" "vx" (H5.Floats (ph_vx ph)) ;;;
  H5.create_dataset photonfile "data" "vy" (H5.Floats (ph_vy ph)) ;;;
  H5.create_dataset photonfile "data" "vz" (H5.Floats (ph_vz ph)) ;;;
  H5.create_dataset photonfile "data" "dx" (H5.Floats (ph_dx ph)) ;;;
  H5.create_dataset photonfile "data" "num_photons"
    (H5.Ints (NumberOfPhotons ph)) ;;;
  H5.create_dataset photonfile "data" "energy" (H5.Floats (Energy ph)).

End Files.

End PhotonList.

(** [photon_units] of [photon_list.py], in the order in which the module
    fills it. *)
Definition photon_units : Dict.dict string :=
  [("Energy", "keV"); ("dx", "kpc"); ("x", "kpc"); ("vx", "km/s");
   ("y", "kpc"); ("vy", "km/s"); ("z", "kpc"); ("vz", "km/s")]%string.

(** [concatenate_photons]: every key of the dictionary goes from the list
    of the arrays of the chunks to one array. A key without a chunk gets an
    empty array, with the unit that [photon_units] has for it unless it is
    ["NumberOfPhotons"]. The result is the dictionary after the loop; the
    entries that the loop had replaced before an exception are not
    returned. *)
Definition concatenate_photons {V} (photons : Dict.dict (list (list V)))
    : exn + Dict.dict (list V) :=
  Monad.try_map
    (fun kv : string * list (list V) =>
       if (0 <? List.length (snd kv))%nat then inr (fst kv, List.concat (snd kv))
       else if String.eqb (fst kv) "NumberOfPhotons" then inr (fst kv, [])
       else
         match Dict.get photon_units (fst kv) with
         | Some _ => inr (fst kv, [])
         | None => inl (KeyError (fst kv))
         end)
    photons.

(** ** A runnable configuration

    Stand-ins for the collaborators at IEEE binary64, and the sample of the
    end-to-end scenarios of the specification: 10 emitters with 10 photons
    each, a fiducial area of 1000 cm^2, an exposure of 1e5 s and a redshift
    of 0.05. They serve to run the functions above on concrete inputs. *)

Module Demo.

Import PhotonList.

(** The generator state is a 64-bit word stepped by a linear congruence. *)
Definition lcg (g : Z) : Z :=
  (6364136223846793005 * g + 1442695040888963407) mod 2 ^ 64.

Definition unit_draw (g : Z) : float :=
  (of_Z (g / 2 ^ 32 mod 1024) / of_Z 1024)%num.

Definition uniform1 (low high : float) (g : Z) : float * Z :=
  ((low + (high - low) * unit_draw g)%num, lcg g).

Definition normal1 (loc scale : float) (g : Z) : float * Z :=
  ((loc + scale * (of_Z 4 * unit_draw g - of_Z 2))%num, lcg g).

(** A rotation of [0, ..., n-1]. *)
Definition permutation (n : Z) (g : Z) : list Z * Z :=
  let k := Z.to_nat (if 0 <? n then g mod n else 0) in
  (skipn k (Np.arange n) ++ firstn k (Np.arange n), lcg g).

Definition norm (L : vec3 float) : float :=
  PrimFloat.sqrt (v0 L * v0 L + v1 L * v1 L + v2 L * v2 L)%num.

Definition orientation (L : vec3 float) (north : option (vec3 float))
    : vec3 float * vec3 float * vec3 float :=
  let n := norm L in
  ((of_Z 1, of_Z 0, of_Z 0), (of_Z 0, of_Z 1, of_Z 0),
   ((v0 L / n)%num, (v1 L / n)%num, (v2 L / n)%num)).

Fixpoint interp1 (xp fp : list float) (v : float) : float :=
  match xp, fp with
  | x0 :: ((x1 :: _) as xp'), f0 :: ((f1 :: _) as fp') =>
      if leb v x1 then (f0 + (v - x0) * ((f1 - f0) / (x1 - x0)))%num
      else interp1 xp' fp' v
  | _, _ => of_Z 0
  end.

Definition interp (v xp fp : list float) : list float :=
  map (fun e => match xp with
                | x0 :: _ => if ltb e x0 then of_Z 0 else interp1 xp fp e
                | [] => of_Z 0
                end) v.

Definition amax (a : list float) : option float :=
  match a with
  | [] => None
  | v :: a' => Some (fold_left (fun m e => if ltb m e then e else m) a' v)
  end.

#[global] Instance collaborators : Collaborators float Z := {|
  rng_permutation := permutation;
  rng_uniform := uniform1;
  rng_normal := normal1;
  Orientation := orientation;
  in_cgs := fun v => (v * of_Z 100000)%num;
  clight := of_Z 29979245800;
  PhotonList.interp := interp;
  PhotonList.amax := amax;
  rad2deg := fun v => (v * (of_Z 180 / 0x1.921fb54442d18p+1%float))%num;
  detect_events := fun _ eobs g => (map (fun _ => true) eobs, lcg g)
|}.

Definition tenth (n : Z) : float := (of_Z n / of_Z 10)%num.

Definition sample_photons : Photons float := {|
  ph_x := map of_Z [-4; -3; -2; -1; 0; 1; 2; 3; 4; 5];
  ph_y := map of_Z [5; 4; 3; 2; 1; 0; -1; -2; -3; -4];
  ph_z := map of_Z [0; 1; 0; -1; 0; 1; 0; -1; 0; 1];
  ph_dx := repeat (of_Z 1) 10;
  ph_vx := repeat (of_Z 0) 10;
  ph_vy := repeat (of_Z 0) 10;
  ph_vz := map of_Z [300; -300; 1000; -1000; 0; 150; -150; 2000; -2000; 500];
  NumberOfPhotons := repeat 10 10;
  Energy := map tenth (Np.arange 100)
|}.

Definition sample_parameters : Parameters float := {|
  FiducialExposureTime := of_Z 100000;
  FiducialArea := of_Z 1000;
  FiducialRedshift := (of_Z 5 / of_Z 100)%num;
  FiducialAngularDiameterDistance := of_Z 200;
  Dimension := 16;
  Width := of_Z 16;
  DataType := "cells";
  HubbleConstant := tenth 7;
  OmegaMatter := tenth 3;
  OmegaLambda := tenth 7
|}.

(** A stand-in for [cosmo.angular_diameter_distance(z1, z2)]: the
    low-redshift law [D_A = (c/H0) z / (1+z)], in Mpc, with [c/H0 = 4283]. *)
Definition sample_cosmo (z1 z2 : float) : float :=
  (of_Z 4283 * (z2 - z1) / (of_Z 1 + z2))%num.

Definition sample : t float :=
  __init__ sample_photons sample_parameters sample_cosmo.

Definition start (seed : Z) : world float Z :=
  {| self := sample; prng := seed; draws := []; log := [] |}.

(** [project_photons("z", no_shifting=flag)] with every other argument at
    its default. *)
Definition plain (flag : bool) : args float := {|
  normal := NormalAxis "z";
  area_new := None;
  exp_time_new := None;
  redshift_new := None;
  dist_new := None;
  absorb_model := None;
  sky_center := None;
  no_shifting := flag;
  north_vector := None
|}.

Definition with_area (v : Z) (a : args float) : args float := {|
  normal := normal a;
  area_new := Some (AreaValue (of_Z v));
  exp_time_new := exp_time_new a;
  redshift_new := redshift_new a;
  dist_new := dist_new a;
  absorb_model := absorb_model a;
  sky_center := sky_center a;
  no_shifting := no_shifting a;
  north_vector := north_vector a
|}.

(** [project_photons("z", area_new=area, redshift_new=z, no_shifting=True)]. *)
Definition request (area z : float) : args float := {|
  normal := NormalAxis "z";
  area_new := Some (AreaValue area);
  exp_time_new := None;
  redshift_new := Some z;
  dist_new := None;
  absorb_model := None;
  sky_center := None;
  no_shifting := true;
  north_vector := None
|}.

Definition with_redshift_and_dist (zn d : float) (a : args float) : args float := {|
  normal := normal a;
  area_new := area_new a;
  exp_time_new := exp_time_new a;
  redshift_new := Some zn;
  dist_new := Some d;
  absorb_model := absorb_model a;
  sky_center := sky_center a;
  no_shifting := no_shifting a;
  north_vector := north_vector a
|}.

(** The request [a] along another axis. *)
Definition with_normal (s : string) (a : args float) : args float := {|
  normal := NormalAxis s;
  area_new := area_new a;
  exp_time_new := exp_time_new a;
  redshift_new := redshift_new a;
  dist_new := dist_new a;
  absorb_model := absorb_model a;
  sky_center := sky_center a;
  no_shifting := no_shifting a;
  north_vector := north_vector a
|}.



(** A stand-in for the constructor [Cosmology] of [yt]. *)
Definition cosmology (h omega_matter omega_lambda : float)
    : float -> float -> float :=
  sample_cosmo.

(** The files after [sample.write_h5_file("photons.h5")] in an empty
    directory. *)
Definition files : H5.fs float :=
  snd (write_h5_file sample "photons.h5" []).

(** A group of one of the [files]. *)
Definition group_at (name group_name : string) : H5.group float :=
  match Dict.get files name with
  | Some f =>
      match Dict.get f group_name with
      | Some (H5.Group g) => g
      | _ => []
      end
  | None => []
  end.

(** A stand-in for [validate_parameters] that accepts every file. *)
Definition accept (first : H5.group float) (second : H5.node float)
    (skip : list string) : exn + unit :=
  inr tt.

(** An old photon file: the datasets of [photons.h5], all at the root. *)
Definition old_photons : H5.file float :=
  List.concat
    (map (fun kv : string * H5.node float =>
            match snd kv with
            | H5.Group g => map (fun d => (fst d, H5.Dataset (snd d))) g
            | H5.Dataset _ => []
            end)
         (match Dict.get files "photons.h5" with
          | Some f => f
          | None => []
          end)).

(** A directory with the old file and with a file of neither kind. *)
Definition old_files : H5.fs float :=
  [("old.h5", old_photons);
   ("notes.h5", [("notes", H5.Dataset (H5.Str "none"))])]%string.

(** A stand-in for [wcs_pix2world]: the linear part of the tangent-plane
    projection about the reference pixel. *)
Definition pix2world (w : EventList.WCS float) (x y : list float)
    : list float * list float :=
let at_ (i : Z) (a : list float) : float :=
  match Np.item a i with Some v => v | None => of_Z 0 end in
(map (fun v => (at_ 0 (EventList.crval w)
                + (v - at_ 0 (EventList.crpix w)) * at_ 0 (EventList.cdelt w))%num) x,
 map (fun v => (at_ 1 (EventList.crval w)
                + (v - at_ 1 (EventList.crpix w)) * at_ 1 (EventList.cdelt w))%num) y).

Local Open Scope string_scope.

Section Detector.

Context {num : Type} `{Scalar num}.

(** The parameters of a 3 x 3 pixel detector. *)
Definition detector : Dict.dict (EventList.pvalue num) :=
[("ExposureTime", EventList.PNum (of_Z 100000));
 ("Area", EventList.PNum (of_Z 1000));
 ("Redshift", EventList.PNum (of_Z 5 / of_Z 100)%num);
 ("AngularDiameterDistance", EventList.PNum (of_Z 200));
 ("sky_center", EventList.PArr [of_Z 30; of_Z 45]);
 ("pix_center", EventList.PArr [of_Z 2; of_Z 2]);
 ("dtheta", EventList.PNum (of_Z 1 / of_Z 100)%num)].

Definition detector_wcs : EventList.WCS num := {|
  EventList.crpix := [of_Z 2; of_Z 2];
  EventList.crval := [of_Z 30; of_Z 45];
  EventList.cdelt := [(- (of_Z 1 / of_Z 100))%num; (of_Z 1 / of_Z 100)%num];
  EventList.ctype := ["RA---TAN"; "DEC--TAN"]%string;
  EventList.cunit := ["deg"; "deg"]%string
|}.

(** [EventList(events, detector)] for events that hold ["xpix"]. *)
Definition event_list (events : Dict.dict (list num)) : EventList.t num := {|
  EventList.events := events;
  EventList.parameters := detector;
  EventList.num_events :=
    match Dict.get events "xpix" with
    | Some v => List.length v
    | None => 0%nat
    end;
  EventList.wcs := detector_wcs
|}.

(** Two events with energies 3 and 6: one inside the 3 x 3 grid, one at
    pixel (100, 2) outside of it. *)
Definition off_grid : EventList.t num :=
event_list [("xpix", [of_Z 1; of_Z 100]); ("ypix", [of_Z 2; of_Z 2]);
            ("eobs", [of_Z 3; of_Z 6])].

End Detector.

(** A stand-in for [pyregion]: the region ["box"] holds the pixels with
    [x <= 10], and no other string is a region. *)
Definition get_filter (region : string) (w : EventList.WCS float)
    : exn + float :=
  if String.eqb region "box" then inr (of_Z 10)
  else inl (ValueError "not a region").

Definition inside_x_y (bound : float) (x y : list float) : exn + list bool :=
  inr (map (fun v => leb v bound) x).

(** One event at pixel (1, 2) with energy 3. *)
Definition left : EventList.t float :=
event_list [("xpix", [of_Z 1]); ("ypix", [of_Z 2]); ("eobs", [of_Z 3])].

(** One event at pixel (4, 5) with energy 6, in the key order of [left]. *)
Definition right : EventList.t float :=
event_list [("xpix", [of_Z 4]); ("ypix", [of_Z 5]); ("eobs", [of_Z 6])].

(** The same event with its dictionary in another iteration order. *)
Definition right_reordered : EventList.t float :=
event_list [("eobs", [of_Z 6]); ("xpix", [of_Z 4]); ("ypix", [of_Z 5])].

End Demo.

(** * Properties *)

Unset Implicit Arguments.

(** ** The monad *)

Section MonadFacts.

Import Monad.
Context {W : Type}.

Lemma bind_inr {A B} (c : M W A) (k : A -> M W B) w b w' :
  bind c k w = (inr b, w') ->
  exists a w1, c w = (inr a, w1) /\ k a w1 = (inr b, w').
Proof.
  unfold bind. destruct (c w) as [[e | a] w1]; intros E.
  - discriminate.
  - exists a, w1. split; [reflexivity | exact E].
Qed.

Lemma bind_inl {A B} (c : M W A) (k : A -> M W B) w e w' :
  bind c k w = (inl e, w') ->
  c w = (inl e, w') \/ exists a w1, c w = (inr a, w1) /\ k a w1 = (inl e, w').
Proof.
  unfold bind. destruct (c w) as [[e1 | a] w1]; intros E.
  - left. inversion E; subst. reflexivity.
  - right. exists a, w1. split; [reflexivity | exact E].
Qed.

Lemma bind_step {A B} (c : M W A) (k : A -> M W B) w a w1 :
  c w = (inr a, w1) -> bind c k w = k a w1.
Proof. unfold bind. intros ->. reflexivity. Qed.

Lemma lift_opt_inr {A} e (o : option A) (w : W) a w' :
  lift_opt e o w = (inr a, w') -> o = Some a /\ w' = w.
Proof.
  destruct o as [v |]; cbn; intros E; inversion E; subst; auto.
Qed.

End MonadFacts.

(** ** The cumulative index and the owner of a photon *)

Section Searchsorted.

Context {A : Type} (lt : A -> A -> bool) (a : list A) (key : A).

Hypothesis above_mono :
  forall i j, (i <= j)%nat -> Np.above lt a key i = true -> Np.above lt a key j = true.

Lemma binsearch_right_step fuel lo hi :
  Np.binsearch_right lt a key (S fuel) lo hi =
  if (lo <? hi)%nat then
    match nth_error a (lo + (hi - lo) / 2) with
    | Some v =>
        if lt key v then Np.binsearch_right lt a key fuel lo (lo + (hi - lo) / 2)
        else Np.binsearch_right lt a key fuel (S (lo + (hi - lo) / 2)) hi
    | None => lo
    end
  else lo.
Proof. reflexivity. Qed.

Lemma binsearch_right_spec fuel : forall lo hi,
  (hi - lo <= fuel)%nat -> (lo <= hi <= List.length a)%nat ->
  (forall i, (i < lo)%nat -> Np.above lt a key i = false) ->
  (forall i, (hi <= i)%nat -> Np.above lt a key i = true) ->
  (lo <= Np.binsearch_right lt a key fuel lo hi <= hi)%nat
  /\ (forall i, (i < Np.binsearch_right lt a key fuel lo hi)%nat -> Np.above lt a key i = false)
  /\ (forall i, (Np.binsearch_right lt a key fuel lo hi <= i)%nat -> Np.above lt a key i = true).
Proof.
  induction fuel as [| fuel IH]; intros lo hi Hf Hb Hlo Hhi.
  - cbn. assert (lo = hi) by lia. subst. repeat split; auto; lia.
  - rewrite binsearch_right_step.
    destruct (Nat.ltb_spec lo hi) as [Hlt | Hge].
    2:{ assert (lo = hi) by lia. subst. repeat split; auto; lia. }
    set (mid := (lo + (hi - lo) / 2)%nat).
    assert (Hmid : (lo <= mid < hi)%nat).
    { unfold mid.
      assert ((hi - lo) / 2 < hi - lo)%nat by (apply Nat.div_lt; lia). lia. }
    destruct (nth_error a mid) as [v |] eqn:Ev.
    2:{ apply nth_error_None in Ev. lia. }
    destruct (lt key v) eqn:Ek.
    + destruct (IH lo mid) as (R1 & R2 & R3); try lia; auto.
      * intros i Hi. apply (above_mono mid i); [exact Hi |].
        unfold Np.above. rewrite Ev. exact Ek.
      * repeat split; auto; lia.
    + destruct (IH (S mid) hi) as (R1 & R2 & R3); try lia; auto.
      * intros i Hi. destruct (Np.above lt a key i) eqn:Ei; [| reflexivity].
        assert (Hm : Np.above lt a key mid = true) by (apply (above_mono i mid); [lia | exact Ei]).
        unfold Np.above in Hm. rewrite Ev in Hm. congruence.
      * repeat split; auto; lia.
Qed.

Lemma searchsorted_right_spec :
  (Np.searchsorted_right lt a key <= List.length a)%nat
  /\ (forall i, (i < Np.searchsorted_right lt a key)%nat -> Np.above lt a key i = false)
  /\ (forall i, (Np.searchsorted_right lt a key <= i)%nat -> Np.above lt a key i = true).
Proof.
  unfold Np.searchsorted_right.
  destruct (binsearch_right_spec (List.length a) 0 (List.length a))
    as (R1 & R2 & R3); try lia.
  - intros i Hi. unfold Np.above.
    rewrite (proj2 (nth_error_None a i)); [reflexivity | lia].
  - repeat split; auto; lia.
Qed.

End Searchsorted.

Section CumulativeIndex.

Lemma total_cons c counts : Np.total (c :: counts) = c + Np.total counts.
Proof. reflexivity. Qed.

Lemma total_nonneg counts :
  Forall (fun c => 0 <= c) counts -> 0 <= Np.total counts.
Proof.
  induction 1 as [| c counts Hc _ IH]; [cbn; lia |].
  rewrite total_cons. lia.
Qed.

Lemma Forall_nonneg_firstn counts : forall i,
  Forall (fun c => 0 <= c) counts -> Forall (fun c => 0 <= c) (firstn i counts).
Proof.
  induction counts as [| c counts IH]; intros [| i] Hc; cbn; auto.
  inversion Hc; subst. constructor; auto.
Qed.

Lemma total_firstn_mono counts : forall i j,
  Forall (fun c => 0 <= c) counts -> (i <= j)%nat ->
  Np.total (firstn i counts) <= Np.total (firstn j counts).
Proof.
  induction counts as [| c counts IH]; intros i j Hc Hij.
  - rewrite !firstn_nil. lia.
  - inversion Hc as [| ? ? Hc1 Hc2]; subst.
    destruct i as [| i], j as [| j]; try lia.
    + rewrite firstn_cons, total_cons. cbn [firstn].
      pose proof (total_nonneg (firstn j counts) (Forall_nonneg_firstn _ j Hc2)).
      cbn [Np.total fold_right]. lia.
    + rewrite !firstn_cons, !total_cons.
      specialize (IH i j Hc2). lia.
Qed.

Lemma wrap64_small z : 0 <= z < 2 ^ 64 -> Np.wrap64 z = z.
Proof.
  intros Hz. unfold Np.wrap64, Np.uint64_modulus. apply Z.mod_small. exact Hz.
Qed.

Lemma sum_from_no_wrap counts : forall acc,
  Forall (fun c => 0 <= c) counts -> 0 <= acc -> acc + Np.total counts < 2 ^ 64 ->
  fold_left (fun s v => Np.wrap64 (s + v)) counts acc = acc + Np.total counts.
Proof.
  induction counts as [| c counts IH]; intros acc Hc Ha Hs.
  - cbn. lia.
  - inversion Hc as [| ? ? Hc1 Hc2]; subst.
    pose proof (total_nonneg _ Hc2) as Hn.
    rewrite total_cons in *. cbn [fold_left].
    rewrite wrap64_small by lia. rewrite IH by (auto; lia). lia.
Qed.

Lemma sum_no_wrap counts :
  Forall (fun c => 0 <= c) counts -> Np.total counts < 2 ^ 64 ->
  Np.sum counts = Np.total counts.
Proof.
  intros Hc Hs. unfold Np.sum. rewrite sum_from_no_wrap; auto; lia.
Qed.

Lemma cumsum_from_length counts : forall acc,
  List.length (Np.cumsum_from acc counts) = List.length counts.
Proof. induction counts; intros; cbn; auto. Qed.

Lemma cumsum_from_nth counts : forall acc i,
  Forall (fun c => 0 <= c) counts -> 0 <= acc -> acc + Np.total counts < 2 ^ 64 ->
  (i < List.length counts)%nat ->
  nth_error (Np.cumsum_from acc counts) i
  = Some (acc + Np.total (firstn (S i) counts)).
Proof.
  induction counts as [| c counts IH]; intros acc i Hc Ha Hs Hi.
  - cbn in Hi. lia.
  - inversion Hc as [| ? ? Hc1 Hc2]; subst.
    pose proof (total_nonneg _ Hc2) as Hn.
    rewrite total_cons in Hs. cbn [Np.cumsum_from].
    rewrite wrap64_small by lia.
    rewrite firstn_cons, total_cons.
    destruct i as [| i]; cbn [nth_error].
    + cbn. f_equal. lia.
    + cbn in Hi. rewrite IH by (auto; lia). f_equal. lia.
Qed.

(** Without overflow, entry [i] of [p_bins] is the number of photons of
    the cells before [i]. *)
Lemma p_bins_nth counts i :
  Forall (fun c => 0 <= c) counts -> Np.total counts < 2 ^ 64 ->
  (i <= List.length counts)%nat ->
  nth_error (Np.insert0 (Np.cumsum counts) 0) i
  = Some (Np.total (firstn i counts)).
Proof.
  intros Hc Hs Hi. unfold Np.insert0, Np.cumsum.
  destruct i as [| i]; cbn [nth_error]; [reflexivity |].
  rewrite cumsum_from_nth by (auto; lia). reflexivity.
Qed.

Lemma p_bins_length counts :
  List.length (Np.insert0 (Np.cumsum counts) 0) = S (List.length counts).
Proof.
  unfold Np.insert0, Np.cumsum. cbn [List.length].
  rewrite cumsum_from_length. reflexivity.
Qed.

End CumulativeIndex.

Section Owner.

Variable counts : list Z.
Hypothesis counts_nonneg : Forall (fun c => 0 <= c) counts.
Hypothesis counts_fit : Np.total counts < 2 ^ 64.

Let bins := Np.insert0 (Np.cumsum counts) 0.

Lemma bins_above_mono j : forall i i',
  (i <= i')%nat ->
  Np.above Z.ltb bins j i = true -> Np.above Z.ltb bins j i' = true.
Proof.
  intros i i' Hi. unfold Np.above.
  destruct (Nat.le_gt_cases i' (List.length counts)) as [Hin | Hout].
  - unfold bins. rewrite !p_bins_nth by (auto; lia).
    pose proof (total_firstn_mono counts i i' counts_nonneg Hi). lia.
  - rewrite (proj2 (nth_error_None bins i')); [reflexivity |].
    unfold bins. rewrite p_bins_length. lia.
Qed.

Lemma item_nat {A} (a : list A) (i : nat) :
  (i < List.length a)%nat -> Np.item a (Z.of_nat i) = nth_error a i.
Proof.
  intros Hi. unfold Np.item.
  destruct (Z.leb_spec 0 (Z.of_nat i)); [| lia].
  destruct (Z.ltb_spec (Z.of_nat i) (Z.of_nat (List.length a))); [| lia].
  cbn. rewrite Nat2Z.id. reflexivity.
Qed.

(** The owner of photon [j] is a cell whose range of indices holds [j]. *)
Lemma owner_range j :
  0 <= j < Np.total counts ->
  exists o : nat,
    PhotonList.owner bins j = Z.of_nat o
    /\ (o < List.length counts)%nat
    /\ Np.total (firstn o counts) <= j < Np.total (firstn (S o) counts).
Proof.
  intros Hj. unfold PhotonList.owner.
  destruct (searchsorted_right_spec Z.ltb bins j (bins_above_mono j))
    as (R1 & R2 & R3).
  set (r := Np.searchsorted_right Z.ltb bins j) in *.
  assert (Hr1 : (1 <= r)%nat).
  { destruct r as [| r]; [| lia].
    specialize (R3 0%nat (Nat.le_refl _)). unfold Np.above in R3.
    unfold bins in R3. cbn in R3. lia. }
  assert (Hr2 : (r <= List.length counts)%nat).
  { destruct (Nat.le_gt_cases r (List.length counts)) as [| Hgt]; [assumption |].
    specialize (R2 (List.length counts) Hgt). unfold Np.above in R2.
    unfold bins in R2. rewrite p_bins_nth in R2 by (auto; lia).
    rewrite firstn_all in R2. lia. }
  exists (r - 1)%nat. split; [lia |]. split; [lia |].
  assert (Hlo := R2 (r - 1)%nat ltac:(lia)).
  assert (Hhi := R3 r (Nat.le_refl _)).
  unfold Np.above, bins in Hlo, Hhi.
  rewrite p_bins_nth in Hlo by (auto; lia).
  rewrite p_bins_nth in Hhi by (auto; lia).
  replace (S (r - 1)) with r by lia. lia.
Qed.

End Owner.

(** C4. The cumulative index [p_bins] that [PhotonList.__init__] builds
    starts at 0, never decreases and holds the total photon count at
    [num_cells]; and the owner of every photon index [j] in [0, total), the
    right-side binary search minus one, is a cell [o] with
    [p_bins[o] <= j < p_bins[o+1]]. The counts are non-negative, their sum
    fits in a [uint64] and there is one count per cell. *)
Theorem C4_cumulative_index {num : Type}
    (ph : PhotonList.Photons num) (par : PhotonList.Parameters num)
    (cosmo : num -> num -> num) :
  let pl := PhotonList.__init__ ph par cosmo in
  let counts := PhotonList.NumberOfPhotons ph in
  Forall (fun c => 0 <= c) counts ->
  Np.total counts < 2 ^ 64 ->
  List.length (PhotonList.ph_x ph) = List.length counts ->
  Np.item (PhotonList.p_bins pl) 0 = Some 0
  /\ (forall i i' u v,
        (i <= i')%nat ->
        nth_error (PhotonList.p_bins pl) i = Some u ->
        nth_error (PhotonList.p_bins pl) i' = Some v ->
        u <= v)
  /\ Np.item (PhotonList.p_bins pl) (Z.of_nat (PhotonList.num_cells pl))
     = Some (Np.sum counts)
  /\ (forall j,
        0 <= j < Np.sum counts ->
        let o := PhotonList.owner (PhotonList.p_bins pl) j in
        0 <= o < Z.of_nat (PhotonList.num_cells pl)
        /\ exists lo hi,
             Np.item (PhotonList.p_bins pl) o = Some lo
             /\ Np.item (PhotonList.p_bins pl) (o + 1) = Some hi
             /\ lo <= j < hi).
Proof.
  intros pl counts Hc Hs Hlen.
  assert (Hbins : PhotonList.p_bins pl = Np.insert0 (Np.cumsum counts) 0) by reflexivity.
  assert (Hcells : PhotonList.num_cells pl = List.length counts) by exact Hlen.
  rewrite Hbins, Hcells. rewrite (sum_no_wrap counts Hc Hs).
  split; [reflexivity |]. split; [| split].
  - intros i i' u v Hi Hu Hv.
    assert (Hi' : (i' <= List.length counts)%nat).
    { assert (i' < List.length (Np.insert0 (Np.cumsum counts) 0%Z))%nat
        by (apply nth_error_Some; congruence).
      rewrite p_bins_length in *. lia. }
    rewrite p_bins_nth in Hu, Hv by (auto; lia).
    inversion Hu; inversion Hv; subst.
    apply total_firstn_mono; assumption.
  - rewrite item_nat by (rewrite p_bins_length; lia).
    rewrite p_bins_nth by (auto; lia). rewrite firstn_all. reflexivity.
  - intros j Hj o.
    destruct (owner_range counts Hc Hs j Hj) as (k & Ek & Hk & Hr).
    subst o. rewrite Ek. split; [lia |].
    exists (Np.total (firstn k counts)), (Np.total (firstn (S k) counts)).
    replace (Z.of_nat k + 1) with (Z.of_nat (S k)) by lia.
    rewrite !item_nat by (rewrite p_bins_length; lia).
    rewrite !p_bins_nth by (auto; lia). auto.
Qed.

Lemma C4_cumulative_index_witness :
  Np.item (PhotonList.p_bins Demo.sample) 0 = Some 0
  /\ Np.item (PhotonList.p_bins Demo.sample) 10 = Some 100
  /\ PhotonList.owner (PhotonList.p_bins Demo.sample) 37 = 3.
Proof.
  destruct (C4_cumulative_index Demo.sample_photons Demo.sample_parameters
              Demo.sample_cosmo) as (H0 & _ & Hn & Ho).
  - cbn. repeat constructor; lia.
  - cbn. lia.
  - reflexivity.
  - split; [exact H0 |]. split; [exact Hn |]. reflexivity.
Defined.

(** ** The order laws at the two instances *)

Lemma SFleb_not_ltb a b : SFleb a b = true -> SFltb b a = false.
Proof.
  unfold SFleb, SFltb.
  destruct a as [sa | sa | | sa ma ea], b as [sb | sb | | sb mb eb]; cbn;
    try congruence;
    try (destruct sa; try destruct sb; cbn; congruence);
    try (destruct sb; cbn; congruence).
  destruct sa, sb; cbn; try congruence.
  - rewrite (Z.compare_antisym ea eb). destruct (ea ?= eb); cbn; try congruence.
    change Eq with (CompOpp Eq) at 2.
    rewrite <- (Pos.compare_cont_antisym ma mb Eq).
    destruct (Pos.compare_cont Eq ma mb); cbn; congruence.
  - rewrite (Z.compare_antisym ea eb). destruct (ea ?= eb); cbn; try congruence.
    change Eq with (CompOpp Eq) at 2.
    rewrite <- (Pos.compare_cont_antisym ma mb Eq).
    destruct (Pos.compare_cont Eq ma mb); cbn; congruence.
Qed.

Lemma magnitude_nonneg m e : 0 <= F64.magnitude m e.
Proof.
  unfold F64.magnitude. destruct (0 <=? e) eqn:E.
  - apply Z.leb_le in E. apply Z.mul_nonneg_nonneg; [lia |].
    apply Z.pow_nonneg. lia.
  - apply Z.div_pos; [lia |]. apply Z.pow_pos_nonneg; [lia |].
    apply Z.leb_gt in E. lia.
Qed.

Lemma float_laws : ScalarLaws float.
Proof.
  split.
  - intros x y. unfold gtb. cbn. rewrite leb_spec, ltb_spec. apply SFleb_not_ltb.
  - intros x k. cbn. rewrite leb_spec.
    unfold F64.floor, F64.trunc.
    replace (Prim2SF (F64.of_Z 0)) with (S754_zero false) by (vm_compute; reflexivity).
    destruct (Prim2SF x) as [s | s | | s m e]; cbn; try discriminate.
    + intros _ E. inversion E. split; [reflexivity | lia].
    + unfold SFleb. cbn. destruct s; cbn; [discriminate |].
      intros _ E. inversion E. split; [reflexivity | apply magnitude_nonneg].
Qed.

Lemma Q_laws : ScalarLaws Q.
Proof.
  split.
  - intros x y. unfold gtb. cbn. unfold Rat.ltb. intros ->. reflexivity.
  - intros x k. cbn. unfold Rat.floor, Rat.trunc. intros Hx E.
    inversion E as [Ek]. apply Qle_bool_iff in Hx.
    assert (Hn : 0 <= Qnum x).
    { unfold Qle in Hx. cbn in Hx. lia. }
    unfold Qfloor. destruct x as [n d]. cbn in *.
    rewrite Z.quot_div_nonneg by lia. split; [reflexivity |].
    apply Z.div_pos; lia.
Qed.

(** ** Rescaling *)

Section Rescaling.

Import PhotonList Monad.
Context {num G : Type} `{Scalar num}.

Local Notation "'W'" := (world num G).

Lemma mylog_run l msg (w : world num G) :
  exists w', mylog l msg w = (inr tt, w')
             /\ self w' = self w /\ prng w' = prng w /\ draws w' = draws w.
Proof. eexists. split; [reflexivity |]. cbn. auto. Qed.

Lemma area_effects_run (a : args num) (w : world num G) :
  exists p w', area_effects a w = (inr p, w')
               /\ self w' = self w /\ prng w' = prng w /\ draws w' = draws w.
Proof.
  unfold area_effects. destruct (area_new a) as [[v | f] |].
  - eexists _, _. split; [reflexivity |]. cbn. auto.
  - eexists _, _. split; [reflexivity |]. cbn. auto.
  - eexists _, _. split; [reflexivity |]. cbn. auto.
Qed.

(** With an override and a fraction above one, the rescaling raises and
    touches neither the photon list nor the generator. *)
Lemma rescale_budget (a : args num) n (w : world num G) :
  no_override a = false ->
  gtb (fak (self w) a) one = true ->
  exists w', rescale a n w = (inl (ValueError budget_message), w')
             /\ self w' = self w /\ prng w' = prng w /\ draws w' = draws w.
Proof.
  intros Hno Hgt. unfold rescale.
  rewrite (bind_step _ _ w (self w) w) by reflexivity.
  rewrite Hno.
  destruct (area_effects_run a w) as (p & w1 & E1 & Hs & Hp & Hd).
  rewrite (bind_step _ _ _ _ _ E1). rewrite Hgt.
  exists w1. split; [reflexivity | auto].
Qed.


Lemma rescale_plain (a : args num) n (w : world num G) :
  no_override a = true ->
  exists r, rescale a n w = (inr r, w)
    /\ my_n_obs r = n
    /\ scale_factor r = scale_factor_of (self w) a.
Proof.
  intros Hno. unfold rescale.
  rewrite (bind_step _ _ w (self w) w) by reflexivity.
  rewrite Hno. eexists. split; [reflexivity |]. cbn. split; [reflexivity |].
  unfold scale_factor_of, no_override in *.
  destruct (exp_time_new a), (area_new a), (redshift_new a), (dist_new a);
    try discriminate; reflexivity.
Qed.

(** The rescaling raises the budget error only above one. *)
Lemma rescale_quiet (a : args num) n (w : world num G) e w' :
  (no_override a = false -> gtb (fak (self w) a) one = false) ->
  rescale a n w = (inl e, w') -> e = UndefinedCast.
Proof.
  intros Hle. unfold rescale.
  rewrite (bind_step _ _ w (self w) w) by reflexivity.
  destruct (no_override a) eqn:Hno; [discriminate |].
  destruct (area_effects_run a w) as (p & w1 & E1 & _).
  rewrite (bind_step _ _ _ _ _ E1). rewrite (Hle eq_refl).
  destruct (uint64 _); cbn; intros E; inversion E; reflexivity.
Qed.

End Rescaling.

(** ** Exceptions of the pipeline *)

Section NeverRaises.

Import Monad.
Context {W : Type} (e : exn).

Lemma nr_ret {A} (a : A) : never_raises (W := W) e (ret a).
Proof. intros w e' w' E. discriminate. Qed.

Lemma nr_gets {A} (f : W -> A) : never_raises e (gets f).
Proof. intros w e' w' E. discriminate. Qed.

Lemma nr_modify (f : W -> W) : never_raises e (modify f).
Proof. intros w e' w' E. discriminate. Qed.

Lemma nr_raise {A} e0 : e0 <> e -> never_raises (W := W) (A := A) e (raise e0).
Proof. intros Hne w e' w' E. inversion E; subst. exact Hne. Qed.

Lemma nr_lift_opt {A} e0 (o : option A) :
  e0 <> e -> never_raises (W := W) e (lift_opt e0 o).
Proof.
  intros Hne. destruct o; [apply nr_ret | apply nr_raise; exact Hne].
Qed.

Lemma nr_lift {A} (r : exn + A) :
  (forall e', r = inl e' -> e' <> e) -> never_raises (W := W) e (lift r).
Proof. intros Hr w e' w' E. inversion E; subst. apply Hr. reflexivity. Qed.

Lemma nr_bind {A B} (c : M W A) (k : A -> M W B) :
  never_raises e c -> (forall a, never_raises e (k a)) ->
  never_raises e (bind c k).
Proof.
  intros Hc Hk w e' w' E. apply bind_inl in E as [E | (a & w1 & _ & E)].
  - exact (Hc _ _ _ E).
  - exact (Hk _ _ _ _ E).
Qed.

(** A computation that always returns. *)
Lemma nr_total {A} (c : M W A) :
  (forall w, exists a w', c w = (inr a, w')) -> never_raises e c.
Proof.
  intros Hc w e' w' E. destruct (Hc w) as (a & w1 & E1). congruence.
Qed.

End NeverRaises.

Ltac exn_ne :=
  first [ discriminate
        | unfold PhotonList.budget_message, PhotonList.shape_error; discriminate ].

Ltac nr_step :=
  lazymatch goal with
  | |- Monad.never_raises _ (Monad.bind _ _) => apply nr_bind; [| intros ?]
  | |- Monad.never_raises _ (Monad.ret _) => apply nr_ret
  | |- Monad.never_raises _ (Monad.gets _) => apply nr_gets
  | |- Monad.never_raises _ (Monad.modify _) => apply nr_modify
  | |- Monad.never_raises _ (Monad.lift_opt _ _) =>
      apply nr_lift_opt; exn_ne
  | |- Monad.never_raises _ (Monad.raise _) => apply nr_raise; exn_ne
  | |- Monad.never_raises _ (if ?b then _ else _) => destruct b
  | |- Monad.never_raises _ (match ?x with _ => _ end) => destruct x
  end.

Section PipelineExceptions.

Import PhotonList Monad.
Context {num G : Type} `{Scalar num} `{Sqrt num} `{Collaborators num G}.

Local Notation "'budget'" := (ValueError budget_message).

Lemma nr_mylog l msg : never_raises (W := world num G) budget (mylog l msg).
Proof. apply nr_modify. Qed.

Lemma nr_prng_permutation n :
  never_raises (W := world num G) budget (prng_permutation n).
Proof.
  apply nr_total. intros w. unfold prng_permutation.
  destruct (rng_permutation n (prng w)). eauto.
Qed.

Lemma nr_prng_uniform lo hi n :
  never_raises (W := world num G) budget (prng_uniform lo hi n).
Proof.
  apply nr_total. intros w. unfold prng_uniform.
  destruct (draw_n _ n (prng w)). eauto.
Qed.

Lemma nr_prng_normal lo hi n :
  never_raises (W := world num G) budget (prng_normal lo hi n).
Proof.
  apply nr_total. intros w. unfold prng_normal.
  destruct (draw_n _ n (prng w)). eauto.
Qed.

Lemma nr_detect f eobs :
  never_raises (W := world num G) budget (arf_detect_events f eobs).
Proof.
  apply nr_total. intros w. unfold arf_detect_events.
  destruct (detect_events f eobs (prng w)). eauto.
Qed.

Lemma nr_init ev p :
  forall e', EventList.__init__ (num := num) ev p = inl e' -> e' <> budget.
Proof.
  intros e'. unfold EventList.__init__, EventList.ebind, EventList.lookup,
    EventList.as_arr, EventList.as_num.
  destruct (Dict.get ev "xpix"); [| intros E; inversion E; exn_ne].
  destruct (Dict.get p "pix_center") as [[? | ? | ?] |];
    try (intros E; inversion E; exn_ne).
  destruct (Dict.get p "sky_center") as [[? | ? | ?] |];
    try (intros E; inversion E; exn_ne).
  destruct (Dict.get p "dtheta") as [[? | ? | ?] |];
    try (intros E; inversion E; exn_ne).
Qed.

Ltac nr_auto :=
  repeat first
    [ apply nr_mylog | apply nr_prng_permutation | apply nr_prng_uniform
    | apply nr_prng_normal | apply nr_detect
    | apply nr_lift; apply nr_init
    | nr_step ].

Lemma nr_select_indices k n :
  never_raises (W := world num G) budget (select_indices k n).
Proof. unfold select_indices. nr_auto. Qed.

Lemma nr_offsets dt n :
  never_raises (W := world num G) budget (offsets dt n).
Proof. unfold offsets. nr_auto. Qed.

Lemma nr_gather pl key cells :
  never_raises (W := world num G) budget (gather pl key cells).
Proof. unfold gather. nr_auto. Qed.

Lemma nr_project_axis a pl s n cells delta :
  never_raises (W := world num G) budget (project_axis a pl s n cells delta).
Proof.
  unfold project_axis, shape_error.
  repeat first [apply nr_offsets | apply nr_gather | nr_auto].
Qed.

Lemma nr_project_off_axis a pl xh yh zh n cells delta :
  never_raises (W := world num G) budget
    (project_off_axis a pl xh yh zh n cells delta).
Proof.
  unfold project_off_axis, shape_error.
  repeat first [apply nr_offsets | apply nr_gather | nr_auto].
Qed.

Lemma nr_observed_energies a pl idxs cells vz sf :
  never_raises (W := world num G) budget
    (observed_energies a pl idxs cells vz sf).
Proof. unfold observed_energies, shape_error. nr_auto. Qed.

Lemma nr_absorption a eobs :
  never_raises (W := world num G) budget (absorption a eobs).
Proof. unfold absorption, shape_error. nr_auto. Qed.

Lemma nr_detection r eobs na :
  never_raises (W := world num G) budget (detection r eobs na).
Proof. unfold detection, shape_error. nr_auto. Qed.

End PipelineExceptions.

(** ** The budget check of [project_photons] *)

Section Budget.

Import PhotonList Monad.
Context {num G : Type} `{Scalar num} `{Sqrt num} `{Collaborators num G}.

(** The first statement of [project_photons] only writes to the log. *)
Lemma both_given_run (a : args num) (w : world num G) :
  exists w',
    (match redshift_new a, dist_new a with
     | Some _, Some _ =>
         mylog ERROR "You may specify a new redshift or distance, but not both!"
     | _, _ => ret tt
     end) w = (inr tt, w')
    /\ self w' = self w /\ prng w' = prng w /\ draws w' = draws w.
Proof.
  destruct (redshift_new a), (dist_new a);
    eexists; (split; [reflexivity | cbn; auto]).
Qed.

Lemma project_photons_budget (a : args num) (w : world num G) :
  no_override a = false ->
  gtb (fak (self w) a) one = true ->
  exists w',
    project_photons a w = (inl (ValueError budget_message), w')
    /\ self w' = self w /\ prng w' = prng w /\ draws w' = draws w.
Proof.
  intros Hno Hgt. unfold project_photons.
  destruct (both_given_run a w) as (w1 & E1 & Hs1 & Hp1 & Hd1).
  rewrite (bind_step _ _ _ _ _ E1).
  rewrite (bind_step _ _ w1 (self w1) w1) by reflexivity.
  rewrite <- Hs1 in Hgt.
  destruct (rescale_budget a (Np.sum (NumberOfPhotons (photons (self w1)))) w1 Hno Hgt)
    as (w2 & E2 & Hs2 & Hp2 & Hd2).
  exists w2. split.
  - unfold bind at 1. rewrite E2. reflexivity.
  - repeat split; congruence.
Qed.

Lemma nr_project_selected a pl r sky :
  never_raises (W := world num G) (ValueError budget_message)
    (project_selected a pl r sky).
Proof.
  unfold project_selected.
  apply nr_bind; [apply nr_mylog | intros _].
  apply nr_bind; [apply nr_select_indices | intros idxs].
  apply nr_bind; [nr_step | intros delta].
  apply nr_bind.
  { destruct (normal a) as [s | L].
    - apply nr_project_axis.
    - destruct (Orientation L (north_vector a)) as [[xh yh] zh].
      apply nr_project_off_axis. }
  intros sky_vz.
  apply nr_bind; [apply nr_observed_energies | intros eobs].
  apply nr_bind; [apply nr_absorption | intros not_abs].
  apply nr_bind; [apply nr_detection | intros detected].
  apply nr_bind; [nr_step | intros xs].
  apply nr_bind; [nr_step | intros ys].
  apply nr_bind; [nr_step | intros es].
  apply nr_bind; [apply nr_mylog | intros _].
  apply nr_lift. apply nr_init.
Qed.

Lemma project_photons_quiet (a : args num) (w : world num G) :
  (no_override a = false -> gtb (fak (self w) a) one = false) ->
  forall e w', project_photons a w = (inl e, w') ->
               e <> ValueError budget_message.
Proof.
  intros Hle e w'. unfold project_photons.
  destruct (both_given_run a w) as (w1 & E1 & Hs1 & Hp1 & Hd1).
  rewrite (bind_step _ _ _ _ _ E1).
  rewrite (bind_step _ _ w1 (self w1) w1) by reflexivity.
  rewrite <- Hs1 in Hle.
  intros E. apply bind_inl in E as [E | (r & w2 & _ & E)].
  - apply rescale_quiet in E; [| exact Hle]. subst e. discriminate.
  - exact (nr_project_selected _ _ _ _ _ _ _ E).
Qed.

End Budget.

(** C1. With an override requested and a fraction
    [fak = Aratio * Tratio * Dratio] above one, [project_photons] raises the
    budget [ValueError]: no event list is returned, the generator has not
    been called, and the photon list is the one the call started with. With
    a fraction at most one that error is not raised. *)
Theorem C1_budget_exceeded {num G : Type} `{Scalar num} `{Sqrt num}
    `{PhotonList.Collaborators num G}
    (L : ScalarLaws num) (a : PhotonList.args num) (w : PhotonList.world num G) :
  PhotonList.no_override a = false ->
  (gtb (PhotonList.fak (PhotonList.self w) a) PhotonList.one = true ->
   exists w',
     PhotonList.project_photons a w
     = (inl (ValueError PhotonList.budget_message), w')
     /\ PhotonList.self w' = PhotonList.self w
     /\ PhotonList.prng w' = PhotonList.prng w
     /\ PhotonList.draws w' = PhotonList.draws w)
  /\ (leb (PhotonList.fak (PhotonList.self w) a) PhotonList.one = true ->
      forall e w',
        PhotonList.project_photons a w = (inl e, w') ->
        e <> ValueError PhotonList.budget_message).
Proof.
  intros Hno. split.
  - intros Hgt. apply project_photons_budget; assumption.
  - intros Hle. apply project_photons_quiet.
    intros _. apply (leb_not_gtb L). exact Hle.
Qed.

Lemma C1_budget_exceeded_witness :
  let z := 0x1.eb851eb851eb8p-5%float in
  (exists w',
     PhotonList.project_photons (Demo.request 0x1.79ef40e36bb63p+10%float z)
       (Demo.start 7)
     = (inl (ValueError PhotonList.budget_message), w')
     /\ PhotonList.self w' = Demo.sample
     /\ PhotonList.prng w' = 7
     /\ PhotonList.draws w' = [])
  /\ (forall e w',
        PhotonList.project_photons (Demo.request 0x1.e3c19abcb2d4bp+3%float z)
          (Demo.start 7)
        = (inl e, w') ->
        e <> ValueError PhotonList.budget_message).
Proof.
  intros z. split.
  - apply (proj1 (C1_budget_exceeded float_laws
                    (Demo.request 0x1.79ef40e36bb63p+10%float z) (Demo.start 7)
                    eq_refl)).
    vm_compute. reflexivity.
  - apply (proj2 (C1_budget_exceeded float_laws
                    (Demo.request 0x1.e3c19abcb2d4bp+3%float z) (Demo.start 7)
                    eq_refl)).
    vm_compute. reflexivity.
Defined.



(** ** Index sampling *)

Lemma NoDup_arange n : NoDup (Np.arange n).
Proof.
unfold Np.arange. apply Finite.Injective_map_NoDup.
- intros i j E. apply Nat2Z.inj. exact E.
- apply seq_NoDup.
Qed.

Lemma arange_range n j : In j (Np.arange n) -> 0 <= j < n.
Proof.
unfold Np.arange. intros Hj. apply in_map_iff in Hj as (i & <- & Hi).
apply in_seq in Hi. lia.
Qed.

Lemma arange_length n : List.length (Np.arange n) = Z.to_nat n.
Proof. unfold Np.arange. rewrite length_map, length_seq. reflexivity. Qed.

Lemma NoDup_firstn {A} (l : list A) k : NoDup l -> NoDup (firstn k l).
Proof.
intros Hl. rewrite <- (firstn_skipn k l) in Hl.
exact (NoDup_app_remove_r _ _ Hl).
Qed.

Lemma In_firstn {A} (l : list A) k v : In v (firstn k l) -> In v l.
Proof.
intros Hv. rewrite <- (firstn_skipn k l). apply in_or_app. left. exact Hv.
Qed.

(** The stand-in generator returns a permutation. *)
Lemma demo_permutation n g : Permutation (fst (Demo.permutation n g)) (Np.arange n).
Proof.
unfold Demo.permutation. cbn [fst].
set (k := Z.to_nat _).
rewrite Permutation_app_comm. rewrite firstn_skipn. reflexivity.
Qed.

(** C3. Index sampling in [project_photons]. When [my_n_obs] is the total
    photon count the indices are [0, 1, ..., total-1] in order and the
    generator is not called. When [my_n_obs] is smaller, the indices are the
    first [my_n_obs] entries of the permutation that the generator returns:
    [my_n_obs] distinct values of [0, total). The generator is taken to
    return a permutation of [0, ..., n-1], as [prng.permutation(n)] does. *)
Theorem C3_index_sampling {num G : Type} `{PhotonList.Collaborators num G}
    (my_n_obs total : Z) (w : PhotonList.world num G) :
  (forall n g, Permutation (fst (PhotonList.rng_permutation n g)) (Np.arange n)) ->
  0 <= my_n_obs <= total ->
  (my_n_obs = total ->
   PhotonList.select_indices my_n_obs total w
   = (inr (map Z.of_nat (seq 0 (Z.to_nat total))), w))
  /\ (my_n_obs < total ->
      exists idxs w',
        PhotonList.select_indices my_n_obs total w = (inr idxs, w')
        /\ idxs = firstn (Z.to_nat my_n_obs)
                    (fst (PhotonList.rng_permutation total (PhotonList.prng w)))
        /\ List.length idxs = Z.to_nat my_n_obs
        /\ NoDup idxs
        /\ Forall (fun j => 0 <= j < total) idxs
        /\ PhotonList.draws w'
           = PhotonList.draws w ++ [PhotonList.DrawPermutation total]).
Proof.
intros Hperm Hrange. unfold PhotonList.select_indices. split.
- intros ->. rewrite Z.eqb_refl. reflexivity.
- intros Hlt. destruct (Z.eqb_spec my_n_obs total) as [| _]; [lia |].
  unfold Monad.bind, PhotonList.prng_permutation.
  specialize (Hperm total (PhotonList.prng w)).
  destruct (PhotonList.rng_permutation total (PhotonList.prng w)) as [p g].
  cbn [fst] in Hperm. cbn.
  eexists _, _. split; [reflexivity |].
  unfold Np.slice_to. split; [reflexivity |].
  assert (Hlen : List.length p = Z.to_nat total).
  { rewrite (Permutation_length Hperm). apply arange_length. }
  split; [rewrite length_firstn; lia |].
  split.
  + apply NoDup_firstn. apply (Permutation_NoDup (Permutation_sym Hperm)).
    apply NoDup_arange.
  + split; [| reflexivity].
    apply Forall_forall. intros j Hj. apply In_firstn in Hj.
    apply (arange_range total). apply (Permutation_in _ Hperm). exact Hj.
Qed.

Lemma C3_index_sampling_witness :
  PhotonList.select_indices 100 100 (Demo.start 7)
  = (inr (map Z.of_nat (seq 0 100)), Demo.start 7)
  /\ exists idxs w',
       PhotonList.select_indices 50 100 (Demo.start 7) = (inr idxs, w')
       /\ NoDup idxs
       /\ Forall (fun j => 0 <= j < 100) idxs.
Proof.
split.
- apply (proj1 (@C3_index_sampling float Z Demo.collaborators
                  100 100 (Demo.start 7) demo_permutation
                  ltac:(lia))).
  reflexivity.
- destruct (proj2 (@C3_index_sampling float Z Demo.collaborators
                     50 100 (Demo.start 7) demo_permutation
                     ltac:(lia)) ltac:(lia))
    as (idxs & w' & E & _ & _ & Hnd & Hr & _).
  exists idxs, w'. auto.
Defined.


(** ** Inversion of a successful projection *)

Lemma take_length {A} (a : list A) : forall idx r,
  Np.take a idx = Some r -> List.length r = List.length idx.
Proof.
induction idx as [| i idx IH]; intros r E; cbn in E.
- inversion E. reflexivity.
- destruct (Np.item a i); [| discriminate].
  destruct (Np.take a idx) as [r' |]; [| discriminate].
  inversion E. cbn. f_equal. apply IH. reflexivity.
Qed.

Lemma take_Forall2 {A} (a : list A) : forall idx r,
  Np.take a idx = Some r -> Forall2 (fun i v => Np.item a i = Some v) idx r.
Proof.
induction idx as [| i idx IH]; intros r E; cbn in E.
- inversion E. constructor.
- destruct (Np.item a i) eqn:Ei; [| discriminate].
  destruct (Np.take a idx) as [r' |]; [| discriminate].
  inversion E. constructor; [exact Ei | apply IH; reflexivity].
Qed.

Lemma Forall2_In_r {A B} (R : A -> B -> Prop) l l' y :
  Forall2 R l l' -> In y l' -> exists x, In x l /\ R x y.
Proof.
induction 1 as [| x y' l l' Hxy _ IH]; intros Hy; [contradiction |].
destruct Hy as [<- | Hy].
- exists x. split; [left; reflexivity | exact Hxy].
- destruct (IH Hy) as (x' & Hx' & Hr). exists x'. split; [right |]; assumption.
Qed.

Lemma compress_incl {A} : forall (l : list A) mask r,
  Np.compress l mask = Some r -> incl r l.
Proof.
induction l as [| v l IH]; intros [| b mask] r E; cbn in E; try discriminate.
- inversion E. intros x Hx. exact Hx.
- destruct (Np.compress l mask) as [r' |] eqn:Er; [| discriminate].
  specialize (IH mask r' Er). inversion E. destruct b.
  + intros x [<- | Hx]; [left; reflexivity | right; apply IH; exact Hx].
  + intros x Hx. right. apply IH. exact Hx.
Qed.

Lemma map2_length {A B C} (f : A -> B -> C) : forall a b,
  List.length a = List.length b -> List.length (Np.map2 f a b) = List.length a.
Proof.
induction a as [| v a IH]; intros [| w b] E; cbn in *; try lia.
f_equal. apply IH. lia.
Qed.

Lemma broadcast_same {A B C} (f : A -> B -> C) a b :
  List.length a = List.length b -> Np.broadcast f a b = Some (Np.map2 f a b).
Proof. intros E. unfold Np.broadcast. rewrite E, Nat.eqb_refl. reflexivity. Qed.

Lemma init_inr {num} `{Scalar num} events params (ev : EventList.t num) :
  EventList.__init__ events params = inr ev ->
  EventList.events ev = events /\ EventList.parameters ev = params.
Proof.
unfold EventList.__init__, EventList.ebind, EventList.lookup,
  EventList.as_arr, EventList.as_num.
destruct (Dict.get events "xpix"); [| discriminate].
destruct (Dict.get params "pix_center") as [[? | ? | ?] |]; try discriminate.
destruct (Dict.get params "sky_center") as [[? | ? | ?] |]; try discriminate.
destruct (Dict.get params "dtheta") as [[? | ? | ?] |]; try discriminate.
intros E. inversion E. cbn. auto.
Qed.

Section Success.

Import PhotonList Monad.
Context {num G : Type} `{Scalar num} `{Sqrt num} `{Collaborators num G}.

Lemma rescale_inr (a : args num) n (w : world num G) r w' :
  rescale a n w = (inr r, w') ->
  scale_factor r = scale_factor_of (self w) a /\ self w' = self w.
Proof.
destruct (no_override a) eqn:Hno.
- destruct (rescale_plain a n w Hno) as (r0 & E & _ & Hsf).
  rewrite E. intros E'. inversion E'; subst. auto.
- unfold rescale.
  rewrite (bind_step _ _ w (self w) w) by reflexivity. rewrite Hno.
  destruct (area_effects_run a w) as (p & w1 & E1 & Hs & _).
  rewrite (bind_step _ _ _ _ _ E1).
  destruct (gtb (fak (self w) a) one); [discriminate |].
  destruct (uint64 _); cbn; [| discriminate].
  intros E. inversion E; subst. cbn. auto.
Qed.

(** The energies of the selected photons without Doppler shift. *)
Lemma observed_energies_plain (a : args num) pl idxs cells vz sf
    (w : world num G) eobs w' :
  no_shifting a = true ->
  observed_energies a pl idxs cells vz sf w = (inr eobs, w') ->
  exists rest,
    Np.take (Energy (photons pl)) idxs = Some rest
    /\ eobs = map (fun e => (e * sf)%num) rest.
Proof.
intros Hns. unfold observed_energies. rewrite Hns. intros E.
apply bind_inr in E as (e0 & w1 & E1 & E2).
apply lift_opt_inr in E1 as (E1 & _). inversion E2; subst.
exists e0. auto.
Qed.

(** The energies of the selected photons with Doppler shift. *)
Lemma observed_energies_shifted (a : args num) pl idxs vz sf
    (w : world num G) eobs w' :
  no_shifting a = false ->
  observed_energies a pl idxs (obs_cells_of (p_bins pl) idxs) vz sf w
  = (inr eobs, w') ->
  exists v rest shifts,
    vz = Some v
    /\ Np.take (Energy (photons pl)) idxs = Some rest
    /\ Np.take (map doppler_shift v) (obs_cells_of (p_bins pl) idxs) = Some shifts
    /\ eobs = map (fun e => (e * sf)%num) (Np.map2 mul rest shifts).
Proof.
intros Hns. unfold observed_energies. rewrite Hns. intros E.
apply bind_inr in E as (e0 & w1 & E1 & E2). inversion E2; subst. clear E2.
apply bind_inr in E1 as (v & w2 & Ev & E1).
apply lift_opt_inr in Ev as (Ev & ->).
apply bind_inr in E1 as (rest & w3 & Er & E1).
apply lift_opt_inr in Er as (Er & ->).
apply bind_inr in E1 as (shifts & w4 & Es & E1).
apply lift_opt_inr in Es as (Es & ->).
apply lift_opt_inr in E1 as (Eb & _).
rewrite broadcast_same in Eb.
- inversion Eb; subst. exists v, rest, shifts. auto.
- rewrite (take_length _ _ _ Er), (take_length _ _ _ Es).
  unfold obs_cells_of. rewrite length_map. reflexivity.
Qed.

End Success.

Section Selected.

Import PhotonList Monad.
Context {num G : Type} `{Scalar num} `{Sqrt num} `{Collaborators num G}.

(** The line-of-sight velocities of a projection along a principal axis
    are the velocity component of that axis. *)
Lemma project_axis_vz (a : args num) pl s size cells delta
    (w : world num G) xsky ysky vz w' :
  no_shifting a = false ->
  project_axis a pl s size cells delta w = (inr (xsky, ysky, vz), w') ->
  exists v, vz = Some v /\ photons_get (photons pl) ("v" ++ s) = Some v.
Proof.
intros Hns E. unfold project_axis in E. rewrite Hns in E.
do 12 (apply bind_inr in E as (? & ? & _ & E)).
apply bind_inr in E as (v & w1 & Ev & E).
apply lift_opt_inr in Ev as (Ev & _).
inversion E; subst. exists v. auto.
Qed.

(** The line-of-sight velocities of an off-axis projection are the
    projections of the velocities onto [z_hat]. *)
Lemma project_off_axis_vz (a : args num) pl xh yh zh size cells delta
    (w : world num G) xsky ysky vz w' :
  no_shifting a = false ->
  project_off_axis a pl xh yh zh size cells delta w = (inr (xsky, ysky, vz), w') ->
  exists v,
    vz = Some v
    /\ dot3 (ph_vx (photons pl)) (ph_vy (photons pl)) (ph_vz (photons pl)) zh
       = Some v.
Proof.
intros Hns E. unfold project_off_axis in E. rewrite Hns in E.
do 3 (apply bind_inr in E as (? & ? & _ & E)).
apply bind_inr in E as (vz0 & w1 & Ev & E).
apply bind_inr in Ev as (v & w2 & Ev & Er).
apply lift_opt_inr in Ev as (Ev & _). inversion Er; subst. clear Er.
do 14 (apply bind_inr in E as (? & ? & _ & E)).
inversion E; subst. exists v. auto.
Qed.

(** What a successful projection went through. *)
Lemma project_selected_inr (a : args num) pl r sky (w : world num G) ev w' :
  project_selected a pl r sky w = (inr ev, w') ->
  exists idxs delta sky_vz eobs detected es w1 w2 w3,
    (match normal a with
     | NormalAxis s =>
         project_axis a pl s (Z.to_nat (my_n_obs r))
           (obs_cells_of (p_bins pl) idxs)
     | NormalVector L =>
         let '(x_hat, y_hat, z_hat) := Orientation L (north_vector a) in
         project_off_axis a pl x_hat y_hat z_hat (Z.to_nat (my_n_obs r))
           (obs_cells_of (p_bins pl) idxs)
     end) delta w1 = (inr sky_vz, w2)
    /\ observed_energies a pl idxs (obs_cells_of (p_bins pl) idxs)
         (snd sky_vz) (scale_factor r) w2 = (inr eobs, w3)
    /\ Np.compress eobs detected = Some es
    /\ Dict.get (EventList.events ev) "eobs" = Some es.
Proof.
intros E. unfold project_selected in E.
apply bind_inr in E as (? & ? & _ & E).
apply bind_inr in E as (idxs & ? & _ & E).
apply bind_inr in E as (delta & w1 & _ & E).
apply bind_inr in E as (sky_vz & w2 & Esky & E).
apply bind_inr in E as (eobs & w3 & Eobs & E).
apply bind_inr in E as (not_abs & ? & _ & E).
apply bind_inr in E as (detected & ? & _ & E).
apply bind_inr in E as (xs & ? & _ & E).
apply bind_inr in E as (ys & ? & _ & E).
apply bind_inr in E as (es & ? & Ees & E).
apply lift_opt_inr in Ees as (Ees & _).
apply bind_inr in E as (? & ? & _ & E).
unfold lift in E. inversion E as [[Ei Ew]].
apply init_inr in Ei as (Eev & _).
exists idxs, delta, sky_vz, eobs, detected, es, w1, w2, w3.
split; [| split; [exact Eobs | split; [exact Ees |]]].
- destruct (normal a) as [s | L]; [exact Esky |].
  destruct (Orientation L (north_vector a)) as [[xh yh] zh]. exact Esky.
- rewrite Eev. reflexivity.
Qed.

Lemma project_photons_inr (a : args num) (w : world num G) ev w' :
  project_photons a w = (inr ev, w') ->
  exists r sky w1,
    scale_factor r = scale_factor_of (self w) a
    /\ project_selected a (self w) r sky w1 = (inr ev, w').
Proof.
intros E. unfold project_photons in E.
destruct (both_given_run a w) as (w0 & E0 & Hs0 & _).
rewrite (bind_step _ _ _ _ _ E0) in E.
rewrite (bind_step _ _ w0 (self w0) w0) in E by reflexivity.
apply bind_inr in E as (r & w1 & Er & E).
apply rescale_inr in Er as (Hsf & _).
rewrite Hs0 in *. eauto.
Qed.

End Selected.

(** ** Observed energies *)

Lemma item_map {A B} (f : A -> B) (a : list A) i :
  Np.item (map f a) i = option_map f (Np.item a i).
Proof.
unfold Np.item. rewrite length_map.
destruct ((0 <=? i) && (i <? Z.of_nat (List.length a)));
  [apply nth_error_map |].
destruct ((- Z.of_nat (List.length a) <=? i) && (i <? 0));
  [apply nth_error_map | reflexivity].
Qed.

Lemma Forall2_map_left {A B C} (g : A -> B) (Q : B -> C -> Prop) : forall l r,
  Forall2 Q (map g l) r -> Forall2 (fun x c => Q (g x) c) l r.
Proof.
induction l as [| x l IH]; intros r Hr; inversion Hr; subst; constructor; auto.
Qed.

Lemma Forall2_map_right {A B C} (g : B -> C) (Q : A -> B -> Prop) : forall l r,
  Forall2 Q l r -> Forall2 (fun x c => exists b, Q x b /\ c = g b) l (map g r).
Proof.
induction 1; cbn; constructor; eauto.
Qed.

Lemma Forall2_map2 {A B C D} (f : B -> C -> D) (P : A -> B -> Prop)
    (Q : A -> C -> Prop) : forall l a b,
  Forall2 P l a -> Forall2 Q l b ->
  Forall2 (fun x d => exists u v, P x u /\ Q x v /\ d = f u v) l (Np.map2 f a b).
Proof.
induction l as [| x l IH]; intros a b Ha Hb; inversion Ha; inversion Hb; subst;
  cbn; constructor; eauto.
Qed.

(** *** What a successful call went through *)

Lemma compress_length {A} : forall (a : list A) mask r,
  Np.compress a mask = Some r ->
  List.length a = List.length mask
  /\ List.length r = List.length (filter (fun b : bool => b) mask).
Proof.
induction a as [| v a IH]; intros [| b mask] r E; cbn in E; try discriminate.
- inversion E. auto.
- destruct (Np.compress a mask) as [r' |] eqn:Er; [| discriminate].
  destruct (IH mask r' Er) as (L1 & L2).
  inversion E; subst. cbn. destruct b; cbn; lia.
Qed.

Lemma compress_ones {A} : forall a : list A,
  Np.compress a (Np.ones (List.length a)) = Some a.
Proof.
induction a as [| v a IH]; [reflexivity |].
cbn. unfold Np.ones in IH. rewrite IH. reflexivity.
Qed.

Lemma map2_andb_ones : forall n, Np.map2 andb (Np.ones n) (Np.ones n) = Np.ones n.
Proof. induction n as [| n IH]; [reflexivity |]. cbn. f_equal. exact IH. Qed.

(** What [EventList.__init__] derives from its two arguments. *)
Lemma init_derived {num} `{Scalar num} events params (ev : EventList.t num) :
  EventList.__init__ events params = inr ev ->
  exists xpix pc sc dt,
    Dict.get events "xpix" = Some xpix
    /\ Dict.get params "pix_center" = Some (EventList.PArr pc)
    /\ Dict.get params "sky_center" = Some (EventList.PArr sc)
    /\ Dict.get params "dtheta" = Some (EventList.PNum dt)
    /\ EventList.events ev = events
    /\ EventList.parameters ev = params
    /\ EventList.num_events ev = List.length xpix
    /\ EventList.wcs ev
       = {| EventList.crpix := pc;
            EventList.crval := sc;
            EventList.cdelt := [(- dt)%num; dt];
            EventList.ctype := ["RA---TAN"; "DEC--TAN"]%string;
            EventList.cunit := ["deg"; "deg"]%string |}.
Proof.
unfold EventList.__init__, EventList.ebind, EventList.lookup,
  EventList.as_arr, EventList.as_num.
destruct (Dict.get events "xpix") as [xpix |]; [| discriminate].
destruct (Dict.get params "pix_center") as [[? | ? | pc] |]; try discriminate.
destruct (Dict.get params "sky_center") as [[? | ? | sc] |]; try discriminate.
destruct (Dict.get params "dtheta") as [[dt | ? | ?] |]; try discriminate.
intros E. inversion E. cbn. exists xpix, pc, sc, dt. auto 10.
Qed.

Section Trace.

Import PhotonList Monad.
Context {num G : Type} `{Scalar num} `{Sqrt num} `{Collaborators num G}.

(** What a successful rescaling returns. *)
Lemma rescale_result (a : args num) n (w : world num G) r w' :
  rescale a n w = (inr r, w') ->
  (if no_override a then my_n_obs r = n
   else uint64 (of_Z n * fak (self w) a)%num = Some (my_n_obs r))
  /\ scale_factor r = scale_factor_of (self w) a
  /\ Dict.mem (out_parameters r) "ARF"
     = match arf_of a with Some _ => true | None => false end
  /\ PhotonList.arf r = arf_of a
  /\ self w' = self w /\ prng w' = prng w.
Proof.
unfold rescale.
rewrite (bind_step _ _ w (self w) w) by reflexivity.
destruct (no_override a) eqn:Hno.
- intros E. inversion E; subst; clear E. cbn.
  unfold no_override in Hno. unfold scale_factor_of, arf_of.
  destruct (exp_time_new a), (area_new a), (redshift_new a), (dist_new a);
    try discriminate. auto 10.
- destruct (area_effects a w) as [[e | p] w1] eqn:E1.
  { destruct (area_effects_run a w) as (p & w1' & E1' & _). congruence. }
  rewrite (bind_step _ _ _ _ _ E1).
  destruct (gtb (fak (self w) a) one); [discriminate |].
  destruct (uint64 _) as [k |] eqn:Ek; cbn; [| discriminate].
  intros E. inversion E; subst; clear E. cbn.
  split; [reflexivity |]. split; [reflexivity |].
  unfold area_effects in E1. unfold arf_of.
  destruct (area_new a) as [[v | f] |]; cbn in E1; inversion E1; subst; cbn.
  + auto.
  + destruct (rmffile f); cbn; auto.
  + auto.
Qed.

Lemma select_indices_result k n (w : world num G) idxs w' :
  select_indices k n w = (inr idxs, w') ->
  idxs = (if k =? n then Np.arange k
          else Np.slice_to (fst (rng_permutation n (prng w))) k)
  /\ prng w' = (if k =? n then prng w else snd (rng_permutation n (prng w)))
  /\ self w' = self w.
Proof.
unfold select_indices. destruct (k =? n).
- intros E. inversion E; subst. auto.
- unfold bind, prng_permutation. destruct (rng_permutation n (prng w)) as [p g].
  intros E. inversion E; subst. cbn. auto.
Qed.

Lemma absorption_result (a : args num) eobs (w : world num G) not_abs w' :
  absorption a eobs w = (inr not_abs, w') ->
  match absorb_model a with
  | None => not_abs = Np.ones (List.length eobs) /\ prng w' = prng w
  | Some m =>
      let u := draw_n (rng_uniform (of_Z 0) one) (List.length eobs) (prng w) in
      exists top,
        amax (get_spectrum m) = Some top
        /\ Np.broadcast ltb (map (fun e => (top * e)%num) (fst u))
                        (interp eobs (emid m) (get_spectrum m))
           = Some not_abs
        /\ prng w' = snd u
  end.
Proof.
unfold absorption. destruct (absorb_model a) as [m |].
- intros E.
  apply bind_inr in E as ([] & w1 & E1 & E).
  apply bind_inr in E as (top & w2 & Etop & E).
  apply lift_opt_inr in Etop as (Etop & ->).
  apply bind_inr in E as (u & w3 & Eu & E).
  apply lift_opt_inr in E as (Eb & ->).
  unfold mylog, modify in E1. inversion E1; subst w1. clear E1.
  unfold prng_uniform in Eu. cbn [prng] in Eu.
  destruct (draw_n (rng_uniform (of_Z 0) one) (List.length eobs) (prng w))
    as [v g] eqn:Ed.
  inversion Eu; subst. cbn. exists top. auto.
- intros E. inversion E; subst. auto.
Qed.

Lemma detection_result r eobs not_abs (w : world num G) detected w' :
  detection r eobs not_abs w = (inr detected, w') ->
  exists det,
    (if Dict.mem (out_parameters r) "ARF"
     then exists f, PhotonList.arf r = Some f
                    /\ det = fst (detect_events f eobs (prng w))
     else det = Np.ones (List.length eobs))
    /\ Np.broadcast andb not_abs det = Some detected.
Proof.
unfold detection. intros E.
apply bind_inr in E as (det & w1 & Ed & E).
apply lift_opt_inr in E as (Eb & _).
exists det. split; [| exact Eb].
destruct (Dict.mem (out_parameters r) "ARF"); cbn [negb] in Ed.
- apply bind_inr in Ed as ([] & w2 & E1 & Ed).
  apply bind_inr in Ed as (f & w3 & Ef & Ed).
  apply lift_opt_inr in Ef as (Ef & ->).
  unfold mylog, modify in E1. inversion E1; subst w2. clear E1.
  unfold arf_detect_events in Ed. cbn [prng] in Ed.
  destruct (detect_events f eobs (prng w)) as [d g] eqn:Edet.
  inversion Ed; subst. exists f. split; [exact Ef |].
  rewrite Edet. reflexivity.
- inversion Ed; subst. reflexivity.
Qed.


Lemma observed_energies_store (a : args num) pl idxs cells vz sf
    (w : world num G) eobs w' :
  observed_energies a pl idxs cells vz sf w = (inr eobs, w') -> w' = w.
Proof.
unfold observed_energies. intros E.
apply bind_inr in E as (e0 & w1 & E1 & E). inversion E; subst. clear E.
destruct (no_shifting a).
- apply lift_opt_inr in E1 as (_ & ->). reflexivity.
- apply bind_inr in E1 as (v & w2 & Ev & E1).
  apply lift_opt_inr in Ev as (_ & ->).
  apply bind_inr in E1 as (rest & w3 & Er & E1).
  apply lift_opt_inr in Er as (_ & ->).
  apply bind_inr in E1 as (sh & w4 & Es & E1).
  apply lift_opt_inr in Es as (_ & ->).
  apply lift_opt_inr in E1 as (_ & ->). reflexivity.
Qed.

(** What a successful call went through: the photons that the rescaling
    and the generator select, their projection, their energies, the two
    masks, and the energies of the event list. *)
Lemma project_photons_trace (a : args num) (w : world num G) ev w' :
  project_photons a w = (inr ev, w') ->
  let pl := self w in
  let total := Np.sum (NumberOfPhotons (photons pl)) in
  exists k idxs delta w2 sky_vz w3 eobs not_abs det detected es,
    (if no_override a then k = total
     else uint64 (of_Z total * fak pl a)%num = Some k)
    /\ idxs = (if k =? total then Np.arange k
               else Np.slice_to (fst (rng_permutation total (prng w))) k)
    /\ self w2 = pl
    /\ prng w2 = (if k =? total then prng w
                  else snd (rng_permutation total (prng w)))
    /\ Np.take (ph_dx (photons pl)) (obs_cells_of (p_bins pl) idxs) = Some delta
    /\ (match normal a with
        | NormalAxis s =>
            project_axis a pl s (Z.to_nat k) (obs_cells_of (p_bins pl) idxs)
              delta
        | NormalVector L =>
            let '(x_hat, y_hat, z_hat) := Orientation L (north_vector a) in
            project_off_axis a pl x_hat y_hat z_hat (Z.to_nat k)
              (obs_cells_of (p_bins pl) idxs) delta
        end) w2 = (inr sky_vz, w3)
    /\ observed_energies a pl idxs (obs_cells_of (p_bins pl) idxs)
         (snd sky_vz) (scale_factor_of pl a) w3 = (inr eobs, w3)
    /\ match absorb_model a with
       | None => not_abs = Np.ones (List.length eobs)
       | Some m =>
           exists top,
             amax (get_spectrum m) = Some top
             /\ Np.broadcast ltb
                  (map (fun e => (top * e)%num)
                       (fst (draw_n (rng_uniform (of_Z 0) one)
                                    (List.length eobs) (prng w3))))
                  (interp eobs (emid m) (get_spectrum m))
                = Some not_abs
       end
    /\ match arf_of a with
       | None => det = Np.ones (List.length eobs)
       | Some f =>
           det = fst (detect_events f eobs
                        match absorb_model a with
                        | None => prng w3
                        | Some _ =>
                            snd (draw_n (rng_uniform (of_Z 0) one)
                                        (List.length eobs) (prng w3))
                        end)
       end
    /\ Np.broadcast andb not_abs det = Some detected
    /\ Np.compress eobs detected = Some es
    /\ Dict.get (EventList.events ev) "eobs" = Some es
    /\ EventList.num_events ev = List.length es.
Proof.
intros E pl total. unfold project_photons in E.
destruct (both_given_run a w) as (w0 & E0 & Hs0 & Hp0 & _).
rewrite (bind_step _ _ _ _ _ E0) in E.
rewrite (bind_step _ _ w0 (self w0) w0) in E by reflexivity.
rewrite Hs0 in E. fold pl in E. fold total in E.
apply bind_inr in E as (r & w1 & Er & E).
apply rescale_result in Er as (Hk & Hsf & Hmem & Harf & Hs1 & Hp1).
rewrite Hs0 in Hk, Hsf. fold pl in Hk, Hsf.
unfold project_selected in E.
apply bind_inr in E as ([] & w1' & El & E).
unfold mylog, modify in El. inversion El; subst w1'. clear El.
apply bind_inr in E as (idxs & w2 & Esel & E).
apply select_indices_result in Esel as (Hidxs & Hp2 & Hs2).
cbn [prng self] in Hp2, Hs2. fold total in Hidxs, Hp2.
apply bind_inr in E as (delta & w2' & Edelta & E).
apply lift_opt_inr in Edelta as (Edelta & ->).
apply bind_inr in E as (sky_vz & w3 & Esky & E).
apply bind_inr in E as (eobs & w3' & Eobs & E).
pose proof (observed_energies_store _ _ _ _ _ _ _ _ _ Eobs) as ->.
apply bind_inr in E as (not_abs & w4 & Eabs & E).
apply absorption_result in Eabs.
apply bind_inr in E as (detected & w5 & Edet & E).
apply detection_result in Edet as (det & Hdet & Eand).
apply bind_inr in E as (xs & ? & Exs & E).
apply bind_inr in E as (ys & ? & Eys & E).
apply bind_inr in E as (es & ? & Ees & E).
apply lift_opt_inr in Exs as (Exs & _).
apply lift_opt_inr in Eys as (Eys & _).
apply lift_opt_inr in Ees as (Ees & _).
apply bind_inr in E as (? & ? & _ & E).
unfold lift in E. injection E as Ei _.
apply init_derived in Ei as (xpix & _ & _ & _ & Ex & _ & _ & _ & Eev & _ & Enum & _).
cbn in Ex. injection Ex as <-.
apply compress_length in Exs as (_ & Lx).
pose proof (compress_length _ _ _ Ees) as (_ & Le).
exists (my_n_obs r), idxs, delta, w2, sky_vz, w3, eobs, not_abs, det, detected, es.
rewrite Hp1, Hp0 in Hp2. rewrite Hs1, Hs0 in Hs2.
split; [exact Hk |].
split; [rewrite Hidxs; cbn [prng]; rewrite Hp1, Hp0; reflexivity |].
split; [exact Hs2 |]. split; [exact Hp2 |]. split; [exact Edelta |].
split; [exact Esky |]. split; [rewrite <- Hsf; exact Eobs |].
split; [| split; [| split; [exact Eand | split; [exact Ees | split]]]].
- destruct (absorb_model a) as [m |].
  + destruct Eabs as (top & Etop & Eb & _). exists top. auto.
  + apply Eabs.
- rewrite Hmem in Hdet. rewrite Harf in Hdet.
  destruct (arf_of a) as [f |].
  + destruct Hdet as (f' & Ef & ->). injection Ef as <-.
    destruct (absorb_model a) as [m |].
    * destruct Eabs as (top & _ & _ & ->). reflexivity.
    * destruct Eabs as (_ & ->). reflexivity.
  + exact Hdet.
- rewrite Eev. reflexivity.
- rewrite Enum, length_map. lia.
Qed.

End Trace.

Lemma default_masks {A} (eobs : list A) not_abs det detected es :
  not_abs = Np.ones (List.length eobs) ->
  det = Np.ones (List.length eobs) ->
  Np.broadcast andb not_abs det = Some detected ->
  Np.compress eobs detected = Some es ->
  es = eobs.
Proof.
intros -> -> Eb Ec.
rewrite broadcast_same in Eb by reflexivity. rewrite map2_andb_ones in Eb.
injection Eb as <-. rewrite compress_ones in Ec. injection Ec as <-. reflexivity.
Qed.

Lemma Forall2_length_eq {A B} (R : A -> B -> Prop) l l' :
  Forall2 R l l' -> List.length l = List.length l'.
Proof. induction 1; cbn; congruence. Qed.


(** C6. With [no_shifting=True], the observed energy of every selected
    photon is its rest energy times [scale_factor], which is
    [(1 + FiducialRedshift) / (1 + redshift_new)] when a new redshift is
    requested and 1 otherwise, a new distance alone included. The selected
    photons [idxs] are the ones the call selects: all of them in order when
    [my_n_obs] is the photon count, otherwise the first [my_n_obs] entries
    of the permutation that the generator returns at the state the call
    starts with. The energies [es] of the event list are the energies of
    the selected photons that pass the absorption mask and the detection
    mask, both computed at the state the generator has after the projection
    [w3]; without an absorption model and an ARF they are the energies of
    all the selected photons, and the event list has one event per
    selected photon. *)
Theorem C6_no_shifting {num G : Type} `{Scalar num} `{Sqrt num}
    `{PhotonList.Collaborators num G}
    (a : PhotonList.args num) (w : PhotonList.world num G)
    (ev : EventList.t num) (w' : PhotonList.world num G) :
  PhotonList.no_shifting a = true ->
  PhotonList.project_photons a w = (inr ev, w') ->
  let pl := PhotonList.self w in
  let rest_energy := PhotonList.Energy (PhotonList.photons pl) in
  let total :=
    Np.sum (PhotonList.NumberOfPhotons (PhotonList.photons pl)) in
  let scale_factor :=
    match PhotonList.redshift_new a with
    | Some z =>
        ((of_Z 1 + PhotonList.FiducialRedshift (PhotonList.parameters pl))
         / (of_Z 1 + z))%num
    | None => of_Z 1
    end in
  exists my_n_obs idxs delta w2 sky_vz w3 eobs not_abs det detected es,
    (if PhotonList.no_override a then my_n_obs = total
     else PhotonList.uint64 (of_Z total * PhotonList.fak pl a)%num = Some my_n_obs)
    /\ idxs = (if my_n_obs =? total then Np.arange my_n_obs
               else Np.slice_to
                      (fst (PhotonList.rng_permutation total (PhotonList.prng w)))
                      my_n_obs)
    /\ Forall2 (fun j e => exists e0,
                   Np.item rest_energy j = Some e0 /\ e = (e0 * scale_factor)%num)
               idxs eobs
    /\ PhotonList.self w2 = pl
    /\ PhotonList.prng w2
       = (if my_n_obs =? total then PhotonList.prng w
          else snd (PhotonList.rng_permutation total (PhotonList.prng w)))
    /\ Np.take (PhotonList.ph_dx (PhotonList.photons pl))
               (PhotonList.obs_cells_of (PhotonList.p_bins pl) idxs) = Some delta
    /\ (match PhotonList.normal a with
        | PhotonList.NormalAxis s =>
            PhotonList.project_axis a pl s (Z.to_nat my_n_obs)
              (PhotonList.obs_cells_of (PhotonList.p_bins pl) idxs) delta
        | PhotonList.NormalVector L =>
            let '(x_hat, y_hat, z_hat) :=
              PhotonList.Orientation L (PhotonList.north_vector a) in
            PhotonList.project_off_axis a pl x_hat y_hat z_hat (Z.to_nat my_n_obs)
              (PhotonList.obs_cells_of (PhotonList.p_bins pl) idxs) delta
        end) w2 = (inr sky_vz, w3)
    /\ match PhotonList.absorb_model a with
       | None => not_abs = Np.ones (List.length eobs)
       | Some m =>
           exists top,
             PhotonList.amax (PhotonList.get_spectrum m) = Some top
             /\ Np.broadcast ltb
                  (map (fun e => (top * e)%num)
                       (fst (PhotonList.draw_n
                               (PhotonList.rng_uniform (of_Z 0) (of_Z 1))
                               (List.length eobs) (PhotonList.prng w3))))
                  (PhotonList.interp eobs (PhotonList.emid m)
                     (PhotonList.get_spectrum m))
                = Some not_abs
       end
    /\ match PhotonList.arf_of a with
       | None => det = Np.ones (List.length eobs)
       | Some f =>
           det = fst (PhotonList.detect_events f eobs
                        match PhotonList.absorb_model a with
                        | None => PhotonList.prng w3
                        | Some _ =>
                            snd (PhotonList.draw_n
                                   (PhotonList.rng_uniform (of_Z 0) (of_Z 1))
                                   (List.length eobs) (PhotonList.prng w3))
                        end)
       end
    /\ Np.broadcast andb not_abs det = Some detected
    /\ Np.compress eobs detected = Some es
    /\ Dict.get (EventList.events ev) "eobs" = Some es
    /\ EventList.num_events ev = List.length es
    /\ (PhotonList.absorb_model a = None -> PhotonList.arf_of a = None ->
        es = eobs /\ EventList.num_events ev = List.length idxs).
Proof.
intros Hns E pl rest_energy total scale_factor.
apply project_photons_trace in E
  as (k & idxs & delta & w2 & sky_vz & w3 & eobs & not_abs & det & detected & es
      & Hk & Hidxs & Hs2 & Hp2 & Edelta & Esky & Eobs & Habs & Hdet & Eand
      & Ees & Eget & Enum).
fold pl in Hk, Hidxs, Hs2, Hp2, Edelta, Esky, Eobs. fold total in Hk, Hidxs, Hp2.
apply (observed_energies_plain _ _ _ _ _ _ _ _ _ Hns) in Eobs
  as (rest & Erest & Heobs).
assert (HF : Forall2 (fun j e => exists e0,
                        Np.item rest_energy j = Some e0
                        /\ e = (e0 * scale_factor)%num)
                     idxs eobs).
{ rewrite Heobs.
  apply Forall2_map_right with (g := fun e => (e * scale_factor)%num).
  apply take_Forall2. exact Erest. }
exists k, idxs, delta, w2, sky_vz, w3, eobs, not_abs, det, detected, es.
repeat (split; [assumption |]).
intros Ha Hf. rewrite Ha in Habs. rewrite Hf in Hdet.
assert (Hes : es = eobs)
  by exact (default_masks eobs not_abs det detected es Habs Hdet Eand Ees).
split; [exact Hes |].
rewrite Enum, Hes. symmetry. eapply Forall2_length_eq. exact HF.
Qed.

Lemma C6_no_shifting_witness :
  exists ev w' es,
    PhotonList.project_photons (Demo.with_area 500 (Demo.plain true)) (Demo.start 7)
    = (inr ev, w')
    /\ Dict.get (EventList.events ev) "eobs" = Some es
    /\ EventList.num_events ev = 50%nat
    /\ Forall2 (fun j e => exists e0,
                   Np.item (PhotonList.Energy Demo.sample_photons) j = Some e0
                   /\ e = (e0 * of_Z 1)%num)
               (Np.slice_to (fst (Demo.permutation 100 7)) 50) es.
Proof.
destruct (PhotonList.project_photons (Demo.with_area 500 (Demo.plain true))
            (Demo.start 7)) as [[e | ev] w'] eqn:E.
- exfalso. vm_compute in E. discriminate E.
- destruct (C6_no_shifting (Demo.with_area 500 (Demo.plain true)) (Demo.start 7)
              ev w' eq_refl E)
    as (k & idxs & delta & w2 & sky_vz & w3 & eobs & not_abs & det & detected & es
        & Hk & Hidxs & HF & _ & _ & _ & _ & _ & _ & _ & _ & Hget & _ & Hdef).
  destruct (Hdef eq_refl eq_refl) as (Hes & Hnum).
  assert (Ek : k = 50).
  { vm_compute in Hk. injection Hk as <-. reflexivity. }
  subst k es.
  change (idxs = Np.slice_to (fst (Demo.permutation 100 7)) 50) in Hidxs.
  subst idxs.
  exists ev, w', eobs. split; [reflexivity |]. split; [exact Hget |].
  split; [rewrite Hnum; reflexivity | exact HF].
Defined.

(** C5, as amended. With Doppler shifting enabled, the observed energy of
    every selected photon is its rest energy times
    [sqrt((1 - beta) / (1 + beta))] times [scale_factor], where
    [beta = - v_los / c] and [v_los] is the velocity of the owning cell along
    the line of sight: its component along the axis of an axis-aligned
    projection, its projection onto [z_hat] otherwise. The sign of the
    velocity is reversed with respect to [sqrt((1 - v_los/c) / (1 + v_los/c))].
    The selected photons, the two masks and the energies of the event list
    are tied to the call as in C6. *)
Theorem C5_doppler_shift {num G : Type} `{Scalar num} `{Sqrt num}
    `{PhotonList.Collaborators num G}
    (a : PhotonList.args num) (w : PhotonList.world num G)
    (ev : EventList.t num) (w' : PhotonList.world num G) :
  PhotonList.no_shifting a = false ->
  PhotonList.project_photons a w = (inr ev, w') ->
  let pl := PhotonList.self w in
  let ph := PhotonList.photons pl in
  let total := Np.sum (PhotonList.NumberOfPhotons ph) in
  let scale_factor :=
    match PhotonList.redshift_new a with
    | Some z =>
        ((of_Z 1 + PhotonList.FiducialRedshift (PhotonList.parameters pl))
         / (of_Z 1 + z))%num
    | None => of_Z 1
    end in
  let shift := fun v : num =>
    let beta := ((- PhotonList.in_cgs v) / PhotonList.clight)%num in
    sqrt ((of_Z 1 - beta) / (of_Z 1 + beta))%num in
  exists v_los my_n_obs idxs delta w2 sky_vz w3 eobs not_abs det detected es,
    match PhotonList.normal a with
    | PhotonList.NormalAxis s =>
        PhotonList.photons_get ph ("v" ++ s) = Some v_los
    | PhotonList.NormalVector L =>
        PhotonList.dot3 (PhotonList.ph_vx ph) (PhotonList.ph_vy ph)
          (PhotonList.ph_vz ph)
          (snd (PhotonList.Orientation L (PhotonList.north_vector a)))
        = Some v_los
    end
    /\ (if PhotonList.no_override a then my_n_obs = total
        else PhotonList.uint64 (of_Z total * PhotonList.fak pl a)%num
             = Some my_n_obs)
    /\ idxs = (if my_n_obs =? total then Np.arange my_n_obs
               else Np.slice_to
                      (fst (PhotonList.rng_permutation total (PhotonList.prng w)))
                      my_n_obs)
    /\ Forall2 (fun j e => exists e0 v,
                   Np.item (PhotonList.Energy ph) j = Some e0
                   /\ Np.item v_los (PhotonList.owner (PhotonList.p_bins pl) j)
                      = Some v
                   /\ e = (e0 * shift v * scale_factor)%num)
               idxs eobs
    /\ PhotonList.self w2 = pl
    /\ PhotonList.prng w2
       = (if my_n_obs =? total then PhotonList.prng w
          else snd (PhotonList.rng_permutation total (PhotonList.prng w)))
    /\ Np.take (PhotonList.ph_dx ph)
               (PhotonList.obs_cells_of (PhotonList.p_bins pl) idxs) = Some delta
    /\ (match PhotonList.normal a with
        | PhotonList.NormalAxis s =>
            PhotonList.project_axis a pl s (Z.to_nat my_n_obs)
              (PhotonList.obs_cells_of (PhotonList.p_bins pl) idxs) delta
        | PhotonList.NormalVector L =>
            let '(x_hat, y_hat, z_hat) :=
              PhotonList.Orientation L (PhotonList.north_vector a) in
            PhotonList.project_off_axis a pl x_hat y_hat z_hat (Z.to_nat my_n_obs)
              (PhotonList.obs_cells_of (PhotonList.p_bins pl) idxs) delta
        end) w2 = (inr sky_vz, w3)
    /\ match PhotonList.absorb_model a with
       | None => not_abs = Np.ones (List.length eobs)
       | Some m =>
           exists top,
             PhotonList.amax (PhotonList.get_spectrum m) = Some top
             /\ Np.broadcast ltb
                  (map (fun e => (top * e)%num)
                       (fst (PhotonList.draw_n
                               (PhotonList.rng_uniform (of_Z 0) (of_Z 1))
                               (List.length eobs) (PhotonList.prng w3))))
                  (PhotonList.interp eobs (PhotonList.emid m)
                     (PhotonList.get_spectrum m))
                = Some not_abs
       end
    /\ match PhotonList.arf_of a with
       | None => det = Np.ones (List.length eobs)
       | Some f =>
           det = fst (PhotonList.detect_events f eobs
                        match PhotonList.absorb_model a with
                        | None => PhotonList.prng w3
                        | Some _ =>
                            snd (PhotonList.draw_n
                                   (PhotonList.rng_uniform (of_Z 0) (of_Z 1))
                                   (List.length eobs) (PhotonList.prng w3))
                        end)
       end
    /\ Np.broadcast andb not_abs det = Some detected
    /\ Np.compress eobs detected = Some es
    /\ Dict.get (EventList.events ev) "eobs" = Some es
    /\ EventList.num_events ev = List.length es
    /\ (PhotonList.absorb_model a = None -> PhotonList.arf_of a = None ->
        es = eobs /\ EventList.num_events ev = List.length idxs).
Proof.
intros Hns E pl ph total scale_factor shift.
apply project_photons_trace in E
  as (k & idxs & delta & w2 & [[xsky ysky] vz] & w3 & eobs & not_abs & det
      & detected & es
      & Hk & Hidxs & Hs2 & Hp2 & Edelta & Esky & Eobs & Habs & Hdet & Eand
      & Ees & Eget & Enum).
fold pl in Hk, Hidxs, Hs2, Hp2, Edelta, Esky, Eobs. fold total in Hk, Hidxs, Hp2.
cbn [snd] in Eobs.
apply (observed_energies_shifted _ _ _ _ _ _ _ _ Hns) in Eobs
  as (v & rest & shifts & -> & Erest & Eshifts & Heobs).
assert (Hv : match PhotonList.normal a with
             | PhotonList.NormalAxis s =>
                 PhotonList.photons_get ph ("v" ++ s) = Some v
             | PhotonList.NormalVector L =>
                 PhotonList.dot3 (PhotonList.ph_vx ph) (PhotonList.ph_vy ph)
                   (PhotonList.ph_vz ph)
                   (snd (PhotonList.Orientation L (PhotonList.north_vector a)))
                 = Some v
             end).
{ destruct (PhotonList.normal a) as [s | L].
  + apply (project_axis_vz _ _ _ _ _ _ _ _ _ _ _ Hns) in Esky
      as (v' & Ev & Ex). inversion Ev; subst. exact Ex.
  + destruct (PhotonList.Orientation L (PhotonList.north_vector a))
      as [[xh yh] zh] eqn:Eo.
    apply (project_off_axis_vz _ _ _ _ _ _ _ _ _ _ _ _ _ Hns) in Esky
      as (v' & Ev & Ex). inversion Ev; subst. exact Ex. }
assert (HF : Forall2 (fun j e => exists e0 v0,
                   Np.item (PhotonList.Energy ph) j = Some e0
                   /\ Np.item v (PhotonList.owner (PhotonList.p_bins pl) j)
                      = Some v0
                   /\ e = (e0 * shift v0 * scale_factor)%num)
               idxs eobs).
{ rewrite Heobs.
  apply take_Forall2 in Erest. apply take_Forall2 in Eshifts.
  unfold PhotonList.obs_cells_of in Eshifts.
  apply Forall2_map_left in Eshifts.
  pose proof (Forall2_map2 mul _ _ _ _ _ Erest Eshifts) as HF.
  apply (Forall2_map_right (fun e => (e * scale_factor)%num)) in HF.
  refine (Forall2_impl _ _ HF).
  intros j e (b & (e0 & s & He0 & Hs & ->) & ->).
  rewrite item_map in Hs.
  match type of Hs with
  | option_map _ ?o = _ => destruct o as [v0 |] eqn:Ev0
  end; cbn in Hs; [| discriminate Hs].
  inversion Hs; subst. exists e0, v0. auto. }
exists v, k, idxs, delta, w2, (xsky, ysky, Some v), w3, eobs, not_abs, det,
  detected, es.
repeat (split; [assumption |]).
intros Ha Hf. rewrite Ha in Habs. rewrite Hf in Hdet.
assert (Hes : es = eobs)
  by exact (default_masks eobs not_abs det detected es Habs Hdet Eand Ees).
split; [exact Hes |].
rewrite Enum, Hes. symmetry. eapply Forall2_length_eq. exact HF.
Qed.

Lemma C5_doppler_shift_witness :
  exists ev w' es v_los,
    PhotonList.project_photons (Demo.plain false) (Demo.start 7) = (inr ev, w')
    /\ PhotonList.photons_get Demo.sample_photons "vz" = Some v_los
    /\ Dict.get (EventList.events ev) "eobs" = Some es
    /\ EventList.num_events ev = 100%nat
    /\ List.length es = 100%nat.
Proof.
destruct (PhotonList.project_photons (Demo.plain false) (Demo.start 7))
  as [[e | ev] w'] eqn:E.
- exfalso. vm_compute in E. discriminate E.
- destruct (C5_doppler_shift (Demo.plain false) (Demo.start 7) ev w' eq_refl E)
    as (v_los & k & idxs & delta & w2 & sky_vz & w3 & eobs & not_abs & det
        & detected & es
        & Hv & Hk & Hidxs & HF & _ & _ & _ & _ & _ & _ & _ & _ & Hget & Hn & Hdef).
  destruct (Hdef eq_refl eq_refl) as (Hes & Hnum).
  change (k = 100) in Hk. subst k.
  change (idxs = Np.arange 100) in Hidxs. subst idxs.
  exists ev, w', es, v_los. split; [reflexivity |]. split; [exact Hv |].
  split; [exact Hget |]. split; [rewrite Hnum; reflexivity |].
  rewrite <- Hn, Hnum. reflexivity.
Defined.

(** C5 as stated fails. Photon 1 of the sample has a rest energy of 0.1 and
    belongs to cell 0, which moves at 300 km/s along [z]; projected along
    ["z"] its observed energy is above its rest energy, and differs from
    the rest energy times [sqrt((1 - v/c) / (1 + v/c))]. *)
Lemma C5_counterexample :
  exists ev e0 v e,
    fst (PhotonList.project_photons (Demo.plain false) (Demo.start 7)) = inr ev
    /\ Np.item (PhotonList.Energy Demo.sample_photons) 1 = Some e0
    /\ Np.item (PhotonList.ph_vz Demo.sample_photons)
         (PhotonList.owner (PhotonList.p_bins Demo.sample) 1) = Some v
    /\ option_map (fun es => nth_error es 1)
         (Dict.get (EventList.events ev) "eobs") = Some (Some e)
    /\ e <> (e0 * PhotonList.spec_doppler_shift v * of_Z 1)%num
    /\ ltb e0 e = true.
Proof.
eexists _, _, _, _.
split; [vm_compute; reflexivity |].
split; [vm_compute; reflexivity |].
split; [vm_compute; reflexivity |].
split; [vm_compute; reflexivity |].
split; [| vm_compute; reflexivity].
intros E.
apply (f_equal (fun x => ltb (Demo.tenth 1) x)) in E.
vm_compute in E. discriminate E.
Qed.

(** ** Both a redshift and a distance *)

(** C9 fails on the code. [project_photons("z", redshift_new=0.1,
    dist_new=300, no_shifting=True)] on the sample logs the error message
    and goes on: it returns an event list, at the new redshift, with the
    distance that the cosmology gives for it; [dist_new] is ignored. *)
Lemma C9_both_overrides_accepted :
  exists ev w',
    PhotonList.project_photons
      (Demo.with_redshift_and_dist (Demo.tenth 1) (of_Z 300) (Demo.plain true))
      (Demo.start 7)
    = (inr ev, w')
    /\ PhotonList.log w'
       = [(PhotonList.ERROR,
           "You may specify a new redshift or distance, but not both!"%string);
          (PhotonList.INFO, "Total number of photons to use: %d"%string);
          (PhotonList.INFO, "Total number of observed photons: %d"%string)]
    /\ EventList.num_events ev = 22%nat
    /\ Dict.get (EventList.parameters ev) "Redshift"
       = Some (EventList.PNum (Demo.tenth 1))
    /\ Dict.get (EventList.parameters ev) "AngularDiameterDistance"
       = Some (EventList.PNum (Demo.sample_cosmo (of_Z 0) (Demo.tenth 1))).
Proof.
eexists _, _. split; [vm_compute; reflexivity |].
repeat split; vm_compute; reflexivity.
Qed.

(** With both overrides given, the first statement of [project_photons]
    never raises: it writes one line to the log. *)
Lemma both_given_logs {num G : Type}
    (a : PhotonList.args num) (w : PhotonList.world num G) z d :
  PhotonList.redshift_new a = Some z ->
  PhotonList.dist_new a = Some d ->
  (match PhotonList.redshift_new a, PhotonList.dist_new a with
   | Some _, Some _ =>
       PhotonList.mylog PhotonList.ERROR
         "You may specify a new redshift or distance, but not both!"
   | _, _ => Monad.ret tt
   end) w
  = (inr tt,
     {| PhotonList.self := PhotonList.self w;
        PhotonList.prng := PhotonList.prng w;
        PhotonList.draws := PhotonList.draws w;
        PhotonList.log :=
          PhotonList.log w
          ++ [(PhotonList.ERROR,
               "You may specify a new redshift or distance, but not both!"%string)] |}).
Proof. intros -> ->. reflexivity. Qed.

(** ** Merging event lists *)

(** C7 fails on the code. The two operands have the same geometry and
    parameters and the same three fields, in different iteration orders;
    [left + right_reordered] stores under ["xpix"] the pixels of [left]
    followed by the energies of the other operand, and the two orders of the
    operands give different events. *)
Lemma C7_add_misaligned :
  EventList.__init__ (EventList.events Demo.left) Demo.detector = inr Demo.left
  /\ EventList.__init__ (EventList.events Demo.right_reordered) Demo.detector
     = inr Demo.right_reordered
  /\ exists ev ev',
       EventList.__add__ Demo.left Demo.right_reordered = inr ev
       /\ EventList.__add__ Demo.right_reordered Demo.left = inr ev'
       /\ EventList.events ev
          = [("xpix"%string, [of_Z 1; of_Z 6]);
             ("ypix"%string, [of_Z 2; of_Z 4]);
             ("eobs"%string, [of_Z 3; of_Z 5])]
       /\ EventList.events ev'
          = [("eobs"%string, [of_Z 6; of_Z 1]);
             ("xpix"%string, [of_Z 4; of_Z 2]);
             ("ypix"%string, [of_Z 5; of_Z 3])].
Proof.
split; [vm_compute; reflexivity |]. split; [vm_compute; reflexivity |].
eexists _, _. split; [vm_compute; reflexivity |].
split; [vm_compute; reflexivity |].
split; vm_compute; reflexivity.
Qed.

(** ** The positional pairing of [__add__] *)

Section Pairing.

Context {V : Type}.

Lemma get_None_notin (d : Dict.dict V) k :
  Dict.get d k = None <-> ~ In k (Dict.keys d).
Proof.
induction d as [| [k' v] d IH]; cbn.
- tauto.
- destruct (String.eqb_spec k' k) as [-> | Hne].
  + split; [discriminate | intros Hn; exfalso; apply Hn; left; reflexivity].
  + rewrite IH. split.
    * intros Hn [E | Hin]; [congruence | contradiction].
    * intros Hn Hin. apply Hn. right. exact Hin.
Qed.

Lemma set_fresh (d : Dict.dict V) k v :
  ~ In k (Dict.keys d) -> Dict.set d k v = d ++ [(k, v)].
Proof.
induction d as [| [k' v'] d IH]; cbn; intros Hn; [reflexivity |].
destruct (String.eqb_spec k' k) as [-> | Hne].
- exfalso. apply Hn. left. reflexivity.
- rewrite IH; [reflexivity |]. intros Hin. apply Hn. right. exact Hin.
Qed.

Lemma keys_app (d d' : Dict.dict V) :
  Dict.keys (d ++ d') = Dict.keys d ++ Dict.keys d'.
Proof. unfold Dict.keys. apply map_app. Qed.

End Pairing.

Section AddEvents.

Context {num : Type} `{Scalar num}.

Lemma paired_keys : forall (i1 i2 : list (string * list num)),
  Dict.keys (EventList.paired i1 i2)
  = firstn (List.length i2) (Dict.keys i1).
Proof.
unfold EventList.paired, Dict.keys.
induction i1 as [| [k v] i1 IH]; intros [| [k' v'] i2]; cbn; try reflexivity.
f_equal. apply IH.
Qed.

Lemma fold_set_fresh : forall (i1 i2 : list (string * list num)) acc,
  NoDup (Dict.keys acc ++ Dict.keys i1) ->
  fold_left (fun ev p => Dict.set ev (fst (fst p)) (snd (fst p) ++ snd (snd p)))
            (combine i1 i2) acc
  = acc ++ EventList.paired i1 i2.
Proof.
induction i1 as [| [k v] i1 IH]; intros i2 acc Hnd.
- cbn. rewrite app_nil_r. reflexivity.
- destruct i2 as [| [k' v'] i2]; [cbn; rewrite app_nil_r; reflexivity |].
  cbn [combine fold_left fst snd].
  assert (Hk : ~ In k (Dict.keys acc)).
  { intros Hin. cbn in Hnd. apply NoDup_remove_2 in Hnd. apply Hnd.
    apply in_or_app. left. exact Hin. }
  rewrite (set_fresh _ _ _ Hk). rewrite IH.
  + unfold EventList.paired. cbn. rewrite <- app_assoc. reflexivity.
  + rewrite keys_app. cbn. rewrite <- app_assoc. exact Hnd.
Qed.

(** With distinct keys in the left operand the loop of [__add__] builds the
    positional pairing. *)
Lemma add_events_paired (i1 i2 : list (string * list num)) :
  NoDup (Dict.keys i1) -> EventList.add_events i1 i2 = EventList.paired i1 i2.
Proof.
intros Hnd. unfold EventList.add_events. rewrite fold_set_fresh; auto.
Qed.

(** With the same keys in the same order the pairing is by key. *)
Lemma paired_get : forall (i1 i2 : list (string * list num)) k v1 v2,
  Dict.keys i1 = Dict.keys i2 ->
  Dict.get i1 k = Some v1 -> Dict.get i2 k = Some v2 ->
  Dict.get (EventList.paired i1 i2) k = Some (v1 ++ v2).
Proof.
unfold EventList.paired.
induction i1 as [| [k1 u1] i1 IH]; intros [| [k2 u2] i2] k v1 v2 Hk H1 H2;
  cbn in *; try discriminate.
inversion Hk as [[Ek Hk']]. subst k2.
destruct (String.eqb k1 k).
- inversion H1; inversion H2; subst. reflexivity.
- apply IH; assumption.
Qed.

Lemma paired_app_r : forall (i1 i2 extra : list (string * list num)),
  (List.length i1 <= List.length i2)%nat ->
  EventList.paired i1 (i2 ++ extra) = EventList.paired i1 i2.
Proof.
unfold EventList.paired.
induction i1 as [| p i1 IH]; intros [| q i2] extra Hl; cbn in *;
  try reflexivity; try lia.
f_equal. apply IH. lia.
Qed.

Lemma same_keys_get (i1 i2 : list (string * list num)) k v1 :
  Dict.keys i1 = Dict.keys i2 -> Dict.get i1 k = Some v1 ->
  exists v2, Dict.get i2 k = Some v2.
Proof.
intros Hk H1.
destruct (Dict.get i2 k) as [v2 |] eqn:E2; [eauto |].
apply get_None_notin in E2. rewrite <- Hk in E2.
apply get_None_notin in E2. congruence.
Qed.

(** [__init__] succeeds on other events that hold ["xpix"] when it does on
    the parameters. *)
Lemma init_other_events events params (ev : EventList.t num) events' xpix :
  EventList.__init__ events params = inr ev ->
  Dict.get events' "xpix" = Some xpix ->
  exists ev',
    EventList.__init__ events' params = inr ev'
    /\ EventList.events ev' = events'
    /\ EventList.parameters ev' = params
    /\ EventList.num_events ev' = List.length xpix.
Proof.
unfold EventList.__init__, EventList.ebind, EventList.lookup,
  EventList.as_arr, EventList.as_num.
intros E Hx. rewrite Hx.
destruct (Dict.get events "xpix"); [| discriminate].
destruct (Dict.get params "pix_center") as [[? | ? | ?] |]; try discriminate.
destruct (Dict.get params "sky_center") as [[? | ? | ?] |]; try discriminate.
destruct (Dict.get params "dtheta") as [[? | ? | ?] |]; try discriminate.
eexists. split; [reflexivity |]. cbn. auto.
Qed.

Lemma add_unfold (a b : EventList.t num) :
  EventList.same_wcs (EventList.wcs a) (EventList.wcs b) = true ->
  EventList.same_parameters (EventList.parameters a) (EventList.parameters b) = true ->
  EventList.__add__ a b
  = EventList.__init__ (EventList.add_events (EventList.items a) (EventList.items b))
      (EventList.parameters a).
Proof.
intros Hw Hp. unfold EventList.__add__, EventList.assert_same_wcs,
  EventList.validate_parameters. rewrite Hw, Hp. reflexivity.
Qed.

End AddEvents.

Section Cache.

Context {num : Type} `{Scalar num}.
Variable pix2world :
  EventList.WCS num -> list num -> list num -> list num * list num.

Lemma get_app {V} (d d' : Dict.dict V) k :
  Dict.get (d ++ d') k
  = match Dict.get d k with Some v => Some v | None => Dict.get d' k end.
Proof.
induction d as [| [k' v] d IH]; cbn; [reflexivity |].
destruct (String.eqb k' k); [reflexivity | exact IH].
Qed.

Lemma mem_false {V} (d : Dict.dict V) k :
  Dict.mem d k = false -> Dict.get d k = None.
Proof. unfold Dict.mem. destruct (Dict.get d k); [discriminate | reflexivity]. Qed.

(** The first read of ["xsky"] appends the two sky-coordinate fields to the
    events of the list and leaves its geometry and parameters alone. *)
Lemma getitem_xsky (b : EventList.t num) xp yp :
  Dict.get (EventList.events b) "xpix" = Some xp ->
  Dict.get (EventList.events b) "ypix" = Some yp ->
  Dict.mem (EventList.events b) "xsky" = false ->
  Dict.mem (EventList.events b) "ysky" = false ->
  let sky := pix2world (EventList.wcs b) xp yp in
  let r := EventList.__getitem__ pix2world "xsky" b in
  fst r = inr (fst sky)
  /\ EventList.events (snd r)
     = EventList.events b ++ [("xsky"%string, fst sky); ("ysky"%string, snd sky)]
  /\ EventList.wcs (snd r) = EventList.wcs b
  /\ EventList.parameters (snd r) = EventList.parameters b.
Proof.
intros Hx Hy Hxs Hys. cbv zeta.
assert (Hxs' := mem_false _ _ Hxs). assert (Hys' := mem_false _ _ Hys).
unfold EventList.__getitem__.
unfold Monad.bind, Monad.lift, Monad.gets, Monad.modify, Monad.ret,
  EventList.lookup.
rewrite !Hxs, !Hx, !Hy. cbn [negb andb String.eqb Ascii.eqb Bool.eqb orb].
destruct (pix2world (EventList.wcs b) xp yp) as [x y] eqn:Esky.
cbn [fst snd EventList.set_events EventList.events EventList.wcs
     EventList.parameters].
assert (E1 : Dict.set (EventList.events b) "xsky" x
             = EventList.events b ++ [("xsky"%string, x)]).
{ apply set_fresh. apply get_None_notin. exact Hxs'. }
assert (E2 : Dict.set (EventList.events b ++ [("xsky"%string, x)]) "ysky" y
             = (EventList.events b ++ [("xsky"%string, x)])
               ++ [("ysky"%string, y)]).
{ apply set_fresh. apply get_None_notin. rewrite get_app, Hys'. reflexivity. }
rewrite E1, E2, <- app_assoc. cbn [app].
rewrite get_app, Hxs'. cbn. auto.
Qed.

End Cache.

(** C10. [EventList.__add__] pairs the fields of its operands by position.
    For operands that pass the geometry and parameter checks, the left one
    built by the constructor with distinct keys: (1) the events of the sum
    are the positional pairing of the two item sequences; (2) when both hold
    the same keys in the same order, every key of the sum maps to the
    concatenation of the values of the two operands for that key; (3) when
    the right operand has had its sky coordinates read, the two cached
    fields are at the end of its events, and the sum is the one without
    them: the extra fields are dropped and no error is raised. *)
Theorem C10_positional_pairing {num : Type} `{Scalar num}
    (pix2world : EventList.WCS num -> list num -> list num -> list num * list num)
    (a b : EventList.t num) :
  EventList.__init__ (EventList.events a) (EventList.parameters a) = inr a ->
  NoDup (EventList.keys a) ->
  EventList.same_wcs (EventList.wcs a) (EventList.wcs b) = true ->
  EventList.same_parameters (EventList.parameters a) (EventList.parameters b) = true ->
  EventList.__add__ a b
  = EventList.__init__ (EventList.paired (EventList.items a) (EventList.items b))
      (EventList.parameters a)
  /\ (EventList.keys a = EventList.keys b ->
      exists ev,
        EventList.__add__ a b = inr ev
        /\ EventList.keys ev = EventList.keys a
        /\ forall k v1 v2,
             Dict.get (EventList.events a) k = Some v1 ->
             Dict.get (EventList.events b) k = Some v2 ->
             Dict.get (EventList.events ev) k = Some (v1 ++ v2))
  /\ (forall xp yp,
        Dict.get (EventList.events b) "xpix" = Some xp ->
        Dict.get (EventList.events b) "ypix" = Some yp ->
        Dict.mem (EventList.events b) "xsky" = false ->
        Dict.mem (EventList.events b) "ysky" = false ->
        (List.length (EventList.events a) <= List.length (EventList.events b))%nat ->
        let b' := snd (EventList.__getitem__ pix2world "xsky" b) in
        EventList.keys b' = EventList.keys b ++ ["xsky"; "ysky"]%string
        /\ EventList.__add__ a b' = EventList.__add__ a b).
Proof.
intros Ha Hnd Hw Hp.
assert (Hadd : EventList.__add__ a b
               = EventList.__init__
                   (EventList.paired (EventList.items a) (EventList.items b))
                   (EventList.parameters a)).
{ rewrite (add_unfold a b Hw Hp). rewrite add_events_paired by exact Hnd.
  reflexivity. }
split; [exact Hadd |]. split.
- intros Hk. unfold EventList.keys in Hk.
  assert (Hxa : exists xa, Dict.get (EventList.events a) "xpix" = Some xa).
  { revert Ha. unfold EventList.__init__, EventList.ebind, EventList.lookup.
    destruct (Dict.get (EventList.events a) "xpix") as [xa |];
      [eauto | discriminate]. }
  destruct Hxa as (xa & Hxa).
  destruct (same_keys_get _ _ _ _ Hk Hxa) as (xb & Hxb).
  pose proof (paired_get _ _ _ _ _ Hk Hxa Hxb) as Hx.
  destruct (init_other_events _ _ _ _ _ Ha Hx) as (ev & Ei & Eev & _).
  exists ev. rewrite Hadd. split; [exact Ei |]. split.
  + unfold EventList.keys. rewrite Eev. unfold EventList.items.
    rewrite paired_keys.
    replace (List.length (EventList.events b))
      with (List.length (Dict.keys (EventList.events a))).
    * apply firstn_all.
    * rewrite Hk. unfold Dict.keys. apply length_map.
  + intros k v1 v2 H1 H2. rewrite Eev. apply paired_get; assumption.
- intros xp yp Hx Hy Hxs Hys Hlen b'.
  destruct (getitem_xsky pix2world b xp yp Hx Hy Hxs Hys) as (_ & Eev & Ew & Epar).
  fold b' in Eev, Ew, Epar. split.
  + unfold EventList.keys. rewrite Eev, keys_app. reflexivity.
  + rewrite Hadd.
    rewrite (add_unfold a b') by (rewrite ?Ew, ?Epar; assumption).
    rewrite add_events_paired by exact Hnd.
    unfold EventList.items. rewrite Eev. rewrite paired_app_r by exact Hlen.
    reflexivity.
Qed.

Lemma C10_positional_pairing_witness :
  (exists ev,
     EventList.__add__ Demo.left Demo.right = inr ev
     /\ EventList.keys ev = EventList.keys Demo.left
     /\ forall k v1 v2,
          Dict.get (EventList.events Demo.left) k = Some v1 ->
          Dict.get (EventList.events Demo.right) k = Some v2 ->
          Dict.get (EventList.events ev) k = Some (v1 ++ v2))
  /\ EventList.keys (snd (EventList.__getitem__ Demo.pix2world "xsky" Demo.right))
     = ["xpix"; "ypix"; "eobs"; "xsky"; "ysky"]%string
  /\ EventList.__add__ Demo.left
       (snd (EventList.__getitem__ Demo.pix2world "xsky" Demo.right))
     = EventList.__add__ Demo.left Demo.right.
Proof.
assert (Hnd : NoDup (EventList.keys Demo.left)).
{ cbn. repeat constructor; cbn; intuition discriminate. }
assert (Hinit : EventList.__init__ (EventList.events Demo.left)
                  (EventList.parameters Demo.left) = inr Demo.left)
  by (vm_compute; reflexivity).
assert (Hw : EventList.same_wcs (EventList.wcs Demo.left)
               (EventList.wcs Demo.right) = true)
  by (vm_compute; reflexivity).
assert (Hp : EventList.same_parameters (EventList.parameters Demo.left)
               (EventList.parameters Demo.right) = true)
  by (vm_compute; reflexivity).
destruct (C10_positional_pairing Demo.pix2world Demo.left Demo.right
            Hinit Hnd Hw Hp) as (_ & H2 & H3).
split; [exact (H2 eq_refl) |].
exact (H3 [of_Z 4] [of_Z 5] eq_refl eq_refl eq_refl eq_refl ltac:(cbn; lia)).
Defined.

(** ** Image binning *)

Section HistogramSum.

Context {num : Type} `{Scalar num}.

Lemma row_sum_S f n : Np.row_sum f (S n) = (Np.row_sum f n + f n)%nat.
Proof.
unfold Np.row_sum. rewrite seq_S, map_app. cbn [map Nat.add].
generalize (map f (seq 0 n)). intros l.
induction l as [| v l IH]; cbn; lia.
Qed.

Lemma row_sum_add f g n :
  Np.row_sum (fun i => (f i + g i)%nat) n = (Np.row_sum f n + Np.row_sum g n)%nat.
Proof.
induction n as [| n IH]; [reflexivity |]. rewrite !row_sum_S, IH. lia.
Qed.

Lemma row_sum_zero n : Np.row_sum (fun _ => 0%nat) n = 0%nat.
Proof. induction n as [| n IH]; [reflexivity |]. rewrite row_sum_S, IH. lia. Qed.

Lemma row_sum_ext f g n :
  (forall i, f i = g i) -> Np.row_sum f n = Np.row_sum g n.
Proof.
intros E. induction n as [| n IH]; [reflexivity |]. rewrite !row_sum_S, IH, E.
reflexivity.
Qed.

(** One unit at position [k - 1] sums to one exactly when [1 <= k <= n]. *)
Lemma row_sum_unit k n :
  Np.row_sum (fun i => if Nat.eqb k (S i) then 1%nat else 0%nat) n
  = if Nat.leb 1 k && Nat.leb k n then 1%nat else 0%nat.
Proof.
induction n as [| n IH].
- destruct k; reflexivity.
- rewrite row_sum_S, IH.
  destruct (Nat.eqb_spec k (S n)), (Nat.leb_spec 1 k), (Nat.leb_spec k n),
    (Nat.leb_spec k (S n)); cbn [andb]; lia.
Qed.

Lemma sum2_rows (f : nat -> nat -> nat) nx ny :
  Np.sum2 (map (fun i => map (fun j => f i j) (seq 0 ny)) (seq 0 nx))
  = Np.row_sum (fun i => Np.row_sum (f i) ny) nx.
Proof.
unfold Np.sum2, Np.row_sum. generalize (seq 0 nx). intros l.
induction l as [| i l IH]; cbn; [reflexivity |]. rewrite IH. reflexivity.
Qed.

Lemma cell_count_cons xe ye (s : num * num) sample i j :
  Np.cell_count xe ye (s :: sample) i j
  = ((if Nat.eqb (Np.bin_number xe (fst s)) (S i)
          && Nat.eqb (Np.bin_number ye (snd s)) (S j)
      then 1%nat else 0%nat)
     + Np.cell_count xe ye sample i j)%nat.
Proof.
unfold Np.cell_count. cbn [filter].
destruct (Nat.eqb (Np.bin_number xe (fst s)) (S i)
          && Nat.eqb (Np.bin_number ye (snd s)) (S j)); reflexivity.
Qed.

(** The cells of the histogram sum to the number of samples that fall in
    a bin on both axes. *)
Lemma histogram_cells_sum xe ye (sample : list (num * num)) :
  Np.row_sum (fun i => Np.row_sum (Np.cell_count xe ye sample i) (List.length ye - 1))
          (List.length xe - 1)
  = List.length (filter (fun s => Np.in_core xe (fst s) && Np.in_core ye (snd s))
                        sample).
Proof.
set (nx := (List.length xe - 1)%nat). set (ny := (List.length ye - 1)%nat).
induction sample as [| s sample IH].
- cbn [filter List.length].
  rewrite (row_sum_ext _ (fun _ => 0%nat)); [apply row_sum_zero |].
  intros i. apply row_sum_zero.
- rewrite (row_sum_ext _
    (fun i => (Np.row_sum (fun j => if Nat.eqb (Np.bin_number xe (fst s)) (S i)
                                     && Nat.eqb (Np.bin_number ye (snd s)) (S j)
                                  then 1%nat else 0%nat) ny
               + Np.row_sum (Np.cell_count xe ye sample i) ny)%nat)).
  2:{ intros i. rewrite <- row_sum_add. apply row_sum_ext. intros j.
      apply cell_count_cons. }
  rewrite row_sum_add, IH. cbn [filter].
  assert (E : Np.row_sum (fun i => Np.row_sum
                (fun j => if Nat.eqb (Np.bin_number xe (fst s)) (S i)
                             && Nat.eqb (Np.bin_number ye (snd s)) (S j)
                          then 1%nat else 0%nat) ny) nx
              = if Np.in_core xe (fst s) && Np.in_core ye (snd s)
                then 1%nat else 0%nat).
  { rewrite (row_sum_ext _
      (fun i => if Nat.eqb (Np.bin_number xe (fst s)) (S i)
                then (if Nat.leb 1 (Np.bin_number ye (snd s))
                         && Nat.leb (Np.bin_number ye (snd s)) ny
                      then 1%nat else 0%nat)
                else 0%nat)).
    2:{ intros i. destruct (Nat.eqb (Np.bin_number xe (fst s)) (S i)); cbn [andb].
        - apply row_sum_unit.
        - apply row_sum_zero. }
    unfold Np.in_core. fold nx ny.
    destruct (Nat.leb 1 (Np.bin_number ye (snd s))
              && Nat.leb (Np.bin_number ye (snd s)) ny).
    - rewrite row_sum_unit. rewrite andb_true_r. reflexivity.
    - rewrite andb_false_r.
      rewrite (row_sum_ext _ (fun _ => 0%nat)); [apply row_sum_zero |].
      intros i. destruct (Nat.eqb _ _); reflexivity. }
  rewrite E.
  destruct (Np.in_core xe (fst s) && Np.in_core ye (snd s)); cbn; lia.
Qed.

Lemma histogram2d_sum x y xe ye Hm :
  Np.histogram2d x y xe ye = Some Hm ->
  Np.sum2 Hm
  = List.length (filter (fun s => Np.in_core xe (fst s) && Np.in_core ye (snd s))
                        (combine x y))
  /\ List.length Hm = (List.length xe - 1)%nat
  /\ Forall (fun row => List.length row = (List.length ye - 1)%nat) Hm.
Proof.
unfold Np.histogram2d. destruct (Nat.eqb (List.length x) (List.length y));
  [| discriminate].
intros E. inversion E as [E']. clear E. split; [| split].
- rewrite sum2_rows. apply histogram_cells_sum.
- rewrite length_map, length_seq. reflexivity.
- apply Forall_forall. intros row Hr. apply in_map_iff in Hr as (i & <- & _).
  rewrite length_map, length_seq. reflexivity.
Qed.

End HistogramSum.

(** *** The edges of the grid, over the rationals *)

Section GridEdges.

Open Scope Q_scope.

Variable n : Z.
Hypothesis n_pos : (1 <= n)%Z.

Let start : Q := EventList.half.
Let stop : Q := (of_Z n + EventList.half)%num.
Let step : Q := ((stop - start) / of_Z (n + 1 - 1))%num.

Lemma arange_S k : (0 <= k)%Z -> Np.arange (k + 1) = Np.arange k ++ [k].
Proof.
intros Hk. unfold Np.arange.
replace (Z.to_nat (k + 1)) with (S (Z.to_nat k)) by lia.
rewrite seq_S, map_app. cbn. rewrite Z2Nat.id by lia. reflexivity.
Qed.

Lemma linspace_grid :
  Np.linspace start stop (n + 1) = Some (grid_edges n).
Proof.
unfold Np.linspace.
destruct (Z.ltb_spec (n + 1) 0); [lia |].
destruct (Z.ltb_spec 1 (n + 1)); [| lia].
f_equal. unfold grid_edges. fold start stop step.
rewrite arange_S by lia. rewrite map_app. cbn [map].
rewrite removelast_last. reflexivity.
Qed.

Lemma start_val : start == 1 # 2.
Proof. reflexivity. Qed.

Lemma stop_val : stop == inject_Z n + (1 # 2).
Proof. unfold stop. cbn. unfold EventList.half. cbn. reflexivity. Qed.

Lemma step_val : step == 1.
Proof.
unfold step. cbn [of_Z sub div Scalar_Q].
replace (n + 1 - 1)%Z with n by lia.
rewrite stop_val, start_val.
assert (Hn : ~ inject_Z n == 0).
{ intros E. unfold Qeq in E. cbn in E. lia. }
field. exact Hn.
Qed.

Lemma grid_edges_length : List.length (grid_edges n) = S (Z.to_nat n).
Proof.
unfold grid_edges. cbv zeta. rewrite length_app, length_map, arange_length. cbn. lia.
Qed.

Lemma grid_edges_nth i :
  (i <= Z.to_nat n)%nat ->
  exists e, nth_error (grid_edges n) i = Some e
            /\ e == inject_Z (Z.of_nat i) + (1 # 2).
Proof.
intros Hi. unfold grid_edges. fold start stop step.
destruct (Nat.eq_dec i (Z.to_nat n)) as [-> | Hne].
- exists stop. split.
  + rewrite nth_error_app2 by (rewrite length_map, arange_length; lia).
    rewrite length_map, arange_length, Nat.sub_diag. reflexivity.
  + rewrite stop_val. rewrite Z2Nat.id by lia. reflexivity.
- exists (of_Z (Z.of_nat i) * step + start)%num. split.
  + rewrite nth_error_app1 by (rewrite length_map, arange_length; lia).
    unfold Np.arange. rewrite map_map.
    rewrite nth_error_map. rewrite nth_error_seq.
    destruct (Nat.ltb_spec i (Z.to_nat n)); [| lia]. reflexivity.
  + cbn [of_Z add mul Scalar_Q]. rewrite step_val, start_val. ring.
Qed.

Lemma grid_edges_last :
  last (map Some (grid_edges n)) None = Some stop.
Proof.
unfold grid_edges. cbv zeta. rewrite map_app. cbn [map]. apply last_last.
Qed.

End GridEdges.

Section GridCore.

Open Scope Q_scope.

Variable n : Z.
Hypothesis n_pos : (1 <= n)%Z.

Lemma rat_ltb_lt x y : Rat.ltb x y = true <-> x < y.
Proof.
unfold Rat.ltb. rewrite negb_true_iff. split.
- intros E. apply Qnot_le_lt. intros Hle. apply Qle_bool_iff in Hle. congruence.
- intros Hlt. destruct (Qle_bool y x) eqn:E; [| reflexivity].
  apply Qle_bool_iff in E. apply Qlt_not_le in Hlt. contradiction.
Qed.

Lemma rat_ltb_ge x y : Rat.ltb x y = false <-> y <= x.
Proof.
unfold Rat.ltb. rewrite negb_false_iff. apply Qle_bool_iff.
Qed.

Lemma inject_Z_of_nat_le i j :
  (i <= j)%nat -> inject_Z (Z.of_nat i) <= inject_Z (Z.of_nat j).
Proof. intros Hij. rewrite <- Zle_Qle. lia. Qed.

Lemma grid_above_mono v : forall i j,
  (i <= j)%nat ->
  Np.above Rat.ltb (grid_edges n) v i = true ->
  Np.above Rat.ltb (grid_edges n) v j = true.
Proof.
intros i j Hij. unfold Np.above.
destruct (Nat.le_gt_cases j (Z.to_nat n)) as [Hj | Hj].
- destruct (grid_edges_nth n n_pos i ltac:(lia)) as (ei & -> & Hei).
  destruct (grid_edges_nth n n_pos j Hj) as (ej & -> & Hej).
  rewrite !rat_ltb_lt. intros Hv.
  pose proof (inject_Z_of_nat_le i j Hij). rewrite Hei in Hv. rewrite Hej. lra.
- rewrite (proj2 (nth_error_None (grid_edges n) j)); [reflexivity |].
  rewrite grid_edges_length by exact n_pos. lia.
Qed.

(** A value falls in a bin of the grid exactly when it lies between the
    first and the last edge. *)
Lemma in_core_grid v :
  Np.in_core (grid_edges n) v
  = Qle_bool (1 # 2) v && Qle_bool v (inject_Z n + (1 # 2)).
Proof.
unfold Np.in_core, Np.bin_number.
rewrite grid_edges_last. rewrite grid_edges_length by exact n_pos.
change (@ltb Q Scalar_Q) with Rat.ltb. change (@eqb Q Scalar_Q) with Qeq_bool.
destruct (searchsorted_right_spec Rat.ltb (grid_edges n) v (grid_above_mono v))
  as (R1 & R2 & R3).
rewrite grid_edges_length in R1 by exact n_pos.
set (r := Np.searchsorted_right Rat.ltb (grid_edges n) v) in *.
destruct (grid_edges_nth n n_pos 0%nat ltac:(lia)) as (e0 & E0 & He0).
destruct (grid_edges_nth n n_pos (Z.to_nat n) ltac:(lia)) as (en & En & Hen).
rewrite Z2Nat.id in Hen by lia. cbn in He0. change (inject_Z 0) with 0 in He0.
assert (Hstop : (of_Z n + EventList.half)%num == inject_Z n + (1 # 2))
  by (apply stop_val).
assert (A0 : Np.above Rat.ltb (grid_edges n) v 0 = Rat.ltb v e0)
  by (unfold Np.above; rewrite E0; reflexivity).
assert (An : Np.above Rat.ltb (grid_edges n) v (Z.to_nat n) = Rat.ltb v en)
  by (unfold Np.above; rewrite En; reflexivity).
replace (S (Z.to_nat n) - 1)%nat with (Z.to_nat n) by lia.
destruct (Qle_bool (1 # 2) v) eqn:Elo.
- apply Qle_bool_iff in Elo.
  assert (Hr1 : (1 <= r)%nat).
  { destruct r as [| r']; [| lia]. specialize (R3 0%nat (Nat.le_refl _)).
    rewrite A0 in R3. apply rat_ltb_lt in R3. exfalso. lra. }
  destruct (Qle_bool v (inject_Z n + (1 # 2))) eqn:Ehi.
  + apply Qle_bool_iff in Ehi.
    destruct (Qeq_bool v (of_Z n + EventList.half)%num) eqn:Eeq.
    * assert (Hrn : r = S (Z.to_nat n)).
      { apply Qeq_bool_iff in Eeq.
        destruct (Nat.le_gt_cases r (Z.to_nat n)) as [Hle | Hgt]; [| lia].
        specialize (R3 (Z.to_nat n) Hle). rewrite An in R3.
        apply rat_ltb_lt in R3. exfalso. lra. }
      rewrite Hrn. replace (S (Z.to_nat n) - 1)%nat with (Z.to_nat n) by lia.
      destruct (Nat.leb_spec 1 (Z.to_nat n)); [| lia].
      rewrite Nat.leb_refl. reflexivity.
    * assert (Hrn : (r <= Z.to_nat n)%nat).
      { destruct (Nat.le_gt_cases r (Z.to_nat n)) as [Hle | Hgt]; [exact Hle |].
        specialize (R2 (Z.to_nat n) Hgt). rewrite An in R2.
        apply rat_ltb_ge in R2.
        assert (Hne : ~ v == (of_Z n + EventList.half)%num).
        { intros Hq. apply Qeq_bool_iff in Hq. congruence. }
        exfalso. apply Hne. lra. }
      destruct (Nat.leb_spec 1 r); [| lia].
      destruct (Nat.leb_spec r (Z.to_nat n)); [| lia]. reflexivity.
  + assert (Hhi : inject_Z n + (1 # 2) < v).
    { apply Qnot_le_lt. intros Hle. apply Qle_bool_iff in Hle. congruence. }
    assert (Hrn : r = S (Z.to_nat n)).
    { destruct (Nat.le_gt_cases r (Z.to_nat n)) as [Hle | Hgt]; [| lia].
      specialize (R3 (Z.to_nat n) Hle). rewrite An in R3.
      apply rat_ltb_lt in R3. exfalso. lra. }
    destruct (Qeq_bool v (of_Z n + EventList.half)%num) eqn:Eeq.
    * apply Qeq_bool_iff in Eeq. exfalso. lra.
    * rewrite Hrn. destruct (Nat.leb_spec (S (Z.to_nat n)) (Z.to_nat n)); [lia |].
      rewrite andb_false_r. reflexivity.
- assert (Hlo : v < 1 # 2).
  { apply Qnot_le_lt. intros Hle. apply Qle_bool_iff in Hle. congruence. }
  assert (Hr0 : r = 0%nat).
  { destruct r as [| r']; [reflexivity |].
    specialize (R2 0%nat ltac:(lia)). rewrite A0 in R2.
    apply rat_ltb_ge in R2. exfalso. lra. }
  assert (Hn : 1 <= inject_Z n) by (change 1 with (inject_Z 1); rewrite <- Zle_Qle; lia).
  destruct (Qeq_bool v (of_Z n + EventList.half)%num) eqn:Eeq.
  + apply Qeq_bool_iff in Eeq. exfalso. lra.
  + rewrite Hr0. reflexivity.
Qed.

End GridCore.

(** *** The steps of [write_fits_image] *)

Section ImageSteps.

Context {num : Type} `{Scalar num}.
Variable pix2world :
  EventList.WCS num -> list num -> list num -> list num * list num.

(** Reading a field that is present returns it and leaves the list alone. *)
Lemma getitem_present (s : EventList.t num) key v :
  Dict.get (EventList.events s) key = Some v ->
  EventList.__getitem__ pix2world key s = (inr v, s).
Proof.
intros Hk. unfold EventList.__getitem__, Monad.bind, Monad.gets, Monad.ret,
  Monad.lift, EventList.lookup.
unfold Dict.mem. rewrite Hk. cbn [negb andb]. rewrite Hk. reflexivity.
Qed.

Lemma map2_maps {A B C D} (f : B -> C -> D) (g : A -> B) (h : A -> C) l :
  Np.map2 f (map g l) (map h l) = map (fun x => f (g x) (h x)) l.
Proof. induction l as [| x l IH]; cbn; [reflexivity | rewrite IH; reflexivity]. Qed.

Lemma ones_map {A} (l : list A) :
  Np.ones (List.length l) = map (fun _ => true) l.
Proof.
unfold Np.ones. induction l as [| x l IH]; cbn; [reflexivity | rewrite IH; reflexivity].
Qed.

(** The mask of [write_fits_image] is [passes] on every energy. *)
Lemma energy_mask emin emax (eobs : list num) :
  Np.broadcast andb
    (EventList.mask_emin emin (match emin with None => [] | Some _ => eobs end)
       (List.length eobs))
    (EventList.mask_emax emax (match emax with None => [] | Some _ => eobs end)
       (List.length eobs))
  = Some (map (EventList.passes emin emax) eobs).
Proof.
assert (E : forall g h : num -> bool,
          Np.broadcast andb (map g eobs) (map h eobs)
          = Some (map (fun e => g e && h e) eobs)).
{ intros g h. rewrite broadcast_same by (rewrite !length_map; reflexivity).
  rewrite map2_maps. reflexivity. }
unfold EventList.mask_emin, EventList.mask_emax, EventList.passes.
destruct emin as [lo |], emax as [hi |]; rewrite ?ones_map; apply E.
Qed.

(** Masking the two pixel arrays and pairing what is left is filtering the
    events by the mask. *)
Lemma compress_pairs (p : num -> bool) : forall (xs ys es : list num),
  List.length xs = List.length es -> List.length ys = List.length es ->
  exists x y,
    Np.compress xs (map p es) = Some x
    /\ Np.compress ys (map p es) = Some y
    /\ List.length x = List.length y
    /\ forall c : num * num -> bool,
         List.length (filter c (combine x y))
         = List.length (filter (fun t => p (snd t) && c (fst t))
                               (combine (combine xs ys) es)).
Proof.
induction xs as [| vx xs IH]; intros [| vy ys] [| e es] Hx Hy;
  try discriminate.
- exists [], []. cbn. auto.
- cbn in Hx, Hy.
  destruct (IH ys es ltac:(lia) ltac:(lia)) as (x & y & Ex & Ey & Hl & Hc).
  cbn [map Np.compress]. rewrite Ex, Ey.
  destruct (p e) eqn:Ep.
  + exists (vx :: x), (vy :: y). repeat split; [cbn; lia |].
    intros c. cbn [combine filter fst snd]. rewrite Ep. cbn [andb].
    destruct (c (vx, vy)); cbn [List.length]; rewrite Hc; reflexivity.
  + exists x, y. repeat split; [exact Hl |].
    intros c. cbn [combine filter fst snd]. rewrite Ep. cbn [andb]. apply Hc.
Qed.

End ImageSteps.

(** C8, as amended. For an event list whose three fields have one entry per
    event, and a detector of [nx] by [ny] pixels with
    [nx = int(2*pix_center[0] - 1) >= 1] and [ny] likewise,
    [write_fits_image] bins the pixel coordinates of the events that pass
    the energy mask into a grid of [nx] by [ny] cells, and the cells sum to
    the number of events that pass the mask and lie on the grid,
    [0.5 <= xpix <= nx + 0.5] and [0.5 <= ypix <= ny + 0.5]. Events off the
    grid are not counted. Pixel coordinates and energies are exact
    rationals. *)
Theorem C8_image_counts
    (pix2world : EventList.WCS Q -> list Q -> list Q -> list Q * list Q)
    (ev : EventList.t Q) (emin emax : option Q)
    (xpix ypix eobs : list Q) (pc0 pc1 : Q) (pcs : list Q) (nx ny : Z) :
  Dict.get (EventList.events ev) "xpix" = Some xpix ->
  Dict.get (EventList.events ev) "ypix" = Some ypix ->
  Dict.get (EventList.events ev) "eobs" = Some eobs ->
  List.length xpix = EventList.num_events ev ->
  List.length ypix = EventList.num_events ev ->
  List.length eobs = EventList.num_events ev ->
  Dict.get (EventList.parameters ev) "pix_center"
  = Some (EventList.PArr (pc0 :: pc1 :: pcs)) ->
  trunc (of_Z 2 * pc0 - of_Z 1)%num = Some nx ->
  trunc (of_Z 2 * pc1 - of_Z 1)%num = Some ny ->
  1 <= nx -> 1 <= ny ->
  exists Hm,
    EventList.write_fits_image pix2world emin emax ev = (inr Hm, ev)
    /\ List.length Hm = Z.to_nat nx
    /\ Forall (fun row => List.length row = Z.to_nat ny) Hm
    /\ Np.sum2 Hm
       = List.length
           (filter (fun t => EventList.passes emin emax (snd t)
                             && EventList.in_grid nx ny (fst (fst t)) (snd (fst t)))
                   (combine (combine xpix ypix) eobs)).
Proof.
intros Hx Hy He Lx Ly Le Hpc Hnx Hny Pnx Pny.
destruct (compress_pairs (EventList.passes emin emax) xpix ypix eobs
            ltac:(congruence) ltac:(congruence))
  as (x & y & Ex & Ey & Hl & Hc).
assert (Hh : exists Hm,
          Np.histogram2d x y (grid_edges nx) (grid_edges ny) = Some Hm).
{ unfold Np.histogram2d. rewrite Hl, Nat.eqb_refl. eauto. }
destruct Hh as (Hm & EH). exists Hm. split.
- unfold EventList.write_fits_image.
  rewrite (bind_step _ _ ev ev ev) by reflexivity.
  rewrite (bind_step _ _ ev (match emin with None => [] | Some _ => eobs end) ev)
    by (destruct emin; [apply getitem_present; exact He | reflexivity]).
  rewrite (bind_step _ _ ev (match emax with None => [] | Some _ => eobs end) ev)
    by (destruct emax; [apply getitem_present; exact He | reflexivity]).
  rewrite <- Le. rewrite energy_mask.
  rewrite (bind_step _ _ ev (map (EventList.passes emin emax) eobs) ev)
    by reflexivity.
  rewrite (bind_step _ _ ev (pc0 :: pc1 :: pcs) ev)
    by (unfold Monad.lift, EventList.ebind, EventList.lookup; rewrite Hpc;
        reflexivity).
  rewrite (bind_step _ _ ev pc0 ev) by reflexivity.
  rewrite (bind_step _ _ ev nx ev)
    by (unfold Monad.lift, EventList.int; rewrite Hnx; reflexivity).
  rewrite (bind_step _ _ ev pc1 ev)
    by (change 1 with (Z.of_nat 1); rewrite item_nat by (cbn; lia); reflexivity).
  rewrite (bind_step _ _ ev ny ev)
    by (unfold Monad.lift, EventList.int; rewrite Hny; reflexivity).
  rewrite (bind_step _ _ ev (grid_edges nx) ev)
    by (rewrite (linspace_grid nx Pnx); reflexivity).
  rewrite (bind_step _ _ ev (grid_edges ny) ev)
    by (rewrite (linspace_grid ny Pny); reflexivity).
  rewrite (bind_step _ _ ev xpix ev) by (apply getitem_present; exact Hx).
  rewrite (bind_step _ _ ev x ev) by (rewrite Ex; reflexivity).
  rewrite (bind_step _ _ ev ypix ev) by (apply getitem_present; exact Hy).
  rewrite (bind_step _ _ ev y ev) by (rewrite Ey; reflexivity).
  rewrite EH. reflexivity.
- destruct (histogram2d_sum x y (grid_edges nx) (grid_edges ny) Hm EH)
    as (Hsum & Hlen & Hrows).
  rewrite !grid_edges_length in * by assumption.
  split; [rewrite Hlen; lia |]. split.
  + eapply Forall_impl; [| exact Hrows]. cbn. intros row ->. lia.
  + rewrite Hsum. rewrite Hc. f_equal. apply filter_ext. intros [[vx vy] e].
    cbn [fst snd]. f_equal. unfold EventList.in_grid.
    rewrite (in_core_grid nx Pnx), (in_core_grid ny Pny).
    rewrite andb_assoc. reflexivity.
Qed.

Lemma C8_image_counts_witness :
  exists Hm,
    EventList.write_fits_image (fun _ x y => (x, y)) (Some (inject_Z 4)) None
      Demo.off_grid
    = (inr Hm, Demo.off_grid)
    /\ List.length Hm = 3%nat
    /\ Forall (fun row => List.length row = 3%nat) Hm
    /\ Np.sum2 Hm = 0%nat.
Proof.
exact (C8_image_counts (fun _ x y => (x, y)) Demo.off_grid
         (Some (inject_Z 4)) None
         [inject_Z 1; inject_Z 100] [inject_Z 2; inject_Z 2]
         [inject_Z 3; inject_Z 6] (inject_Z 2) (inject_Z 2) [] 3 3
         eq_refl eq_refl eq_refl eq_refl eq_refl eq_refl eq_refl eq_refl eq_refl
         ltac:(lia) ltac:(lia)).
Defined.

(** C8 as stated fails. Of the two events of [off_grid], both pass the
    energy mask of a call without bounds, and the one at pixel (100, 2) is
    off the 3 x 3 grid: the histogram sums to one. *)
Lemma C8_counterexample :
  exists Hm eobs,
    fst (EventList.write_fits_image Demo.pix2world None None Demo.off_grid)
    = inr Hm
    /\ Dict.get (EventList.events (Demo.off_grid (num := float))) "eobs" = Some eobs
    /\ List.length (filter (EventList.passes None None) eobs) = 2%nat
    /\ Np.sum2 Hm = 1%nat.
Proof.
eexists _, _. split; [vm_compute; reflexivity |].
split; [reflexivity |]. split; vm_compute; reflexivity.
Qed.

(** * More of the photon list

    Properties of [project_photons] on a whole sample, of the container
    protocol, of [concatenate_photons] and of the two file methods. *)

(** ** Reading by index and writing in place *)

Lemma take_total {A} (a : list A) : forall idx,
  (forall i, In i idx -> 0 <= i < Z.of_nat (List.length a)) ->
  exists r, Np.take a idx = Some r /\ List.length r = List.length idx.
Proof.
induction idx as [| i idx IH]; intros Hr.
- exists []. split; reflexivity.
- destruct IH as (r & Er & Hl); [intros j Hj; apply Hr; right; exact Hj |].
  assert (Hi := Hr i (or_introl eq_refl)).
  destruct (Np.item a i) as [v |] eqn:Ei.
  + exists (v :: r). cbn. rewrite Ei, Er. split; [reflexivity | cbn; lia].
  + exfalso. unfold Np.item in Ei.
    destruct (Z.leb_spec 0 i); [| lia].
    destruct (Z.ltb_spec i (Z.of_nat (List.length a))); [| lia].
    cbn in Ei. apply nth_error_None in Ei. lia.
Qed.

Lemma take_seq {A} (a : list A) : forall n k,
  (k + n <= List.length a)%nat ->
  Np.take a (map Z.of_nat (seq k n)) = Some (firstn n (skipn k a)).
Proof.
induction n as [| n IH]; intros k Hk; [reflexivity |].
cbn [seq map Np.take].
rewrite item_nat by lia. rewrite IH by lia.
destruct (nth_error a k) as [v |] eqn:Ev.
- f_equal.
  rewrite <- (firstn_skipn k a) in Ev at 1.
  assert (Hlen : List.length (firstn k a) = k) by (rewrite length_firstn; lia).
  rewrite nth_error_app2 in Ev by lia. rewrite Hlen, Nat.sub_diag in Ev.
  destruct (skipn k a) as [| v' rest] eqn:Es; [discriminate |].
  cbn in Ev. inversion Ev; subst.
  cbn [firstn]. f_equal.
  replace (S k) with (1 + k)%nat by lia. rewrite <- skipn_skipn, Es. reflexivity.
- apply nth_error_None in Ev. lia.
Qed.

Lemma take_arange {A} (a : list A) n :
  (Z.to_nat n <= List.length a)%nat ->
  Np.take a (Np.arange n) = Some (firstn (Z.to_nat n) a).
Proof. intros Hn. unfold Np.arange. rewrite take_seq by lia. reflexivity. Qed.

Lemma ones_length n : List.length (Np.ones n) = n.
Proof. apply repeat_length. Qed.

Lemma inplace_same {A B} (f : A -> B -> A) a b :
  List.length a = List.length b -> Np.inplace f a b = Some (Np.map2 f a b).
Proof. intros E. unfold Np.inplace. rewrite E, Nat.eqb_refl. reflexivity. Qed.

(** ** The projection along an axis *)

Section FullSample.

Import PhotonList Monad.
Context {num G : Type} `{Scalar num} `{Sqrt num} `{Collaborators num G}.

Lemma bind_some {W A B} e (o : option A) (k : A -> M W B) (w : W) a :
  o = Some a -> bind (lift_opt e o) k w = k a w.
Proof. intros ->. reflexivity. Qed.

Lemma draw_n_length (one : G -> num * G) : forall n g,
  List.length (fst (draw_n one n g)) = n.
Proof.
induction n as [| n IH]; intros g; [reflexivity |].
cbn. destruct (one g) as [v g1]. specialize (IH g1).
destruct (draw_n one n g1) as [r g2]. cbn in *. f_equal. exact IH.
Qed.

Let offsets_draw (dt : string) (n : nat) : draw :=
  if String.eqb dt "cells" then DrawUniform n else DrawNormal n.

Lemma offsets_run dt n (w : world num G) :
  dt = "cells"%string \/ dt = "particles"%string ->
  exists v g,
    offsets dt n w = (inr (Some v), set_prng g (offsets_draw dt n) w)
    /\ List.length v = n.
Proof.
intros [-> | ->]; unfold offsets, offsets_draw; cbn [String.eqb Ascii.eqb Bool.eqb].
- unfold bind, prng_uniform.
  pose proof (draw_n_length (rng_uniform (- half)%num half) n (prng w)) as Hl.
  destruct (draw_n (rng_uniform (- half)%num half) n (prng w)) as [v g].
  exists v, g. split; [reflexivity | exact Hl].
- unfold bind, prng_normal.
  pose proof (draw_n_length (rng_normal (of_Z 0) one) n (prng w)) as Hl.
  destruct (draw_n (rng_normal (of_Z 0) one) n (prng w)) as [v g].
  exists v, g. split; [reflexivity | exact Hl].
Qed.

Lemma gather_run pl key cells col (w : world num G) :
  photons_get (photons pl) key = Some col ->
  (forall i, In i cells -> 0 <= i < Z.of_nat (List.length col)) ->
  exists r, gather pl key cells w = (inr r, w)
            /\ List.length r = List.length cells.
Proof.
intros Hk Hr. destruct (take_total col cells Hr) as (r & Er & Hl).
exists r. split; [| exact Hl].
unfold gather. rewrite (bind_some _ _ _ _ _ Hk).
rewrite Er. reflexivity.
Qed.

Lemma in_axes s : In s ["x"; "y"; "z"]%string ->
  exists ax cx cy vs,
    Dict.get axes_lookup s = Some ax
    /\ (forall ph : Photons num,
          photons_get ph (fst ax) = Some (cx ph)
          /\ photons_get ph (snd ax) = Some (cy ph)
          /\ photons_get ph ("v" ++ s) = Some (vs ph)
          /\ In (cx ph) [ph_x ph; ph_y ph; ph_z ph]
          /\ In (cy ph) [ph_x ph; ph_y ph; ph_z ph]
          /\ In (vs ph) [ph_vx ph; ph_vy ph; ph_vz ph]).
Proof.
intros [<- | [<- | [<- | []]]].
- exists ("y", "z")%string, (@ph_y num), (@ph_z num), (@ph_vx num).
  split; [reflexivity |]. intros ph. cbn. auto 10.
- exists ("z", "x")%string, (@ph_z num), (@ph_x num), (@ph_vy num).
  split; [reflexivity |]. intros ph. cbn. auto 10.
- exists ("x", "y")%string, (@ph_x num), (@ph_y num), (@ph_vz num).
  split; [reflexivity |]. intros ph. cbn. auto 10.
Qed.

Lemma set_prng_self g d (w : world num G) : self (set_prng g d w) = self w.
Proof. reflexivity. Qed.

Lemma project_axis_run (a : args num) pl s size cells delta (w : world num G)
    (ncells : nat) :
  DataType (parameters pl) = "cells"%string
  \/ DataType (parameters pl) = "particles"%string ->
  In s ["x"; "y"; "z"]%string ->
  Forall (fun col => List.length col = ncells)
         [ph_x (photons pl); ph_y (photons pl); ph_z (photons pl);
          ph_vx (photons pl); ph_vy (photons pl); ph_vz (photons pl)] ->
  (forall i, In i cells -> 0 <= i < Z.of_nat ncells) ->
  List.length cells = size -> List.length delta = size ->
  exists xsky ysky vz w',
    project_axis a pl s size cells delta w = (inr (xsky, ysky, vz), w')
    /\ List.length xsky = size /\ List.length ysky = size
    /\ self w' = self w
    /\ draws w' = draws w ++ [offsets_draw (DataType (parameters pl)) size;
                              offsets_draw (DataType (parameters pl)) size]
    /\ (no_shifting a = false ->
        exists v, vz = Some v /\ List.length v = ncells
                  /\ photons_get (photons pl) ("v" ++ s) = Some v).
Proof.
intros Hdt Hs Hcols Hcells Hlc Hld.
destruct (in_axes s Hs) as (ax & cx & cy & vs & Eax & Hph).
destruct (Hph (photons pl)) as (Ecx & Ecy & Evs & Icx & Icy & Ivs).
assert (Hlen : forall col,
          In col [ph_x (photons pl); ph_y (photons pl); ph_z (photons pl)]
          \/ In col [ph_vx (photons pl); ph_vy (photons pl); ph_vz (photons pl)] ->
          List.length col = ncells).
{ rewrite Forall_forall in Hcols. intros col [Hc | Hc]; apply Hcols; cbn in *;
    intuition. }
unfold project_axis.
destruct (offsets_run (DataType (parameters pl)) size w Hdt) as (xo & g1 & E1 & L1).
rewrite (bind_step _ _ _ _ _ E1).
destruct (offsets_run (DataType (parameters pl)) size
            (set_prng g1 (offsets_draw (DataType (parameters pl)) size) w) Hdt)
  as (yo & g2 & E2 & L2).
rewrite (bind_step _ _ _ _ _ E2).
set (w2 := set_prng g2 _ _).
rewrite (bind_some _ _ _ _ _ eq_refl).
rewrite (bind_some _ _ _ _ _ (inplace_same mul xo delta ltac:(lia))).
rewrite (bind_some _ _ _ _ _ eq_refl).
rewrite (bind_some _ _ _ _ _ (inplace_same mul yo delta ltac:(lia))).
rewrite (bind_some _ _ _ _ _ Eax).
destruct (gather_run pl (fst ax) cells (cx (photons pl)) w2 Ecx) as (px & Epx & Lpx).
{ intros i Hi. rewrite (Hlen _ (or_introl Icx)). apply Hcells, Hi. }
rewrite (bind_step _ _ _ _ _ Epx).
assert (Lx : List.length (Np.map2 mul xo delta) = size)
  by (rewrite map2_length; lia).
assert (Ly : List.length (Np.map2 mul yo delta) = size)
  by (rewrite map2_length; lia).
rewrite (bind_some _ _ _ _ _ (inplace_same add (Np.map2 mul xo delta) px ltac:(lia))).
rewrite (bind_some _ _ _ _ _ Eax).
destruct (gather_run pl (snd ax) cells (cy (photons pl)) w2 Ecy) as (py & Epy & Lpy).
{ intros i Hi. rewrite (Hlen _ (or_introl Icy)). apply Hcells, Hi. }
rewrite (bind_step _ _ _ _ _ Epy).
rewrite (bind_some _ _ _ _ _ (inplace_same add (Np.map2 mul yo delta) py ltac:(lia))).
assert (Hw2s : self w2 = self w) by reflexivity.
assert (Hw2d : draws w2
               = draws w ++ [offsets_draw (DataType (parameters pl)) size;
                             offsets_draw (DataType (parameters pl)) size]).
{ unfold w2. cbn. rewrite <- app_assoc. reflexivity. }
destruct (no_shifting a) eqn:Hns.
- eexists _, _, _, _. split; [reflexivity |].
  rewrite !map2_length by lia.
  repeat split; try lia; try assumption.
- rewrite (bind_some _ _ _ _ _ Evs).
  eexists _, _, _, _. split; [reflexivity |].
  rewrite !map2_length by lia.
  repeat split; try lia; try assumption.
  intros _. exists (vs (photons pl)). split; [reflexivity |].
  split; [apply Hlen; right; exact Ivs | exact Evs].
Qed.

End FullSample.

(** The sample of [Demo] is well formed. *)
Lemma sample_well_formed :
  Forall (fun c => 0 <= c) (PhotonList.NumberOfPhotons Demo.sample_photons)
  /\ Np.total (PhotonList.NumberOfPhotons Demo.sample_photons) < 2 ^ 64
  /\ Forall (fun col : list float =>
               List.length col
               = List.length (PhotonList.NumberOfPhotons Demo.sample_photons))
            [PhotonList.ph_x Demo.sample_photons;
             PhotonList.ph_y Demo.sample_photons;
             PhotonList.ph_z Demo.sample_photons;
             PhotonList.ph_dx Demo.sample_photons;
             PhotonList.ph_vx Demo.sample_photons;
             PhotonList.ph_vy Demo.sample_photons;
             PhotonList.ph_vz Demo.sample_photons].
Proof.
split; [| split].
- cbn. repeat constructor; lia.
- reflexivity.
- repeat constructor.
Defined.

(** ** A projection of the whole sample *)

Section FullSample2.

Import PhotonList Monad.
Context {num G : Type} `{Scalar num} `{Sqrt num} `{Collaborators num G}.

Lemma no_override_inv (a : args num) :
  no_override a = true ->
  exp_time_new a = None /\ area_new a = None
  /\ redshift_new a = None /\ dist_new a = None.
Proof.
unfold no_override.
destruct (exp_time_new a), (area_new a), (redshift_new a), (dist_new a);
  try discriminate; auto.
Qed.

Lemma owners_in_range counts n :
  Forall (fun c => 0 <= c) counts -> Np.total counts < 2 ^ 64 ->
  n = Np.total counts ->
  forall i, In i (obs_cells_of (Np.insert0 (Np.cumsum counts) 0) (Np.arange n)) ->
            0 <= i < Z.of_nat (List.length counts).
Proof.
intros Hc Hf -> i Hi. unfold obs_cells_of in Hi.
apply in_map_iff in Hi as (j & <- & Hj).
apply arange_range in Hj.
destruct (owner_range counts Hc Hf j Hj) as (o & -> & Ho & _). lia.
Qed.

(** X1. A call of [project_photons] along ["x"], ["y"] or ["z"], with no
    override of the exposure, the area, the redshift or the distance and
    without an absorption model, on a photon list whose columns have one
    entry per cell and whose energies are as many as the counts add up to,
    returns. It uses every photon: the events are the three columns
    [xpix], [ypix] and [eobs], in that order, each as long as the array of
    the energies; with [no_shifting] the observed energies are the
    energies times the scale factor 1. The photon list is left as it was,
    and the generator has been asked for exactly two arrays of that length:
    uniform ones for ["cells"], normal ones for ["particles"]. *)
Theorem project_photons_full_sample (a : args num) (w : world num G)
    (ph : Photons num) (par : Parameters num) (cosmo : num -> num -> num)
    (s : string) :
  self w = __init__ ph par cosmo ->
  Forall (fun c => 0 <= c) (NumberOfPhotons ph) ->
  Np.total (NumberOfPhotons ph) < 2 ^ 64 ->
  Forall (fun col => List.length col = List.length (NumberOfPhotons ph))
         [ph_x ph; ph_y ph; ph_z ph; ph_dx ph; ph_vx ph; ph_vy ph; ph_vz ph] ->
  Z.of_nat (List.length (Energy ph)) = Np.total (NumberOfPhotons ph) ->
  DataType par = "cells"%string \/ DataType par = "particles"%string ->
  no_override a = true ->
  absorb_model a = None ->
  normal a = NormalAxis s ->
  In s ["x"; "y"; "z"]%string ->
  exists ev w' xpix ypix eobs,
    project_photons a w = (inr ev, w')
    /\ EventList.events ev = [("xpix", xpix); ("ypix", ypix); ("eobs", eobs)]%string
    /\ EventList.num_events ev = List.length (Energy ph)
    /\ List.length xpix = List.length (Energy ph)
    /\ List.length ypix = List.length (Energy ph)
    /\ List.length eobs = List.length (Energy ph)
    /\ (no_shifting a = true ->
        eobs = map (fun e => (e * of_Z 1)%num) (Energy ph))
    /\ self w' = self w
    /\ draws w' = draws w
         ++ (if String.eqb (DataType par) "cells"
             then [DrawUniform (List.length (Energy ph));
                   DrawUniform (List.length (Energy ph))]
             else [DrawNormal (List.length (Energy ph));
                   DrawNormal (List.length (Energy ph))]).
Proof.
intros Hself Hc Hf Hcols HE Hdt Hno Habs Hnormal Hs.
destruct (no_override_inv a Hno) as (Hexp & Harea & Hred & Hdist).
set (counts := NumberOfPhotons ph) in *.
set (n := Np.sum counts).
assert (Hn : n = Np.total counts) by (apply sum_no_wrap; assumption).
assert (Hsize : Z.to_nat n = List.length (Energy ph)) by lia.
set (pl := __init__ ph par cosmo) in *.
set (cells := obs_cells_of (p_bins pl) (Np.arange n)).
assert (Hcells : forall i, In i cells -> 0 <= i < Z.of_nat (List.length counts))
  by (apply owners_in_range; assumption).
assert (Lcells : List.length cells = Z.to_nat n).
{ unfold cells, obs_cells_of. rewrite length_map. apply arange_length. }
rewrite Forall_forall in Hcols.
assert (Hdx : List.length (ph_dx ph) = List.length counts)
  by (apply Hcols; cbn; auto 10).
destruct (take_total (ph_dx ph) cells) as (delta & Edelta & Ldelta).
{ intros i Hi. rewrite Hdx. apply Hcells, Hi. }
remember (project_photons a w) as res eqn:E.
unfold project_photons in E. rewrite Hred in E.
rewrite (bind_step _ _ w tt w) in E by reflexivity.
rewrite (bind_step _ _ w (self w) w) in E by reflexivity.
rewrite Hself in E. fold pl in E. cbn [photons __init__] in E.
fold counts in E. fold n in E.
assert (Er : rescale a n w
             = (inr {| my_n_obs := n;
                       zobs := FiducialRedshift (parameters pl);
                       D_A := FiducialAngularDiameterDistance (parameters pl);
                       scale_factor := one;
                       out_parameters := [];
                       PhotonList.arf := None;
                       area := None |}, w)).
{ unfold rescale. rewrite (bind_step _ _ w (self w) w) by reflexivity.
  rewrite Hno, Hself. reflexivity. }
rewrite (bind_step _ _ _ _ _ Er) in E.
unfold project_selected in E.
cbv zeta in E.
cbn [my_n_obs scale_factor out_parameters D_A PhotonList.arf area zobs] in E.
set (w1 := {| self := self w; prng := prng w; draws := draws w;
              log := log w ++ [(INFO, "Total number of photons to use: %d"%string)] |}).
rewrite (bind_step _ _ w tt w1) in E by reflexivity.
assert (Esel : select_indices n (Np.sum (NumberOfPhotons (photons pl))) w1
               = (inr (Np.arange n), w1)).
{ unfold select_indices. change (Np.sum (NumberOfPhotons (photons pl))) with n.
  rewrite Z.eqb_refl. reflexivity. }
rewrite (bind_step _ _ _ _ _ Esel) in E.
fold cells in E.
change (ph_dx (photons pl)) with (ph_dx ph) in E.
rewrite (bind_some _ _ _ _ _ Edelta) in E.
rewrite Hnormal in E.
destruct (project_axis_run a pl s (Z.to_nat n) cells delta w1
            (List.length counts))
  as (xsky & ysky & vz & w2 & Eax & Lx & Ly & Hs2 & Hd2 & Hvz); try assumption.
{ apply Forall_forall. intros col Hcol. apply Hcols. cbn in *. intuition. }
{ lia. }
rewrite (bind_step _ _ _ _ _ Eax) in E. cbn [fst snd] in E.
assert (Etake : Np.take (Energy ph) (Np.arange n) = Some (Energy ph)).
{ rewrite take_arange by lia. rewrite Hsize, firstn_all. reflexivity. }
assert (Eobs : exists eobs,
          observed_energies a pl (Np.arange n) cells vz one w2 = (inr eobs, w2)
          /\ List.length eobs = List.length (Energy ph)
          /\ (no_shifting a = true ->
              eobs = map (fun e => (e * of_Z 1)%num) (Energy ph))).
{ unfold observed_energies. change (Energy (photons pl)) with (Energy ph).
  destruct (no_shifting a) eqn:Hns.
  - rewrite (bind_some _ _ _ _ _ Etake).
    eexists. split; [reflexivity |]. rewrite length_map. auto.
  - destruct (Hvz eq_refl) as (v & -> & Lv & _).
    destruct (take_total (map doppler_shift v) cells) as (sh & Esh & Lsh).
    { intros i Hi. rewrite length_map, Lv. apply Hcells, Hi. }
    rewrite (bind_step _ _ w2 (Np.map2 mul (Energy ph) sh) w2).
    2:{ rewrite (bind_some _ _ _ _ _ eq_refl).
        rewrite (bind_some _ _ _ _ _ Etake).
        rewrite (bind_some _ _ _ _ _ Esh).
        rewrite broadcast_same by lia. reflexivity. }
    eexists. split; [reflexivity |]. rewrite length_map, map2_length by lia.
    split; [reflexivity | discriminate]. }
destruct Eobs as (eobs & Eobs & Leobs & Hplain).
rewrite (bind_step _ _ _ _ _ Eobs) in E.
unfold absorption in E. rewrite Habs in E.
rewrite (bind_step _ _ w2 _ w2) in E by reflexivity.
unfold detection in E. cbn [out_parameters Dict.mem Dict.get negb] in E.
rewrite (bind_step _ _ w2 (Np.ones (List.length eobs)) w2) in E.
2:{ rewrite (bind_step _ _ w2 _ w2) by reflexivity.
    rewrite broadcast_same by reflexivity. rewrite map2_andb_ones. reflexivity. }
rewrite Leobs in E.
assert (Ex : Np.compress xsky (Np.ones (List.length (Energy ph))) = Some xsky)
  by (rewrite <- Hsize, <- Lx; apply compress_ones).
assert (Ey : Np.compress ysky (Np.ones (List.length (Energy ph))) = Some ysky)
  by (rewrite <- Hsize, <- Ly; apply compress_ones).
assert (Ee : Np.compress eobs (Np.ones (List.length (Energy ph))) = Some eobs)
  by (rewrite <- Leobs; apply compress_ones).
rewrite (bind_some _ _ _ _ _ Ex) in E.
rewrite (bind_some _ _ _ _ _ Ey) in E.
rewrite (bind_some _ _ _ _ _ Ee) in E.
set (w3 := {| self := self w2; prng := prng w2; draws := draws w2;
              log := log w2 ++ [(INFO, "Total number of observed photons: %d"%string)] |}).
rewrite (bind_step _ _ w2 tt w3) in E by reflexivity.
unfold lift, event_parameters, EventList.__init__ in E.
cbn [Dict.set Dict.get String.eqb Ascii.eqb Bool.eqb EventList.lookup
     EventList.ebind EventList.as_arr EventList.as_num out_parameters] in E.
subst res.
eexists _, _, _, _, _. split; [reflexivity |].
cbn [EventList.events EventList.num_events].
split; [reflexivity |].
rewrite !length_map.
split; [lia |]. split; [lia |]. split; [lia |]. split; [exact Leobs |].
split; [exact Hplain |].
split; [exact Hs2 |].
cbn [draws w3]. rewrite Hd2. cbn [draws w1].
cbn [parameters pl __init__]. rewrite Hsize.
destruct (String.eqb (DataType par) "cells"); reflexivity.
Qed.

End FullSample2.

Lemma project_photons_full_sample_witness :
  exists ev w',
    PhotonList.project_photons (Demo.plain true) (Demo.start 7) = (inr ev, w')
    /\ EventList.num_events ev = 100%nat
    /\ Dict.get (EventList.events ev) "eobs"
       = Some (map (fun e => (e * of_Z 1)%num)
                   (PhotonList.Energy Demo.sample_photons))
    /\ PhotonList.draws w'
       = [PhotonList.DrawUniform 100; PhotonList.DrawUniform 100].
Proof.
destruct sample_well_formed as (Hc & Hf & Hl).
destruct (project_photons_full_sample (Demo.plain true) (Demo.start 7)
            Demo.sample_photons Demo.sample_parameters Demo.sample_cosmo "z"
            eq_refl Hc Hf Hl eq_refl (or_introl eq_refl) eq_refl eq_refl eq_refl
            (or_intror (or_intror (or_introl eq_refl))))
  as (ev & w' & xpix & ypix & eobs & E & Eev & Enum & _ & _ & _ & Hplain & _ & Hd).
exists ev, w'. split; [exact E |]. split; [exact Enum |].
split; [| exact Hd].
rewrite Eev, (Hplain eq_refl). reflexivity.
Defined.

(** ** Axes and data types that the projection does not know *)

Section AxisErrors.

Import PhotonList Monad.
Context {num G : Type} `{Scalar num} `{Sqrt num} `{Collaborators num G}.

Lemma bind_raise {W A B} (c : M W A) (k : A -> M W B) w e w' :
  c w = (inl e, w') -> bind c k w = (inl e, w').
Proof. intros E. unfold bind. rewrite E. reflexivity. Qed.

(** Up to the projection along the axis, a call without overrides only
    logs one line: an exception of the projection is the exception of the
    call. *)
Lemma project_photons_axis_error (a : args num) (w : world num G)
    (ph : Photons num) (par : Parameters num) (cosmo : num -> num -> num)
    (s : string) :
  self w = __init__ ph par cosmo ->
  Forall (fun c => 0 <= c) (NumberOfPhotons ph) ->
  Np.total (NumberOfPhotons ph) < 2 ^ 64 ->
  List.length (ph_dx ph) = List.length (NumberOfPhotons ph) ->
  no_override a = true ->
  normal a = NormalAxis s ->
  exists cells delta w1,
    List.length cells = Z.to_nat (Np.total (NumberOfPhotons ph))
    /\ List.length delta = Z.to_nat (Np.total (NumberOfPhotons ph))
    /\ self w1 = self w /\ prng w1 = prng w /\ draws w1 = draws w
    /\ forall e w2,
         project_axis a (__init__ ph par cosmo) s
           (Z.to_nat (Np.total (NumberOfPhotons ph))) cells delta w1
         = (inl e, w2) ->
         project_photons a w = (inl e, w2).
Proof.
intros Hself Hc Hf Hdx Hno Hnormal.
destruct (no_override_inv a Hno) as (Hexp & Harea & Hred & Hdist).
set (counts := NumberOfPhotons ph) in *.
set (n := Np.sum counts).
assert (Hn : n = Np.total counts) by (apply sum_no_wrap; assumption).
set (pl := __init__ ph par cosmo) in *.
set (cells := obs_cells_of (p_bins pl) (Np.arange n)).
assert (Hcells : forall i, In i cells -> 0 <= i < Z.of_nat (List.length counts))
  by (apply owners_in_range; assumption).
assert (Lcells : List.length cells = Z.to_nat n).
{ unfold cells, obs_cells_of. rewrite length_map. apply arange_length. }
destruct (take_total (ph_dx ph) cells) as (delta & Edelta & Ldelta).
{ intros i Hi. rewrite Hdx. apply Hcells, Hi. }
set (w1 := {| self := self w; prng := prng w; draws := draws w;
              log := log w ++ [(INFO, "Total number of photons to use: %d"%string)] |}).
exists cells, delta, w1.
split; [lia |]. split; [lia |].
split; [reflexivity |]. split; [reflexivity |]. split; [reflexivity |].
intros e w2 Eax.
unfold project_photons. rewrite Hred.
rewrite (bind_step _ _ w tt w) by reflexivity.
rewrite (bind_step _ _ w (self w) w) by reflexivity.
rewrite Hself. fold pl. cbn [photons __init__]. fold counts. fold n.
assert (Er : rescale a n w
             = (inr {| my_n_obs := n;
                       zobs := FiducialRedshift (parameters pl);
                       D_A := FiducialAngularDiameterDistance (parameters pl);
                       scale_factor := one;
                       out_parameters := [];
                       PhotonList.arf := None;
                       area := None |}, w)).
{ unfold rescale. rewrite (bind_step _ _ w (self w) w) by reflexivity.
  rewrite Hno, Hself. reflexivity. }
rewrite (bind_step _ _ _ _ _ Er).
unfold project_selected. cbv zeta.
cbn [my_n_obs scale_factor out_parameters D_A PhotonList.arf area zobs].
rewrite (bind_step _ _ w tt w1) by reflexivity.
assert (Esel : select_indices n (Np.sum (NumberOfPhotons (photons pl))) w1
               = (inr (Np.arange n), w1)).
{ unfold select_indices. change (Np.sum (NumberOfPhotons (photons pl))) with n.
  rewrite Z.eqb_refl. reflexivity. }
rewrite (bind_step _ _ _ _ _ Esel).
fold cells. change (ph_dx (photons pl)) with (ph_dx ph).
rewrite (bind_some _ _ _ _ _ Edelta).
rewrite Hnormal. rewrite Hn.
apply bind_raise. exact Eax.
Qed.

(** X2. An axis name that [axes_lookup] does not have ends the call in
    [KeyError] of that name. The error is met at line 590, after lines
    582-587: the two arrays of offsets have been drawn by then. *)
Theorem project_photons_unknown_axis (a : args num) (w : world num G)
    (ph : Photons num) (par : Parameters num) (cosmo : num -> num -> num)
    (s : string) :
  self w = __init__ ph par cosmo ->
  Forall (fun c => 0 <= c) (NumberOfPhotons ph) ->
  Np.total (NumberOfPhotons ph) < 2 ^ 64 ->
  List.length (ph_dx ph) = List.length (NumberOfPhotons ph) ->
  DataType par = "cells"%string \/ DataType par = "particles"%string ->
  no_override a = true ->
  normal a = NormalAxis s ->
  Dict.get axes_lookup s = None ->
  let size := Z.to_nat (Np.total (NumberOfPhotons ph)) in
  exists w',
    project_photons a w = (inl (KeyError s), w')
    /\ self w' = self w
    /\ draws w' = draws w
         ++ (if String.eqb (DataType par) "cells"
             then [DrawUniform size; DrawUniform size]
             else [DrawNormal size; DrawNormal size]).
Proof.
intros Hself Hc Hf Hdx Hdt Hno Hnormal Hs size.
destruct (project_photons_axis_error a w ph par cosmo s Hself Hc Hf Hdx Hno Hnormal)
  as (cells & delta & w1 & Lc & Ld & Hs1 & Hp1 & Hd1 & Hrun).
fold size in Lc, Ld, Hrun.
set (pl := __init__ ph par cosmo) in *.
destruct (offsets_run (DataType (parameters pl)) size w1 Hdt) as (xo & g1 & E1 & L1).
set (d := if String.eqb (DataType (parameters pl)) "cells"
          then DrawUniform size else DrawNormal size) in *.
destruct (offsets_run (DataType (parameters pl)) size (set_prng g1 d w1) Hdt)
  as (yo & g2 & E2 & L2).
fold d in E2.
exists (set_prng g2 d (set_prng g1 d w1)).
split; [| split].
- apply Hrun. unfold project_axis.
  rewrite (bind_step _ _ _ _ _ E1).
  rewrite (bind_step _ _ _ _ _ E2).
  rewrite (bind_some _ _ _ _ _ eq_refl).
  rewrite (bind_some _ _ _ _ _ (inplace_same mul xo delta ltac:(lia))).
  rewrite (bind_some _ _ _ _ _ eq_refl).
  rewrite (bind_some _ _ _ _ _ (inplace_same mul yo delta ltac:(lia))).
  rewrite Hs. reflexivity.
- cbn. exact Hs1.
- cbn. rewrite Hd1, <- app_assoc. unfold d. cbn [parameters pl __init__].
  destruct (String.eqb (DataType par) "cells"); reflexivity.
Qed.


End AxisErrors.

Lemma project_photons_unknown_axis_witness :
  exists w',
    PhotonList.project_photons (Demo.with_normal "w" (Demo.plain true))
      (Demo.start 7)
    = (inl (KeyError "w"), w')
    /\ PhotonList.draws w'
       = [PhotonList.DrawUniform 100; PhotonList.DrawUniform 100].
Proof.
destruct sample_well_formed as (Hc & Hf & _).
destruct (project_photons_unknown_axis (Demo.with_normal "w" (Demo.plain true))
            (Demo.start 7) Demo.sample_photons Demo.sample_parameters
            Demo.sample_cosmo "w" eq_refl Hc Hf eq_refl (or_introl eq_refl)
            eq_refl eq_refl eq_refl)
  as (w' & E & _ & Hd).
exists w'. split; [exact E | exact Hd].
Defined.


(** ** The event list of a projection *)

Lemma get_set_same {V} (d : Dict.dict V) k v : Dict.get (Dict.set d k v) k = Some v.
Proof.
induction d as [| [k' v'] d IH]; cbn.
- rewrite String.eqb_refl. reflexivity.
- destruct (String.eqb k' k) eqn:E; cbn; rewrite E; [reflexivity | exact IH].
Qed.

Lemma get_set_other {V} (d : Dict.dict V) k v k' :
  k <> k' -> Dict.get (Dict.set d k v) k' = Dict.get d k'.
Proof.
intros Hk. induction d as [| [k0 v0] d IH]; cbn.
- apply String.eqb_neq in Hk. rewrite Hk. reflexivity.
- destruct (String.eqb k0 k) eqn:E; cbn.
  + apply String.eqb_eq in E. subst k0.
    apply String.eqb_neq in Hk. rewrite Hk. reflexivity.
  + destruct (String.eqb k0 k'); [reflexivity | exact IH].
Qed.

Section Columns.

Import PhotonList Monad.
Context {num G : Type} `{Scalar num} `{Sqrt num} `{Collaborators num G}.

(** The columns and the reference pixel of the events of a call that
    returns. *)
Lemma project_photons_events (a : args num) (w : world num G) ev w' :
  project_photons a w = (inr ev, w') ->
  exists xpix ypix eobs,
    EventList.events ev = [("xpix", xpix); ("ypix", ypix); ("eobs", eobs)]%string
    /\ List.length xpix = EventList.num_events ev
    /\ List.length ypix = EventList.num_events ev
    /\ List.length eobs = EventList.num_events ev
    /\ EventList.crpix (EventList.wcs ev)
       = [(half * of_Z (Dimension (parameters (self w)) + 1))%num;
          (half * of_Z (Dimension (parameters (self w)) + 1))%num]
    /\ Dict.get (EventList.parameters ev) "pix_center"
       = Some (EventList.PArr (EventList.crpix (EventList.wcs ev))).
Proof.
intros E.
apply project_photons_inr in E as (r & sky & w1 & _ & E).
unfold project_selected in E.
apply bind_inr in E as (? & ? & _ & E).
apply bind_inr in E as (idxs & ? & _ & E).
apply bind_inr in E as (delta & ? & _ & E).
apply bind_inr in E as (sky_vz & w2 & _ & E).
apply bind_inr in E as (eobs & w3 & _ & E).
apply bind_inr in E as (not_abs & ? & _ & E).
apply bind_inr in E as (detected & ? & _ & E).
apply bind_inr in E as (xs & ? & Exs & E).
apply bind_inr in E as (ys & ? & Eys & E).
apply bind_inr in E as (es & ? & Ees & E).
apply lift_opt_inr in Exs as (Exs & _).
apply lift_opt_inr in Eys as (Eys & _).
apply lift_opt_inr in Ees as (Ees & _).
apply bind_inr in E as (? & ? & _ & E).
apply compress_length in Exs as (_ & Lx).
apply compress_length in Eys as (_ & Ly).
apply compress_length in Ees as (_ & Le).
unfold lift in E. inversion E as [[Ei Ew]]. clear E.
apply init_derived in Ei
  as (xpix & pc & sc & dt & Ex & Epc & _ & _ & Eev & Epar & Enum & Ewcs).
cbn in Ex. inversion Ex; subst xpix. clear Ex.
unfold event_parameters in Epc.
rewrite get_set_other, get_set_same in Epc by discriminate.
inversion Epc; subst pc. clear Epc.
eexists _, _, _. split; [exact Eev |].
rewrite Enum, Ewcs, Epar, !length_map. cbn [EventList.crpix].
split; [reflexivity |]. split; [lia |]. split; [lia |].
split; [reflexivity |].
unfold event_parameters.
rewrite get_set_other, get_set_same by discriminate. reflexivity.
Qed.

(** X4. Whatever the arguments, the event list of a call that returns holds
    exactly the columns [xpix], [ypix] and [eobs], in that order and of one
    length, which is [num_events]. Its reference pixel is
    [0.5 * (nx + 1)] on both axes, for [nx] the [Dimension] of the photon
    list, and it is the parameter ["pix_center"]. *)
Theorem project_photons_columns (a : args num) (w : world num G) ev w' :
  project_photons a w = (inr ev, w') ->
  exists xpix ypix eobs,
    EventList.events ev = [("xpix", xpix); ("ypix", ypix); ("eobs", eobs)]%string
    /\ List.length xpix = EventList.num_events ev
    /\ List.length ypix = EventList.num_events ev
    /\ List.length eobs = EventList.num_events ev
    /\ EventList.crpix (EventList.wcs ev)
       = [(half * of_Z (Dimension (parameters (self w)) + 1))%num;
          (half * of_Z (Dimension (parameters (self w)) + 1))%num]
    /\ Dict.get (EventList.parameters ev) "pix_center"
       = Some (EventList.PArr (EventList.crpix (EventList.wcs ev))).
Proof. exact (project_photons_events a w ev w'). Qed.

End Columns.

Lemma project_photons_columns_witness :
  exists ev w' xpix ypix eobs,
    PhotonList.project_photons (Demo.with_area 500 (Demo.plain true)) (Demo.start 7)
    = (inr ev, w')
    /\ EventList.events ev = [("xpix", xpix); ("ypix", ypix); ("eobs", eobs)]%string
    /\ List.length xpix = EventList.num_events ev
    /\ List.length ypix = EventList.num_events ev
    /\ List.length eobs = EventList.num_events ev.
Proof.
destruct (PhotonList.project_photons (Demo.with_area 500 (Demo.plain true))
            (Demo.start 7)) as [[e | ev] w'] eqn:E.
- exfalso. vm_compute in E. discriminate E.
- destruct (project_photons_columns _ _ _ _ E)
    as (xpix & ypix & eobs & Eev & Lx & Ly & Le & _).
  exists ev, w', xpix, ypix, eobs. auto.
Defined.

Lemma linspace_length {num} `{Scalar num} (lo hi : num) n :
  0 <= n ->
  exists l, Np.linspace lo hi n = Some l /\ List.length l = Z.to_nat n.
Proof.
intros Hn. unfold Np.linspace.
destruct (Z.ltb_spec n 0); [lia |].
eexists. split; [reflexivity |].
destruct (Z.ltb_spec 1 n).
- rewrite length_app. cbn [List.length].
  assert (Hl : List.length (map (fun i => (of_Z i * ((hi - lo) / of_Z (n - 1)) + lo)%num)
                              (Np.arange n)) = Z.to_nat n)
    by (rewrite length_map; apply arange_length).
  destruct (map _ (Np.arange n)) as [| v l] eqn:El using rev_ind.
  + cbn in Hl. lia.
  + rewrite removelast_last. rewrite length_app in Hl. cbn in Hl. lia.
- rewrite length_map. apply arange_length.
Qed.

Lemma filter_length_le {A} (p : A -> bool) l :
  (List.length (filter p l) <= List.length l)%nat.
Proof.
induction l as [| v l IH]; cbn; [lia |]. destruct (p v); cbn; lia.
Qed.

Section Image.

Import PhotonList Monad.
Context {num G : Type} `{Scalar num} `{Sqrt num} `{Collaborators num G}.
Variable pix2world :
  EventList.WCS num -> list num -> list num -> list num * list num.

(** X5. [write_fits_image] on the events of a projection, without energy
    bounds: when [int(2 * crpix - 1)] gives back the [Dimension] [nx] of
    the photon list, the image is [nx] by [nx], it counts no more events
    than the list has, and the event list is not changed. *)
Theorem projection_image (a : args num) (w : world num G) ev w' :
  project_photons a w = (inr ev, w') ->
  let nx := Dimension (parameters (self w)) in
  0 <= nx ->
  trunc (of_Z 2 * (half * of_Z (nx + 1)) - of_Z 1)%num = Some nx ->
  exists image,
    EventList.write_fits_image pix2world None None ev = (inr image, ev)
    /\ List.length image = Z.to_nat nx
    /\ Forall (fun row => List.length row = Z.to_nat nx) image
    /\ (Np.sum2 image <= EventList.num_events ev)%nat.
Proof.
intros E nx Hnx Htrunc.
destruct (project_photons_events a w ev w' E)
  as (xpix & ypix & eobs & Eev & Lx & Ly & Le & Ecr & Epc).
rewrite Ecr in Epc. fold nx in Epc.
destruct (linspace_length EventList.half (of_Z nx + EventList.half)%num (nx + 1))
  as (edges & Eedges & Ledges); [lia |].
assert (Ex : EventList.__getitem__ pix2world "xpix" ev = (inr xpix, ev))
  by (apply getitem_present; rewrite Eev; reflexivity).
assert (Ey : EventList.__getitem__ pix2world "ypix" ev = (inr ypix, ev))
  by (apply getitem_present; rewrite Eev; reflexivity).
destruct (Np.histogram2d xpix ypix edges edges) as [image |] eqn:Eh.
2:{ unfold Np.histogram2d in Eh. rewrite Lx, Ly, Nat.eqb_refl in Eh. discriminate. }
exists image.
destruct (histogram2d_sum _ _ _ _ _ Eh) as (Hsum & Hlen & Hrows).
rewrite Ledges in Hlen, Hrows.
replace (Z.to_nat (nx + 1) - 1)%nat with (Z.to_nat nx) in Hlen, Hrows by lia.
split; [| split; [exact Hlen | split; [exact Hrows |]]].
- unfold EventList.write_fits_image.
  rewrite (bind_step _ _ ev ev ev) by reflexivity.
  rewrite (bind_step _ _ ev [] ev) by reflexivity.
  rewrite (bind_step _ _ ev [] ev) by reflexivity.
  cbn [EventList.mask_emin EventList.mask_emax].
  rewrite (bind_some _ _ _ _ _ (broadcast_same andb _ _ eq_refl)).
  rewrite map2_andb_ones.
  rewrite (bind_step _ _ ev [(half * of_Z (nx + 1))%num; (half * of_Z (nx + 1))%num] ev).
  2:{ unfold lift, EventList.lookup, EventList.ebind. rewrite Epc. reflexivity. }
  rewrite (bind_some _ _ _ _ _
             (eq_refl : Np.item [(half * of_Z (nx + 1))%num;
                                 (half * of_Z (nx + 1))%num] 0 = Some _)).
  rewrite (bind_step _ _ ev nx ev).
  2:{ unfold lift, EventList.int. rewrite Htrunc. reflexivity. }
  rewrite (bind_some _ _ _ _ _
             (eq_refl : Np.item [(half * of_Z (nx + 1))%num;
                                 (half * of_Z (nx + 1))%num] 1 = Some _)).
  rewrite (bind_step _ _ ev nx ev).
  2:{ unfold lift, EventList.int. rewrite Htrunc. reflexivity. }
  rewrite (bind_some _ _ _ _ _ Eedges).
  rewrite (bind_some _ _ _ _ _ Eedges).
  rewrite (bind_step _ _ _ _ _ Ex).
  rewrite <- Lx at 1. rewrite (bind_some _ _ _ _ _ (compress_ones xpix)).
  rewrite (bind_step _ _ _ _ _ Ey).
  rewrite <- Ly. rewrite (bind_some _ _ _ _ _ (compress_ones ypix)).
  rewrite Eh. reflexivity.
- rewrite Hsum. etransitivity; [apply filter_length_le |].
  rewrite length_combine, Lx, Ly. lia.
Qed.

End Image.

Lemma projection_image_witness :
  exists ev w' image,
    PhotonList.project_photons (Demo.plain true) (Demo.start 7) = (inr ev, w')
    /\ EventList.write_fits_image Demo.pix2world None None ev = (inr image, ev)
    /\ List.length image = 16%nat
    /\ Forall (fun row => List.length row = 16%nat) image.
Proof.
destruct (PhotonList.project_photons (Demo.plain true) (Demo.start 7))
  as [[e | ev] w'] eqn:E.
- exfalso. vm_compute in E. discriminate E.
- destruct (projection_image Demo.pix2world _ _ _ _ E ltac:(cbn; lia)
              ltac:(vm_compute; reflexivity))
    as (image & Ei & Hl & Hr & _).
  exists ev, w', image. auto.
Defined.

(** ** The energies cell by cell *)

Lemma try_map_ext {A B} (f : A -> exn + B) (g : A -> B) : forall l,
  (forall a, In a l -> f a = inr (g a)) ->
  Monad.try_map f l = inr (map g l).
Proof.
induction l as [| a l IH]; intros Hf; [reflexivity |].
cbn. rewrite (Hf a (or_introl eq_refl)).
rewrite IH by (intros b Hb; apply Hf; right; exact Hb). reflexivity.
Qed.

Lemma try_map_raises {A B} (f : A -> exn + B) e : forall l a,
  In a l -> (forall b, In b l -> f b = inl e \/ exists v, f b = inr v) ->
  f a = inl e -> Monad.try_map f l = inl e.
Proof.
induction l as [| b l IH]; intros a Ha Hall Hfa; [contradiction |].
cbn. destruct (Hall b (or_introl eq_refl)) as [Eb | (v & Eb)]; rewrite Eb.
- reflexivity.
- destruct Ha as [-> | Ha]; [congruence |].
  rewrite (IH a Ha); [reflexivity | | exact Hfa].
  intros c Hc. apply Hall. right. exact Hc.
Qed.

Lemma firstn_plus {A} (l : list A) : forall a b,
  firstn (a + b) l = firstn a l ++ firstn b (skipn a l).
Proof.
induction l as [| v l IH]; intros [| a] b; cbn.
- rewrite firstn_nil. reflexivity.
- rewrite firstn_nil. reflexivity.
- reflexivity.
- f_equal. apply IH.
Qed.

Lemma total_firstn_S : forall (l : list Z) i,
  (i < List.length l)%nat ->
  Np.total (firstn (S i) l) = Np.total (firstn i l) + nth i l 0.
Proof.
induction l as [| c l IH]; intros i Hi; [cbn in Hi; lia |].
destruct i as [| i].
- cbn. lia.
- cbn [nth]. rewrite !firstn_cons, !total_cons. rewrite IH by (cbn in Hi; lia). lia.
Qed.

Lemma map_nth_seq {A} (l : list A) d :
  map (fun i => nth i l d) (seq 0 (List.length l)) = l.
Proof.
induction l as [| v l IH]; [reflexivity |].
cbn [List.length seq map nth]. f_equal.
rewrite <- seq_shift, map_map. exact IH.
Qed.

Section Cells.

Import PhotonList.
Context {num : Type}.
Variables (ph : Photons num) (par : Parameters num) (cosmo : num -> num -> num).

Let pl := __init__ ph par cosmo.
Let counts := NumberOfPhotons ph.

Hypothesis counts_nonneg : Forall (fun c => 0 <= c) counts.
Hypothesis counts_fit : Np.total counts < 2 ^ 64.

(** The energies of cell [i], read off the flat array. *)
Let cell (i : nat) : list num :=
  firstn (Z.to_nat (nth i counts 0))
         (skipn (Z.to_nat (Np.total (firstn i counts))) (Energy ph)).

Lemma energy_of_cell_run i :
  (i < List.length counts)%nat ->
  energy_of_cell pl i = inr (cell i).
Proof.
intros Hi. unfold energy_of_cell.
change (p_bins pl) with (Np.insert0 (Np.cumsum counts) 0).
replace (Z.of_nat i + 1) with (Z.of_nat (S i)) by lia.
rewrite !item_nat by (rewrite p_bins_length; lia).
rewrite !p_bins_nth by (auto; lia).
cbn [Monad.try_opt Monad.try_bind]. f_equal.
unfold Np.slice, cell. rewrite total_firstn_S by exact Hi.
change (Energy (photons pl)) with (Energy ph).
f_equal. f_equal. lia.
Qed.

Lemma nth_nonneg i : 0 <= nth i counts 0.
Proof.
destruct (Nat.lt_ge_cases i (List.length counts)) as [Hi | Hi].
- rewrite Forall_forall in counts_nonneg. apply counts_nonneg, nth_In, Hi.
- rewrite nth_overflow by exact Hi. lia.
Qed.

Lemma concat_cells : forall n,
  (n <= List.length counts)%nat ->
  List.concat (map cell (seq 0 n))
  = firstn (Z.to_nat (Np.total (firstn n counts))) (Energy ph).
Proof.
induction n as [| n IH]; intros Hn; [reflexivity |].
rewrite seq_S, map_app, concat_app, IH by lia. cbn [map List.concat Nat.add].
rewrite app_nil_r. rewrite total_firstn_S by lia.
pose proof (total_nonneg _ (Forall_nonneg_firstn counts n counts_nonneg)).
pose proof (nth_nonneg n).
rewrite Z2Nat.inj_add by lia. rewrite firstn_plus. reflexivity.
Qed.

End Cells.

Section CellTheorems.

Import PhotonList.
Context {num : Type}.

(** X6. [self["Energy"]] of a photon list with one count per cell cuts the
    flat array of the energies at the breakpoints [p_bins]: the pieces
    joined in order are the array again, and the piece of a cell is as
    long as the cell's photon count. *)
Theorem getitem_energy_by_cell (ph : Photons num) (par : Parameters num)
    (cosmo : num -> num -> num) :
  let pl := __init__ ph par cosmo in
  let counts := NumberOfPhotons ph in
  Forall (fun c => 0 <= c) counts ->
  Np.total counts < 2 ^ 64 ->
  List.length (ph_x ph) = List.length counts ->
  Z.of_nat (List.length (Energy ph)) = Np.total counts ->
  exists cells,
    __getitem__ pl "Energy" = inr (ByCell cells)
    /\ List.concat cells = Energy ph
    /\ map (fun e => Z.of_nat (List.length e)) cells = counts.
Proof.
intros pl counts Hc Hf Hx HE. subst pl counts.
set (pl := __init__ ph par cosmo).
set (cell := fun i : nat =>
  firstn (Z.to_nat (nth i (NumberOfPhotons ph) 0))
         (skipn (Z.to_nat (Np.total (firstn i (NumberOfPhotons ph)))) (Energy ph))).
exists (map cell (seq 0 (List.length (NumberOfPhotons ph)))).
split; [| split].
- unfold __getitem__. cbn [String.eqb Ascii.eqb Bool.eqb].
  change (num_cells pl) with (List.length (ph_x ph)). rewrite Hx.
  rewrite (try_map_ext _ cell); [reflexivity |].
  intros i Hi. apply in_seq in Hi.
  apply (energy_of_cell_run ph par cosmo Hc Hf). lia.
- unfold cell. rewrite (concat_cells ph Hc) by lia.
  rewrite firstn_all. rewrite <- HE, Nat2Z.id. apply firstn_all.
- rewrite map_map.
  rewrite <- (map_nth_seq (NumberOfPhotons ph) 0) at 2.
  apply map_ext_in. intros i Hi. apply in_seq in Hi.
  unfold cell. rewrite length_firstn, length_skipn.
  pose proof (total_firstn_S (NumberOfPhotons ph) i ltac:(lia)) as HS.
  pose proof (total_firstn_mono (NumberOfPhotons ph) (S i)
                (List.length (NumberOfPhotons ph)) Hc ltac:(lia)) as Hm.
  rewrite firstn_all in Hm.
  pose proof (total_nonneg _ (Forall_nonneg_firstn (NumberOfPhotons ph) i Hc)).
  assert (0 <= nth i (NumberOfPhotons ph) 0).
  { rewrite Forall_forall in Hc. apply Hc, nth_In. lia. }
  lia.
Qed.

(** X7. The cell in which [self["Energy"]] lists photon [j] is the cell
    that [project_photons] finds for it with [searchsorted]: for
    [o = owner p_bins j], the energy of photon [j] is entry
    [j - p_bins[o]] of piece [o]. *)
Theorem getitem_energy_owner (ph : Photons num) (par : Parameters num)
    (cosmo : num -> num -> num) (j : Z) :
  let pl := __init__ ph par cosmo in
  let counts := NumberOfPhotons ph in
  Forall (fun c => 0 <= c) counts ->
  Np.total counts < 2 ^ 64 ->
  List.length (ph_x ph) = List.length counts ->
  Z.of_nat (List.length (Energy ph)) = Np.total counts ->
  0 <= j < Np.total counts ->
  exists cells o lo cell e,
    __getitem__ pl "Energy" = inr (ByCell cells)
    /\ owner (p_bins pl) j = Z.of_nat o
    /\ Np.item (p_bins pl) (Z.of_nat o) = Some lo
    /\ nth_error cells o = Some cell
    /\ nth_error cell (Z.to_nat (j - lo)) = Some e
    /\ Np.item (Energy ph) j = Some e.
Proof.
intros pl counts Hc Hf Hx HE Hj. subst pl counts.
set (pl := __init__ ph par cosmo).
set (cell := fun i : nat =>
  firstn (Z.to_nat (nth i (NumberOfPhotons ph) 0))
         (skipn (Z.to_nat (Np.total (firstn i (NumberOfPhotons ph)))) (Energy ph))).
destruct (owner_range (NumberOfPhotons ph) Hc Hf j Hj) as (o & Eo & Ho & Hr).
pose proof (total_firstn_S (NumberOfPhotons ph) o Ho) as HS.
pose proof (total_nonneg _ (Forall_nonneg_firstn (NumberOfPhotons ph) o Hc)) as H0.
destruct (nth_error (Energy ph) (Z.to_nat j)) as [e |] eqn:Ee.
2:{ apply nth_error_None in Ee. lia. }
exists (map cell (seq 0 (List.length (NumberOfPhotons ph)))), o,
  (Np.total (firstn o (NumberOfPhotons ph))), (cell o), e.
split; [| split; [exact Eo | split; [| split; [| split]]]].
- unfold __getitem__. cbn [String.eqb Ascii.eqb Bool.eqb].
  change (num_cells pl) with (List.length (ph_x ph)). rewrite Hx.
  rewrite (try_map_ext _ cell); [reflexivity |].
  intros i Hi. apply in_seq in Hi.
  apply (energy_of_cell_run ph par cosmo Hc Hf). lia.
- change (p_bins pl) with (Np.insert0 (Np.cumsum (NumberOfPhotons ph)) 0).
  rewrite item_nat by (rewrite p_bins_length; lia).
  apply p_bins_nth; auto; lia.
- rewrite nth_error_map, nth_error_seq.
  destruct (Nat.ltb_spec o (List.length (NumberOfPhotons ph))); [reflexivity | lia].
- unfold cell. rewrite nth_error_firstn.
  destruct (Nat.ltb_spec (Z.to_nat (j - Np.total (firstn o (NumberOfPhotons ph))))
              (Z.to_nat (nth o (NumberOfPhotons ph) 0))); [| lia].
  rewrite nth_error_skipn. rewrite <- Ee. f_equal. lia.
- replace j with (Z.of_nat (Z.to_nat j)) by lia.
  rewrite item_nat by lia. exact Ee.
Qed.

(** X8. [self["Energy"]] raises [IndexError] exactly when there are more
    cells ([len(photons["x"])]) than photon counts: [p_bins] has one entry
    more than there are counts, and line 86 reads [p_bins[i+1]] for every
    cell [i]. *)
Theorem getitem_energy_index_error (ph : Photons num) (par : Parameters num)
    (cosmo : num -> num -> num) :
  __getitem__ (__init__ ph par cosmo) "Energy" = inl IndexError
  <-> (List.length (NumberOfPhotons ph) < List.length (ph_x ph))%nat.
Proof.
set (pl := __init__ ph par cosmo).
assert (Hok : forall i, (i < List.length (NumberOfPhotons ph))%nat ->
                exists v, energy_of_cell pl i = inr v).
{ intros i Hi. unfold energy_of_cell.
  change (p_bins pl) with (Np.insert0 (Np.cumsum (NumberOfPhotons ph)) 0).
  replace (Z.of_nat i + 1) with (Z.of_nat (S i)) by lia.
  rewrite !item_nat by (rewrite p_bins_length; lia).
  destruct (nth_error _ i) as [lo |] eqn:E1.
  2:{ apply nth_error_None in E1. rewrite p_bins_length in E1. lia. }
  destruct (nth_error _ (S i)) as [hi |] eqn:E2.
  2:{ apply nth_error_None in E2. rewrite p_bins_length in E2. lia. }
  eexists. reflexivity. }
assert (Hbad : forall i, (List.length (NumberOfPhotons ph) <= i)%nat ->
                 energy_of_cell pl i = inl IndexError).
{ intros i Hi. unfold energy_of_cell.
  change (p_bins pl) with (Np.insert0 (Np.cumsum (NumberOfPhotons ph)) 0).
  assert (Hnone : forall k, (S (List.length (NumberOfPhotons ph)) <= k)%nat ->
            Np.item (Np.insert0 (Np.cumsum (NumberOfPhotons ph)) 0) (Z.of_nat k) = None).
  { intros k Hk. unfold Np.item. rewrite p_bins_length.
    destruct (Z.leb_spec 0 (Z.of_nat k)); [| lia].
    destruct (Z.ltb_spec (Z.of_nat k) (Z.of_nat (S (List.length (NumberOfPhotons ph)))));
      [lia |].
    cbn [andb].
    destruct (Z.ltb_spec (Z.of_nat k) 0); [lia |]. rewrite andb_false_r. reflexivity. }
  replace (Z.of_nat i + 1) with (Z.of_nat (S i)) by lia.
  rewrite (Hnone (S i)) by lia.
  destruct (Np.item _ (Z.of_nat i)); reflexivity. }
unfold __getitem__. cbn [String.eqb Ascii.eqb Bool.eqb].
change (num_cells pl) with (List.length (ph_x ph)).
split.
- intros E.
  destruct (Nat.lt_ge_cases (List.length (NumberOfPhotons ph)) (List.length (ph_x ph)))
    as [Hlt | Hge]; [exact Hlt | exfalso].
  assert (Hall : forall i, In i (seq 0 (List.length (ph_x ph))) ->
            energy_of_cell pl i
            = inr (match energy_of_cell pl i with inr v => v | inl _ => [] end)).
  { intros i Hi. apply in_seq in Hi. destruct (Hok i ltac:(lia)) as (v & ->).
    reflexivity. }
  rewrite (try_map_ext _ _ _ Hall) in E. discriminate E.
- intros Hlt.
  rewrite (try_map_raises (energy_of_cell pl) IndexError _
             (List.length (NumberOfPhotons ph))); [reflexivity | | |].
  + apply in_seq. lia.
  + intros i _.
    destruct (Nat.lt_ge_cases i (List.length (NumberOfPhotons ph))) as [Hi | Hi].
    * right. apply Hok, Hi.
    * left. apply Hbad, Hi.
  + apply Hbad. lia.
Qed.

End CellTheorems.

Lemma getitem_energy_by_cell_witness :
  exists cells,
    PhotonList.__getitem__ Demo.sample "Energy" = inr (PhotonList.ByCell cells)
    /\ List.concat cells = PhotonList.Energy Demo.sample_photons
    /\ map (fun e : list float => Z.of_nat (List.length e)) cells
       = PhotonList.NumberOfPhotons Demo.sample_photons.
Proof.
destruct sample_well_formed as (Hc & Hf & _).
exact (getitem_energy_by_cell Demo.sample_photons Demo.sample_parameters
         Demo.sample_cosmo Hc Hf eq_refl eq_refl).
Defined.

Lemma getitem_energy_owner_witness :
  exists cells cell e,
    PhotonList.__getitem__ Demo.sample "Energy" = inr (PhotonList.ByCell cells)
    /\ PhotonList.owner (PhotonList.p_bins Demo.sample) 37 = 3
    /\ nth_error cells 3 = Some cell
    /\ nth_error cell 7 = Some e
    /\ Np.item (PhotonList.Energy Demo.sample_photons) 37 = Some e.
Proof.
destruct sample_well_formed as (Hc & Hf & _).
destruct (getitem_energy_owner Demo.sample_photons Demo.sample_parameters
            Demo.sample_cosmo 37 Hc Hf eq_refl eq_refl ltac:(cbn; lia))
  as (cells & o & lo & cell & e & Eg & Eo & Elo & Ec & Ee & Ei).
assert (Ho : o = 3%nat).
{ apply Nat2Z.inj. rewrite <- Eo. reflexivity. }
subst o.
assert (Hlo : lo = 30).
{ vm_compute in Elo. injection Elo as <-. reflexivity. }
subst lo.
exists cells, cell, e. auto 10.
Defined.

(** ** Joining the chunks *)

(** X9. [concatenate_photons] either joins the chunks of every key, keeping
    the keys and their order, or raises [KeyError] of a key that has no
    chunk, is not ["NumberOfPhotons"] and has no unit in [photon_units].
    When it returns, every key without a chunk is ["NumberOfPhotons"] or
    has a unit. *)
Theorem concatenate_photons_spec {V : Type} (photons : Dict.dict (list (list V))) :
  match concatenate_photons photons with
  | inr joined =>
      joined = map (fun kv => (fst kv, List.concat (snd kv))) photons
      /\ Forall (fun kv => snd kv = [] ->
                           fst kv = "NumberOfPhotons"%string
                           \/ Dict.mem photon_units (fst kv) = true) photons
  | inl e =>
      exists key,
        e = KeyError key /\ In (key, []) photons
        /\ key <> "NumberOfPhotons"%string
        /\ Dict.get photon_units key = None
  end.
Proof.
unfold concatenate_photons.
induction photons as [| [k chunks] p IH]; [cbn; auto |].
cbn [Monad.try_map fst snd].
destruct chunks as [| c chunks].
- cbn [List.length Nat.ltb Nat.leb].
  destruct (String.eqb k "NumberOfPhotons") eqn:Ek.
  + destruct (Monad.try_map _ p) as [e | q].
    * destruct IH as (key & -> & Hin & Hne & Hget).
      exists key. split; [reflexivity |]. split; [right; exact Hin | auto].
    * destruct IH as (-> & Hall). split; [reflexivity |].
      constructor; [| exact Hall]. intros _. left. apply String.eqb_eq, Ek.
  + destruct (Dict.get photon_units k) as [u |] eqn:Eu.
    * destruct (Monad.try_map _ p) as [e | q].
      -- destruct IH as (key & -> & Hin & Hne & Hget).
         exists key. split; [reflexivity |]. split; [right; exact Hin | auto].
      -- destruct IH as (-> & Hall). split; [reflexivity |].
         constructor; [| exact Hall]. intros _. right.
         unfold Dict.mem. cbn [fst]. rewrite Eu. reflexivity.
    * exists k. split; [reflexivity |]. split; [left; reflexivity |].
      split; [apply String.eqb_neq, Ek | exact Eu].
- cbn [List.length Nat.ltb Nat.leb].
  destruct (Monad.try_map _ p) as [e | q].
  + destruct IH as (key & -> & Hin & Hne & Hget).
    exists key. split; [reflexivity |]. split; [right; exact Hin | auto].
  + destruct IH as (-> & Hall). split; [reflexivity |].
    constructor; [| exact Hall]. cbn. discriminate.
Qed.

(** ** Photon files read by several ranks *)

Lemma slice_app {A} (l : list A) a b c :
  0 <= a <= b -> b <= c ->
  Np.slice l a b ++ Np.slice l b c = Np.slice l a c.
Proof.
intros Hab Hbc. unfold Np.slice.
replace (Z.to_nat (c - a)) with (Z.to_nat (b - a) + Z.to_nat (c - b))%nat by lia.
rewrite firstn_plus. f_equal. rewrite skipn_skipn. f_equal. f_equal. lia.
Qed.

(** Slices between successive breakpoints tile the slice between the
    first and the last. *)
Lemma concat_slices {A} (l : list A) (b : Z -> Z) : forall k : nat,
  0 <= b 0 ->
  (forall r, 0 <= r < Z.of_nat k -> b r <= b (r + 1)) ->
  List.concat (map (fun r => Np.slice l (b r) (b (r + 1)))
                   (map Z.of_nat (seq 0 k)))
  = Np.slice l (b 0) (b (Z.of_nat k)).
Proof.
induction k as [| k IH]; intros H0 Hmono.
- cbn. unfold Np.slice. rewrite Z.sub_diag. reflexivity.
- rewrite seq_S, !map_app, concat_app. cbn [map List.concat Nat.add].
  rewrite app_nil_r, IH by (auto; intros; apply Hmono; lia).
  replace (Z.of_nat (S k)) with (Z.of_nat k + 1) by lia.
  apply slice_app.
  + split; [exact H0 |].
    clear IH. induction k as [| k IHk]; [cbn; lia |].
    replace (Z.of_nat (S k)) with (Z.of_nat k + 1) by lia.
    etransitivity; [apply IHk; intros; apply Hmono; lia |].
    apply Hmono. lia.
  + apply Hmono. lia.
Qed.

Lemma arange_seq n : Np.arange n = map Z.of_nat (seq 0 (Z.to_nat n)).
Proof. reflexivity. Qed.

Lemma slice_all {A} (l : list A) n :
  Z.of_nat (List.length l) <= n -> Np.slice l 0 n = l.
Proof.
intros Hn. unfold Np.slice. cbn [Z.to_nat skipn]. apply firstn_all2. lia.
Qed.

Lemma slice_0 {A} (l : list A) n : Np.slice l 0 n = firstn (Z.to_nat n) l.
Proof. unfold Np.slice. rewrite Z.sub_0_r. reflexivity. Qed.

Ltac try_step H :=
  match type of H with
  | Monad.try_bind ?c _ = inr _ =>
      let E := fresh "E" in
      destruct c eqn:E; cbn [Monad.try_bind] in H; [discriminate H |]
  end.

Section Reading.

Import PhotonList.
Context {num : Type} `{Scalar num}.
Variable force_unicode : string -> string.
Variable Cosmology : num -> num -> num -> num -> num -> num.

(** A file that one rank reads is read by every rank, each taking its
    slices of the same arrays. *)
Lemma read_every_rank rank size (f : H5.file num) pl :
  read_photon_list rank size force_unicode Cosmology f = inr pl ->
  exists par cosmo x y z dx vx vy vz n_ph energy,
    forall rank' size',
      let n := Z.of_nat (List.length x) in
      let lo := start_c rank' size' n in
      let hi := end_c rank' size' n in
      read_photon_list rank' size' force_unicode Cosmology f
      = inr (__init__
               {| ph_x := Np.slice x lo hi;
                  ph_y := Np.slice y lo hi;
                  ph_z := Np.slice z lo hi;
                  ph_dx := Np.slice dx lo hi;
                  ph_vx := Np.slice vx lo hi;
                  ph_vy := Np.slice vy lo hi;
                  ph_vz := Np.slice vz lo hi;
                  NumberOfPhotons := Np.slice n_ph lo hi;
                  Energy := Np.slice energy (start_e rank' size' n_ph n)
                                            (end_e rank' size' n_ph n) |}
               par cosmo).
Proof.
intros E. unfold read_photon_list in E.
do 21 try_step E.
eexists _, _, _, _, _, _, _, _, _, _, _. intros rank' size' nn lo hi.
unfold read_photon_list.
repeat match goal with
       | Eq : ?c = inr _ |- context [?c] => rewrite Eq; cbn [Monad.try_bind]
       end.
subst nn lo hi. reflexivity.
Qed.

End Reading.

Lemma share_mono n size r :
  0 < size -> 0 <= n -> r * n / size <= (r + 1) * n / size.
Proof. intros Hs Hn. apply Z.div_le_mono; nia. Qed.

Lemma share_range n size r :
  0 < size -> 0 <= n -> 0 <= r <= size -> 0 <= r * n / size <= n.
Proof.
intros Hs Hn Hr. split.
- apply Z.div_pos; nia.
- rewrite <- (Z.div_mul n size) at 2 by lia. apply Z.div_le_mono; nia.
Qed.

Lemma slice_firstn {A} (l : list A) n a b :
  0 <= a -> b <= Z.of_nat n -> Np.slice (firstn n l) a b = Np.slice l a b.
Proof.
intros Ha Hb. unfold Np.slice.
destruct (Z.le_gt_cases b a) as [Hle | Hlt].
- replace (Z.to_nat (b - a)) with 0%nat by lia. reflexivity.
- rewrite skipn_firstn_comm, firstn_firstn. f_equal. lia.
Qed.

Lemma total_app a b : Np.total (a ++ b) = Np.total a + Np.total b.
Proof.
induction a as [| v a IH]; [reflexivity |].
cbn [app]. rewrite !total_cons, IH. lia.
Qed.

Lemma Forall_nonneg_skipn (l : list Z) : forall k,
  Forall (fun c => 0 <= c) l -> Forall (fun c => 0 <= c) (skipn k l).
Proof.
induction l as [| v l IH]; intros [| k] Hl; cbn; auto.
inversion Hl; subst. apply IH. assumption.
Qed.

Lemma slice_nonneg (l : list Z) a b :
  Forall (fun c => 0 <= c) l -> Forall (fun c => 0 <= c) (Np.slice l a b).
Proof.
intros Hl. unfold Np.slice.
apply Forall_nonneg_firstn, Forall_nonneg_skipn, Hl.
Qed.

Lemma total_slice (l : list Z) a b :
  0 <= a <= b ->
  Np.total (firstn (Z.to_nat a) l) + Np.total (Np.slice l a b)
  = Np.total (firstn (Z.to_nat b) l).
Proof.
intros Hab. rewrite <- total_app.
rewrite <- (slice_0 l a), <- (slice_0 l b).
rewrite slice_app by lia. reflexivity.
Qed.

Lemma total_firstn_le (l : list Z) k :
  Forall (fun c => 0 <= c) l -> Np.total (firstn k l) <= Np.total l.
Proof.
intros Hl.
destruct (Nat.le_gt_cases k (List.length l)) as [Hk | Hk].
- pose proof (total_firstn_mono l k (List.length l) Hl Hk) as Hm.
  rewrite firstn_all in Hm. exact Hm.
- rewrite firstn_all2 by lia. lia.
Qed.

Lemma Forall2_map_self {A B} (P : A -> B -> Prop) (g : A -> B) : forall l,
  (forall a, In a l -> P a (g a)) -> Forall2 P l (map g l).
Proof.
induction l as [| a l IH]; intros Hl; cbn; constructor.
- apply Hl. left. reflexivity.
- apply IH. intros b Hb. apply Hl. right. exact Hb.
Qed.

Section Partition.

Import PhotonList Monad.
Context {num : Type} `{Scalar num}.
Variable force_unicode : string -> string.
Variable Cosmology : num -> num -> num -> num -> num -> num.

Lemma from_file_inr rank size name (s : H5.fs num) pl s' :
  from_file rank size force_unicode Cosmology name s = (inr pl, s') ->
  s' = s
  /\ exists f, Dict.get s name = Some f
               /\ read_photon_list rank size force_unicode Cosmology f = inr pl.
Proof.
unfold from_file, H5.File_r, bind, gets, lift_opt, lift, ret, raise.
destruct (Dict.get s name) as [f |] eqn:Ef; [| discriminate].
intros E. injection E as E1 E2. split; [symmetry; exact E2 |].
exists f. split; [reflexivity | exact E1].
Qed.

Lemma from_file_run rank size name (s : H5.fs num) f :
  Dict.get s name = Some f ->
  from_file rank size force_unicode Cosmology name s
  = (read_photon_list rank size force_unicode Cosmology f, s).
Proof.
intros E. unfold from_file, H5.File_r, bind, gets, lift_opt, lift, ret.
rewrite E. reflexivity.
Qed.

(** The counts of the photons of the cells before a rank and of its own
    cells, without overflow. *)
Lemma energy_bounds (n_ph : list Z) n size r :
  0 < size -> 0 <= n -> 0 <= r < size ->
  Forall (fun c => 0 <= c) (firstn (Z.to_nat n) n_ph) ->
  Np.total (firstn (Z.to_nat n) n_ph) < 2 ^ 64 ->
  start_e r size n_ph n = Np.total (firstn (Z.to_nat (r * n / size)) n_ph)
  /\ end_e r size n_ph n
     = Np.total (firstn (Z.to_nat ((r + 1) * n / size)) n_ph).
Proof.
intros Hs Hn Hr Hc Hf.
set (cnts := firstn (Z.to_nat n) n_ph) in *.
pose proof (share_range n size r Hs Hn ltac:(lia)) as Hb.
pose proof (share_range n size (r + 1) Hs Hn ltac:(lia)) as Hb'.
pose proof (share_mono n size r Hs Hn) as Hm.
set (b := r * n / size) in *. set (b' := (r + 1) * n / size) in *.
assert (Hpre : forall k, (k <= Z.to_nat n)%nat -> firstn k n_ph = firstn k cnts).
{ intros k Hk. unfold cnts. rewrite firstn_firstn. f_equal. lia. }
assert (Hsum : forall k, (k <= Z.to_nat n)%nat ->
          Np.sum (firstn k n_ph) = Np.total (firstn k n_ph)).
{ intros k Hk. rewrite Hpre by exact Hk. apply sum_no_wrap.
  - apply Forall_nonneg_firstn, Hc.
  - pose proof (total_firstn_le cnts k Hc). lia. }
assert (Hstart : start_e r size n_ph n = Np.total (firstn (Z.to_nat b) n_ph)).
{ unfold start_e, start_c. fold b.
  destruct (Z.eqb_spec r 0) as [-> | Hr0].
  - unfold b. cbn. reflexivity.
  - unfold Np.slice_to. apply Hsum. lia. }
split; [exact Hstart |].
unfold end_e. rewrite Hstart. unfold start_c, end_c. fold b b'.
assert (Hsl : Np.slice n_ph b b' = Np.slice cnts b b').
{ unfold cnts. rewrite slice_firstn by lia. reflexivity. }
pose proof (total_slice n_ph b b' ltac:(lia)) as Ht.
rewrite Hsl in *.
assert (Hsn : Forall (fun c => 0 <= c) (Np.slice cnts b b'))
  by (apply slice_nonneg, Hc).
pose proof (total_nonneg _ Hsn) as H0.
assert (Hpos : 0 <= Np.total (firstn (Z.to_nat b) n_ph)).
{ rewrite Hpre by lia. apply total_nonneg, Forall_nonneg_firstn, Hc. }
assert (Hle : Np.total (firstn (Z.to_nat b') n_ph) <= Np.total cnts).
{ rewrite Hpre by lia. apply total_firstn_le, Hc. }
rewrite sum_no_wrap by (auto; lia).
rewrite wrap64_small by lia. exact Ht.
Qed.

(** X10. [from_file] under [size] ranks: when the serial read (rank 0 of 1)
    of a file returns a photon list with counts that are not negative and
    add up below 2^64, every rank reads its part without an exception, and
    the parts joined in the order of the ranks are the serial read, for
    each of the eight columns and for the counts: the ranks share out the
    cells and the energies with neither gap nor overlap. *)
Theorem from_file_partition (size : Z) (name : string) (s : H5.fs num)
    (whole : t num) :
  0 < size ->
  from_file 0 1 force_unicode Cosmology name s = (inr whole, s) ->
  Forall (fun c => 0 <= c) (NumberOfPhotons (photons whole)) ->
  Np.total (NumberOfPhotons (photons whole)) < 2 ^ 64 ->
  exists parts,
    Forall2 (fun r part =>
               from_file r size force_unicode Cosmology name s = (inr part, s))
            (Np.arange size) parts
    /\ (forall column,
          In column [@ph_x num; @ph_y num; @ph_z num; @ph_dx num;
                     @ph_vx num; @ph_vy num; @ph_vz num; @Energy num] ->
          List.concat (map (fun part => column (photons part)) parts)
          = column (photons whole))
    /\ List.concat (map (fun part => NumberOfPhotons (photons part)) parts)
       = NumberOfPhotons (photons whole).
Proof.
intros Hsize Ew Hc Hf.
apply from_file_inr in Ew as (_ & f & Ef & Er).
destruct (read_every_rank force_unicode Cosmology 0 1 f whole Er)
  as (par & cosmo & x & y & z & dx & vx & vy & vz & n_ph & energy & Hall).
pose proof (Hall 0 1) as Hw. cbv zeta in Hw. rewrite Er in Hw.
injection Hw as ->. cbn [photons __init__ NumberOfPhotons] in Hc, Hf.
set (n := Z.of_nat (List.length x)) in *.
assert (Hn : 0 <= n) by (unfold n; lia).
assert (Hlo : start_c 0 1 n = 0) by reflexivity.
assert (Hhi : end_c 0 1 n = n).
{ unfold end_c. rewrite Z.add_0_l, Z.mul_1_l, Z.div_1_r. reflexivity. }
rewrite Hlo, Hhi in *.
rewrite slice_0 in Hc, Hf.
set (g := fun r =>
  __init__
    {| ph_x := Np.slice x (start_c r size n) (end_c r size n);
       ph_y := Np.slice y (start_c r size n) (end_c r size n);
       ph_z := Np.slice z (start_c r size n) (end_c r size n);
       ph_dx := Np.slice dx (start_c r size n) (end_c r size n);
       ph_vx := Np.slice vx (start_c r size n) (end_c r size n);
       ph_vy := Np.slice vy (start_c r size n) (end_c r size n);
       ph_vz := Np.slice vz (start_c r size n) (end_c r size n);
       NumberOfPhotons := Np.slice n_ph (start_c r size n) (end_c r size n);
       Energy := Np.slice energy (start_e r size n_ph n) (end_e r size n_ph n) |}
    par cosmo).
exists (map g (Np.arange size)).
assert (Htile : forall A (l : list A),
          List.concat (map (fun r => Np.slice l (start_c r size n) (end_c r size n))
                           (Np.arange size))
          = Np.slice l 0 n).
{ intros A l. unfold start_c, end_c.
  rewrite arange_seq.
  rewrite (concat_slices l (fun r => r * n / size) (Z.to_nat size)).
  - rewrite Z2Nat.id by lia. rewrite (Z.mul_comm size n), Z.div_mul by lia.
    reflexivity.
  - cbn. lia.
  - intros r Hr. apply share_mono; assumption. }
split; [| split].
- apply Forall2_map_self. intros r Hr.
  rewrite (from_file_run _ _ _ _ _ Ef). f_equal. apply Hall.
- intros column Hcol. rewrite map_map.
  cbn in Hcol.
  destruct Hcol as [<- | [<- | [<- | [<- | [<- | [<- | [<- | [<- | []]]]]]]]];
    cbn [photons __init__ g ph_x ph_y ph_z ph_dx ph_vx ph_vy ph_vz Energy];
    try apply Htile.
  rewrite (map_ext_in _
             (fun r => Np.slice energy
                         (Np.total (firstn (Z.to_nat (r * n / size)) n_ph))
                         (Np.total (firstn (Z.to_nat ((r + 1) * n / size)) n_ph)))).
  2:{ intros r Hr. apply arange_range in Hr.
      destruct (energy_bounds n_ph n size r Hsize Hn Hr Hc Hf) as (-> & ->).
      reflexivity. }
  rewrite arange_seq.
  rewrite (concat_slices energy
             (fun r => Np.total (firstn (Z.to_nat (r * n / size)) n_ph))
             (Z.to_nat size)).
  + destruct (energy_bounds n_ph n 1 0 ltac:(lia) Hn ltac:(lia) Hc Hf) as (-> & ->).
    assert (E0 : 0 * n / size = 0) by (apply Z.div_0_l; lia).
    assert (E1 : Z.of_nat (Z.to_nat size) * n / size = n)
      by (rewrite Z2Nat.id by lia; rewrite (Z.mul_comm size n), Z.div_mul by lia;
          reflexivity).
    assert (E2 : 0 * n / 1 = 0) by reflexivity.
    assert (E3 : (0 + 1) * n / 1 = n)
      by (rewrite Z.add_0_l, Z.mul_1_l, Z.div_1_r; reflexivity).
    rewrite E0, E1, E2, E3. reflexivity.
  + rewrite Z.div_0_l by lia. cbn. lia.
  + intros r Hr.
    pose proof (share_range n size r Hsize Hn ltac:(lia)).
    pose proof (share_range n size (r + 1) Hsize Hn ltac:(lia)).
    pose proof (share_mono n size r Hsize Hn).
    assert (Hpre : forall k, (k <= Z.to_nat n)%nat ->
              firstn k n_ph = firstn k (firstn (Z.to_nat n) n_ph)).
    { intros k Hk. rewrite firstn_firstn. f_equal. lia. }
    rewrite (Hpre (Z.to_nat (r * n / size))) by lia.
    rewrite (Hpre (Z.to_nat ((r + 1) * n / size))) by lia.
    apply total_firstn_mono; [exact Hc | lia].
- rewrite map_map. cbn [photons __init__ g NumberOfPhotons]. apply Htile.
Qed.

End Partition.

Lemma from_file_partition_witness :
  exists parts,
    Forall2 (fun r part =>
               PhotonList.from_file r 3 (fun s => s) Demo.cosmology "photons.h5"
                 Demo.files
               = (inr part, Demo.files))
            [0; 1; 2] parts
    /\ List.concat (map (fun part => PhotonList.Energy (PhotonList.photons part))
                        parts)
       = PhotonList.Energy Demo.sample_photons
    /\ List.concat (map (fun part =>
                           PhotonList.NumberOfPhotons (PhotonList.photons part))
                        parts)
       = PhotonList.NumberOfPhotons Demo.sample_photons.
Proof.
destruct sample_well_formed as (Hc & Hf & _).
assert (E : PhotonList.from_file 0 1 (fun s => s) Demo.cosmology "photons.h5"
              Demo.files
            = (inr Demo.sample, Demo.files)) by (vm_compute; reflexivity).
destruct (from_file_partition (fun s => s) Demo.cosmology 3 "photons.h5"
            Demo.files Demo.sample ltac:(lia) E Hc Hf)
  as (parts & HF & Hcols & Hn).
exists parts. split; [exact HF |]. split; [| exact Hn].
apply (Hcols (@PhotonList.Energy float)). cbn. auto 10.
Defined.

(** ** Writing a photon file and reading it back *)

Lemma set_set {V} (d : Dict.dict V) k v v' :
  Dict.set (Dict.set d k v) k v' = Dict.set d k v'.
Proof.
induction d as [| [k0 v0] d IH]; cbn.
- rewrite String.eqb_refl. reflexivity.
- destruct (String.eqb k0 k) eqn:E; cbn; rewrite E; [reflexivity |].
  f_equal. exact IH.
Qed.

Section FileSteps.

Import Monad.
Context {num : Type}.

Lemma File_w_run name (s : H5.fs num) :
  H5.File_w name [] s = (inr tt, Dict.set s name []).
Proof. reflexivity. Qed.

Lemma create_group_run name g (s : H5.fs num) f f' :
  H5.create f g (H5.Group []) = inr f' ->
  H5.create_group name g (Dict.set s name f) = (inr tt, Dict.set s name f').
Proof.
intros E. unfold H5.create_group, H5.File_r, bind, gets, lift_opt, lift, ret, modify.
rewrite get_set_same, E, set_set. reflexivity.
Qed.

Lemma create_dataset_run name g key v (s : H5.fs num) f grp grp' :
  Dict.get f g = Some (H5.Group grp) ->
  H5.create grp key v = inr grp' ->
  H5.create_dataset name g key v (Dict.set s name f)
  = (inr tt, Dict.set s name (Dict.set f g (H5.Group grp'))).
Proof.
intros Eg E.
unfold H5.create_dataset, H5.File_r, H5.group_of, bind, gets, lift_opt, lift, ret, modify.
rewrite get_set_same, Eg, E, set_set. reflexivity.
Qed.

End FileSteps.

Ltac h5_step :=
  erewrite bind_step;
  [| first [ apply create_group_run; reflexivity
           | eapply create_dataset_run; reflexivity ] ].

Section RoundTrip.

Import PhotonList Monad.
Context {num : Type} `{Scalar num}.
Variable force_unicode : string -> string.
Variable Cosmology : num -> num -> num -> num -> num -> num.

(** What [write_h5_file] writes. *)
Lemma write_h5_file_run (pl : t num) name (s : H5.fs num) :
  exists f p d,
    write_h5_file pl name s = (inr tt, Dict.set s name f)
    /\ Dict.get f "parameters" = Some (H5.Group p)
    /\ Dict.get f "data" = Some (H5.Group d)
    /\ p = [("data_type", H5.Str (DataType (parameters pl)));
            ("dimension", H5.Int (Dimension (parameters pl)));
            ("fid_area", H5.Float (FiducialArea (parameters pl)));
            ("fid_d_a", H5.Float (FiducialAngularDiameterDistance (parameters pl)));
            ("fid_exp_time", H5.Float (FiducialExposureTime (parameters pl)));
            ("fid_redshift", H5.Float (FiducialRedshift (parameters pl)));
            ("hubble", H5.Float (HubbleConstant (parameters pl)));
            ("omega_lambda", H5.Float (OmegaLambda (parameters pl)));
            ("omega_matter", H5.Float (OmegaMatter (parameters pl)));
            ("width", H5.Float (Width (parameters pl)))]%string
    /\ d = [("dx", H5.Floats (ph_dx (photons pl)));
            ("energy", H5.Floats (Energy (photons pl)));
            ("num_photons", H5.Ints (NumberOfPhotons (photons pl)));
            ("vx", H5.Floats (ph_vx (photons pl)));
            ("vy", H5.Floats (ph_vy (photons pl)));
            ("vz", H5.Floats (ph_vz (photons pl)));
            ("x", H5.Floats (ph_x (photons pl)));
            ("y", H5.Floats (ph_y (photons pl)));
            ("z", H5.Floats (ph_z (photons pl)))]%string.
Proof.
eexists _, _, _. split.
- unfold write_h5_file. cbv zeta.
  rewrite (bind_step _ _ _ _ _ (File_w_run name s)).
  do 20 h5_step.
  eapply create_dataset_run; reflexivity.
- cbn. repeat split; reflexivity.
Qed.

(** X11. A photon list written by [write_h5_file] of a serial run is what
    [from_file] then reads from that file, with the cosmology built from
    the three parameters, when no column is longer than [x], the energies
    are no more than the counts add up to, and [force_unicode] keeps the
    [DataType]. The write replaces the file of that name and touches no
    other file. *)
Theorem write_h5_file_round_trip (pl : t num) (name : string) (s : H5.fs num) :
  let ph := photons pl in
  let p := parameters pl in
  Forall (fun col : list num => (List.length col <= List.length (ph_x ph))%nat)
         [ph_y ph; ph_z ph; ph_dx ph; ph_vx ph; ph_vy ph; ph_vz ph] ->
  (List.length (NumberOfPhotons ph) <= List.length (ph_x ph))%nat ->
  Z.of_nat (List.length (Energy ph)) <= Np.sum (NumberOfPhotons ph) ->
  force_unicode (DataType p) = DataType p ->
  exists s',
    write_h5_file pl name s = (inr tt, s')
    /\ from_file 0 1 force_unicode Cosmology name s'
       = (inr (__init__ ph p
                 (Cosmology (HubbleConstant p) (OmegaMatter p) (OmegaLambda p))),
          s')
    /\ forall other, other <> name -> Dict.get s' other = Dict.get s other.
Proof.
intros ph p Hcols Hn HE Hu.
destruct (write_h5_file_run pl name s) as (f & par & d & Ew & Ep & Ed & -> & ->).
exists (Dict.set s name f). split; [exact Ew |]. split.
- rewrite (from_file_run _ _ _ _ _ _ _ (get_set_same s name f)).
  f_equal. unfold read_photon_list, H5.group_of. rewrite Ep, Ed.
  cbn [try_bind H5.dataset try_opt Dict.get Dict.mem String.eqb Ascii.eqb
       Bool.eqb YTQuantity number integer text floats counts].
  fold ph p. rewrite Hu.
  set (n := Z.of_nat (List.length (ph_x ph))).
  assert (Hlo : start_c 0 1 n = 0) by reflexivity.
  assert (Hhi : end_c 0 1 n = n).
  { unfold end_c. rewrite Z.add_0_l, Z.mul_1_l, Z.div_1_r. reflexivity. }
  assert (Hs : start_e 0 1 (NumberOfPhotons ph) n = 0) by reflexivity.
  assert (He : end_e 0 1 (NumberOfPhotons ph) n = Np.sum (NumberOfPhotons ph)).
  { unfold end_e. rewrite Hs, Hlo, Hhi, Z.add_0_l.
    rewrite slice_all by (unfold n; lia).
    unfold Np.sum, Np.wrap64.
    destruct (NumberOfPhotons ph) as [| c cs] using rev_ind; [reflexivity |].
    rewrite fold_left_app. cbn [fold_left]. unfold Np.wrap64.
    apply Z.mod_mod. unfold Np.uint64_modulus. lia. }
  rewrite Hlo, Hhi, Hs, He.
  rewrite Forall_forall in Hcols.
  rewrite !slice_all;
    try (unfold n; lia);
    try (unfold n; apply inj_le; apply Hcols; cbn; auto 10).
  subst ph p. destruct (photons pl), (parameters pl). reflexivity.
- intros other Hne. apply get_set_other. congruence.
Qed.

End RoundTrip.

Lemma write_h5_file_round_trip_witness :
  exists s',
    PhotonList.write_h5_file Demo.sample "photons.h5" [] = (inr tt, s')
    /\ PhotonList.from_file 0 1 (fun s => s) Demo.cosmology "photons.h5" s'
       = (inr Demo.sample, s').
Proof.
destruct (write_h5_file_round_trip (fun s => s) Demo.cosmology Demo.sample
            "photons.h5" [] ltac:(repeat constructor) ltac:(cbn; lia)
            ltac:(vm_compute; discriminate) eq_refl)
  as (s' & Ew & Er & _).
exists s'. split; [exact Ew | exact Er].
Defined.

(** * More of the event list

    Properties of [filter_events] and of [convert_old_file]. *)

(** ** Events inside a region *)

Lemma compress_total {A} : forall (a : list A) mask,
  List.length a = List.length mask -> exists r, Np.compress a mask = Some r.
Proof.
induction a as [| v a IH]; intros [| b mask] E; cbn in E; try discriminate.
- exists []. reflexivity.
- destruct (IH mask ltac:(lia)) as (r & Er). cbn. rewrite Er. eauto.
Qed.

Section Filtering.

Import EventList Monad.
Context {num : Type} `{Scalar num}.
Variable wcs_pix2world : WCS num -> list num -> list num -> list num * list num.
Variable region_filter : Type.
Variable get_filter : string -> WCS num -> exn + region_filter.
Variable inside_x_y : region_filter -> list num -> list num -> exn + list bool.

(** Reading a field other than the two sky coordinates does not touch the
    event list. *)
Lemma getitem_plain (key : string) (ev : t num) :
  key <> "xsky"%string -> key <> "ysky"%string ->
  __getitem__ wcs_pix2world key ev
  = (match Dict.get (events ev) key with
     | Some v => inr v
     | None => inl (KeyError key)
     end, ev).
Proof.
intros Hx Hy. apply String.eqb_neq in Hx, Hy.
unfold __getitem__, bind, gets, ret, lift, lookup.
rewrite Hx, Hy. cbn [orb]. rewrite andb_false_r. reflexivity.
Qed.

(** The kept part of an item. *)
Let kept_of (idxs : list bool) (old kept : string * list num) : Prop :=
  fst kept = fst old /\ Np.compress (snd old) idxs = Some (snd kept).

Lemma select_events_inr idxs : forall its acc r,
  select_events idxs its acc = inr r ->
  NoDup (Dict.keys acc ++ Dict.keys its) ->
  exists kept, r = acc ++ kept /\ Forall2 (kept_of idxs) its kept.
Proof.
induction its as [| [k v] its IH]; intros acc r E Hnd; cbn in E.
- inversion E. exists []. rewrite app_nil_r. split; [reflexivity | constructor].
- destruct (Np.compress v idxs) as [v' |] eqn:Ev; cbn in E; [| discriminate].
  assert (Hk : ~ In k (Dict.keys acc)).
  { intros Hin. apply NoDup_remove_2 in Hnd. apply Hnd.
    apply in_or_app. left. exact Hin. }
  rewrite (set_fresh acc k v' Hk) in E.
  apply IH in E as (kept & -> & HF).
  + exists ((k, v') :: kept). rewrite <- app_assoc. split; [reflexivity |].
    constructor; [split; [reflexivity | exact Ev] | exact HF].
  + rewrite keys_app, <- app_assoc. cbn.
    cbn in Hnd. apply NoDup_remove in Hnd as (Hnd & Hn).
    apply NoDup_Add with (a := k) (l := Dict.keys acc ++ Dict.keys its).
    * apply Add_app.
    * split; assumption.
Qed.

Lemma select_events_run idxs : forall its acc,
  Forall (fun kv : string * list num => List.length (snd kv) = List.length idxs)
         its ->
  exists r, select_events idxs its acc = inr r.
Proof.
induction its as [| [k v] its IH]; intros acc Hl; cbn.
- eauto.
- inversion Hl as [| ? ? Hv Hrest]; subst. cbn in Hv.
  destruct (compress_total v idxs Hv) as (v' & ->). cbn. apply IH. exact Hrest.
Qed.

Lemma kept_get idxs : forall its kept k v,
  Forall2 (kept_of idxs) its kept ->
  Dict.get its k = Some v ->
  exists v', Dict.get kept k = Some v' /\ Np.compress v idxs = Some v'.
Proof.
intros its kept k v HF.
induction HF as [| [k0 v0] [k1 v1] its kept [Hk Hc] HF IH]; cbn; intros E;
  [discriminate |].
cbn in Hk, Hc. subst k1.
destruct (String.eqb k0 k).
- inversion E; subst. eauto.
- apply IH, E.
Qed.

Lemma count_true_le idxs : (count_true idxs <= List.length idxs)%nat.
Proof.
unfold count_true. induction idxs as [| b idxs IH]; cbn; [lia |].
destruct b; cbn; lia.
Qed.

(** X12. A call of [filter_events] that returns, on an event list built by
    [EventList] with distinct keys: the event list is not changed; the
    mask is what the filter of the region answers for the columns [xpix]
    and [ypix]; the new list has the same keys in the same order, every
    column cut by that one mask; it has the parameters and the WCS of the
    old list; and it holds as many events as the mask has true entries,
    at least one and no more than the old list. *)
Theorem filter_events_selects evs ps (ev : t num) region kept ev' :
  __init__ evs ps = inr ev ->
  NoDup (Dict.keys evs) ->
  filter_events wcs_pix2world get_filter inside_x_y region ev = (inr kept, ev') ->
  ev' = ev
  /\ exists f xpix ypix idxs,
       get_filter region (wcs ev) = inr f
       /\ Dict.get evs "xpix" = Some xpix
       /\ Dict.get evs "ypix" = Some ypix
       /\ inside_x_y f xpix ypix = inr idxs
       /\ Forall2 (fun old new =>
                     fst new = fst old
                     /\ Np.compress (snd old) idxs = Some (snd new))
                  evs (events kept)
       /\ parameters kept = ps
       /\ wcs kept = wcs ev
       /\ num_events kept = count_true idxs
       /\ (0 < num_events kept <= num_events ev)%nat.
Proof.
intros Hinit Hnd E.
destruct (init_derived evs ps ev Hinit)
  as (xp & pc & sc & dt & Exp & Epc & Esc & Edt & Eev & Epar & Enum & Ewcs).
unfold filter_events in E.
rewrite (bind_step _ _ ev ev ev) in E by reflexivity.
apply bind_inr in E as (f & w1 & Ef & E).
unfold lift in Ef. destruct (get_filter region (wcs ev)) as [e | f'] eqn:Eg;
  [discriminate |]. inversion Ef; subst f' w1. clear Ef.
cbv beta in E.
rewrite (bind_step _ _ ev xp ev) in E
  by (rewrite getitem_plain by discriminate; rewrite Eev, Exp; reflexivity).
apply bind_inr in E as (yp & w1 & Ey & E).
rewrite getitem_plain in Ey by discriminate. rewrite Eev in Ey.
destruct (Dict.get evs "ypix") as [yp' |] eqn:Eyp; [| discriminate].
inversion Ey; subst yp' w1. clear Ey. cbv beta in E.
apply bind_inr in E as (idxs & w1 & Ei & E).
unfold lift in Ei. destruct (inside_x_y f xp yp) as [e | idxs'] eqn:Ein;
  [discriminate |]. inversion Ei; subst idxs' w1. clear Ei.
destruct (Nat.eqb_spec (count_true idxs) 0) as [H0 | H0]; [discriminate |].
rewrite (bind_step _ _ ev ev ev) in E by reflexivity.
apply bind_inr in E as (new_events & w1 & Es & E).
unfold lift in Es, E. unfold items in Es. rewrite Eev in Es.
destruct (select_events idxs evs []) as [e | r] eqn:Esel; [discriminate |].
inversion Es; subst r w1. clear Es.
apply select_events_inr in Esel as (kept' & -> & HF); [| exact Hnd].
cbn [app] in E. rewrite Epar in E.
destruct (__init__ kept' ps) as [e | new] eqn:Enew; [discriminate |].
inversion E; subst new ev'. clear E.
destruct (init_derived kept' ps kept Enew)
  as (xp' & pc' & sc' & dt' & Exp' & Epc' & Esc' & Edt' & Eev' & Epar' & Enum'
      & Ewcs').
destruct (kept_get idxs evs kept' "xpix" xp HF Exp) as (xk & Exk & Ec).
rewrite Exk in Exp'. inversion Exp'; subst xp'. clear Exp'.
apply compress_length in Ec as (L1 & L2).
split; [reflexivity |].
exists f, xp, yp, idxs.
do 4 (split; [first [assumption | reflexivity] |]).
split; [rewrite Eev'; exact HF |].
split; [exact Epar' |].
split.
{ rewrite Ewcs, Ewcs'. rewrite Epc in Epc'. rewrite Esc in Esc'.
  rewrite Edt in Edt'. inversion Epc'. inversion Esc'. inversion Edt'.
  reflexivity. }
assert (Hn : num_events kept = count_true idxs)
  by (rewrite Enum'; exact L2).
split; [exact Hn |].
rewrite Hn, Enum, L1. pose proof (count_true_le idxs). lia.
Qed.

(** X13. [filter_events] returns when the region gives a filter, the filter
    answers with a mask that is as long as every column and has a true
    entry, and the keys are distinct: no exception is raised, the event
    list is not changed, and the new list has one event per true entry. *)
Theorem filter_events_returns evs ps (ev : t num) region f xpix ypix idxs :
  __init__ evs ps = inr ev ->
  get_filter region (wcs ev) = inr f ->
  Dict.get evs "xpix" = Some xpix ->
  Dict.get evs "ypix" = Some ypix ->
  inside_x_y f xpix ypix = inr idxs ->
  Forall (fun kv : string * list num => List.length (snd kv) = List.length idxs)
         evs ->
  NoDup (Dict.keys evs) ->
  count_true idxs <> 0%nat ->
  exists kept,
    filter_events wcs_pix2world get_filter inside_x_y region ev = (inr kept, ev)
    /\ num_events kept = count_true idxs.
Proof.
intros Hinit Eg Exp' Eyp Ein Hl Hnd H0.
destruct (init_derived evs ps ev Hinit)
  as (xp & pc & sc & dt & Exp & Epc & Esc & Edt & Eev & Epar & Enum & Ewcs).
rewrite Exp in Exp'. injection Exp' as <-.
destruct (select_events_run idxs evs [] Hl) as (r & Esel).
destruct (select_events_inr idxs evs [] r Esel Hnd) as (kept' & -> & HF).
cbn [app] in Esel.
destruct (kept_get idxs evs kept' "xpix" xp HF Exp) as (xk & Exk & Ec).
apply compress_length in Ec as (L1 & L2).
eexists. split.
- unfold filter_events.
  rewrite (bind_step _ _ ev ev ev) by reflexivity.
  rewrite (bind_step _ _ ev f ev) by (unfold lift; rewrite Eg; reflexivity).
  rewrite (bind_step _ _ ev xp ev)
    by (rewrite getitem_plain by discriminate; rewrite Eev, Exp; reflexivity).
  rewrite (bind_step _ _ ev ypix ev)
    by (rewrite getitem_plain by discriminate; rewrite Eev, Eyp; reflexivity).
  rewrite (bind_step _ _ ev idxs ev) by (unfold lift; rewrite Ein; reflexivity).
  destruct (Nat.eqb_spec (count_true idxs) 0) as [Hz | _]; [contradiction |].
  rewrite (bind_step _ _ ev ev ev) by reflexivity.
  rewrite (bind_step _ _ ev kept' ev)
    by (unfold lift, items; rewrite Eev, Esel; reflexivity).
  unfold lift. rewrite Epar.
  unfold __init__, ebind, lookup, as_arr, as_num.
  rewrite Exk, Epc, Esc, Edt. reflexivity.
- cbn. exact L2.
Qed.

End Filtering.

Lemma filter_events_selects_witness :
  exists kept idxs,
    EventList.filter_events Demo.pix2world Demo.get_filter Demo.inside_x_y
      "box" Demo.off_grid
    = (inr kept, Demo.off_grid)
    /\ Demo.inside_x_y (of_Z 10) [of_Z 1; of_Z 100] [of_Z 2; of_Z 2] = inr idxs
    /\ Forall2 (fun old new : string * list float =>
                  fst new = fst old
                  /\ Np.compress (snd old) idxs = Some (snd new))
               (EventList.events Demo.off_grid) (EventList.events kept)
    /\ (0 < EventList.num_events kept <= 2)%nat.
Proof.
destruct (EventList.filter_events Demo.pix2world Demo.get_filter
            Demo.inside_x_y "box" Demo.off_grid) as [[e | kept] ev'] eqn:E.
- exfalso. vm_compute in E. discriminate E.
- destruct (filter_events_selects Demo.pix2world float Demo.get_filter
              Demo.inside_x_y (EventList.events Demo.off_grid) Demo.detector
              Demo.off_grid "box" kept ev' eq_refl
              ltac:(repeat constructor; cbn; intuition discriminate) E)
    as (-> & f & xpix & ypix & idxs & Ef & Ex & Ey & Ei & HF & _ & _ & _ & Hn).
  injection Ef as <-. injection Ex as <-. injection Ey as <-.
  exists kept, idxs. auto.
Defined.

Lemma filter_events_returns_witness :
  exists kept,
    EventList.filter_events Demo.pix2world Demo.get_filter Demo.inside_x_y
      "box" Demo.off_grid
    = (inr kept, Demo.off_grid)
    /\ EventList.num_events kept = 1%nat.
Proof.
exact (filter_events_returns Demo.pix2world float Demo.get_filter
         Demo.inside_x_y (EventList.events Demo.off_grid) Demo.detector
         Demo.off_grid "box" (of_Z 10) [of_Z 1; of_Z 100] [of_Z 2; of_Z 2]
         [true; false] eq_refl eq_refl eq_refl eq_refl eq_refl
         ltac:(repeat constructor)
         ltac:(repeat constructor; cbn; intuition discriminate)
         ltac:(discriminate)).
Defined.

(** ** Old files in the new layout *)

Lemma insert_get {V} (g : Dict.dict V) k v k' :
  ~ In k (Dict.keys g) ->
  Dict.get (H5.insert g k v) k'
  = if String.eqb k k' then Some v else Dict.get g k'.
Proof.
induction g as [| [k0 v0] g IH]; intros Hk; cbn.
- reflexivity.
- destruct (String.ltb k k0); cbn; [reflexivity |].
  rewrite IH by (intros Hin; apply Hk; right; exact Hin).
  destruct (String.eqb_spec k0 k') as [-> | Hne]; [| reflexivity].
  destruct (String.eqb_spec k k') as [-> | _]; [| reflexivity].
  exfalso. apply Hk. left. reflexivity.
Qed.

Lemma insert_keys {V} (g : Dict.dict V) k v k' :
  In k' (Dict.keys (H5.insert g k v)) <-> k' = k \/ In k' (Dict.keys g).
Proof.
induction g as [| [k0 v0] g IH]; cbn.
- intuition.
- destruct (String.ltb k k0); cbn; [intuition |].
  rewrite IH. intuition.
Qed.

Lemma create_fresh {V} (g : Dict.dict V) k v :
  ~ In k (Dict.keys g) -> H5.create g k v = inr (H5.insert g k v).
Proof.
intros Hk. unfold H5.create, Dict.mem.
apply get_None_notin in Hk. rewrite Hk. reflexivity.
Qed.

Section Converting.

Import Monad.
Context {num : Type}.

Variable f_in : H5.file num.
Variable out : string.

(** The old layout: what the root holds under one of the names is a
    dataset. *)
Let flat (keys : list string) : Prop :=
  forall key n, In key keys -> Dict.get f_in key = Some n ->
                exists v, n = H5.Dataset v.

Lemma copy_keys_run g : forall keys (s : H5.fs num) f grp,
  Dict.get f g = Some (H5.Group grp) ->
  NoDup keys ->
  (forall key, In key keys -> ~ In key (Dict.keys grp)) ->
  flat keys ->
  exists grp',
    copy_keys f_in out g keys (Dict.set s out f)
    = (inr tt, Dict.set s out (Dict.set f g (H5.Group grp')))
    /\ forall k v,
         Dict.get grp' k = Some v
         <-> Dict.get grp k = Some v
             \/ (In k keys /\ Dict.get f_in k = Some (H5.Dataset v)).
Proof.
induction keys as [| key keys IH]; intros s f grp Eg Hnd Hfresh Hflat.
- exists grp. split.
  + cbn. unfold ret. f_equal. f_equal.
    clear - Eg. induction f as [| [k0 n0] f IHf]; cbn in *; [discriminate |].
    destruct (String.eqb k0 g) eqn:E.
    * inversion Eg; subst. apply String.eqb_eq in E. subst. reflexivity.
    * f_equal. apply IHf, Eg.
  + intros k v. cbn. tauto.
- inversion Hnd as [| ? ? Hnotin Hnd']; subst.
  unfold copy_keys. cbn [for_each]. fold (copy_keys f_in out g keys).
  destruct (Dict.get f_in key) as [n |] eqn:Ekey.
  + destruct (Hflat key n (or_introl eq_refl) Ekey) as (v0 & ->).
    assert (Hmem : Dict.mem f_in key = true) by (unfold Dict.mem; rewrite Ekey; reflexivity).
    rewrite Hmem.
    assert (Hk : ~ In key (Dict.keys grp)) by (apply Hfresh; left; reflexivity).
    erewrite bind_step.
    2:{ erewrite bind_step.
        2:{ unfold lift, H5.root_value. rewrite Ekey. reflexivity. }
        eapply create_dataset_run; [exact Eg | apply create_fresh, Hk]. }
    destruct (IH s (Dict.set f g (H5.Group (H5.insert grp key v0)))
                (H5.insert grp key v0))
      as (grp' & Erun & Hget).
    * apply get_set_same.
    * exact Hnd'.
    * intros k Hin Hin'. apply insert_keys in Hin' as [-> | Hin'].
      -- contradiction.
      -- apply (Hfresh k); [right; exact Hin | exact Hin'].
    * intros k n Hin. apply Hflat. right. exact Hin.
    * exists grp'. split; [rewrite Erun, set_set; reflexivity |].
      intros k v. rewrite Hget, insert_get by exact Hk.
      destruct (String.eqb_spec key k) as [<- | Hne].
      -- apply get_None_notin in Hk. rewrite Hk, Ekey. cbn.
         split.
         ++ intros [E | [Hin _]]; [| contradiction].
            inversion E; subst. right. auto.
         ++ intros [E | [_ E]]; [discriminate |].
            inversion E; subst. left. reflexivity.
      -- cbn. intuition congruence.
  + assert (Hmem : Dict.mem f_in key = false) by (unfold Dict.mem; rewrite Ekey; reflexivity).
    rewrite Hmem.
    rewrite (bind_step _ _ _ tt (Dict.set s out f)) by reflexivity.
    destruct (IH s f grp Eg Hnd') as (grp' & Erun & Hget).
    * intros k Hin. apply Hfresh. right. exact Hin.
    * intros k n Hin. apply Hflat. right. exact Hin.
    * exists grp'. split; [exact Erun |].
      intros k v. rewrite Hget. cbn.
      split; [intuition |].
      intros [E | [[<- | Hin] E]]; [auto | congruence | auto].
Qed.

End Converting.

Lemma NoDup_names :
  NoDup photon_params /\ NoDup photon_data
  /\ NoDup event_params /\ NoDup event_data.
Proof.
repeat split;
  match goal with
  | |- NoDup ?l =>
      change l with (nodup string_dec l); apply NoDup_nodup
  end.
Qed.

Section Converted.

Import Monad.
Context {num : Type}.

Lemma refuse_overwrite_run (s : H5.fs num) output clobber :
  Dict.mem s output = false \/ clobber = true ->
  refuse_overwrite output clobber s = (inr tt, s).
Proof.
intros Hc. unfold refuse_overwrite, bind, gets, ret.
destruct Hc as [-> | ->]; [reflexivity |].
cbn [negb]. rewrite andb_false_r. reflexivity.
Qed.

(** [convert_old_file] up to the two groups of the new file. *)
Lemma convert_old_file_groups (s : H5.fs num) input output clobber f_in :
  Dict.get s input = Some f_in ->
  input <> output ->
  Dict.mem s output = false \/ clobber = true ->
  convert_old_file input output clobber s
  = (params <- lift_opt (NameError "params")
                 (option_map fst
                    (if Dict.mem f_in "num_photons"
                     then Some (photon_params, photon_data)
                     else if Dict.mem f_in "pix_center"
                          then Some (event_params, event_data) else None)) ;;
     copy_keys f_in output "parameters" params ;;;
     data <- lift_opt (NameError "data")
               (option_map snd
                  (if Dict.mem f_in "num_photons"
                   then Some (photon_params, photon_data)
                   else if Dict.mem f_in "pix_center"
                        then Some (event_params, event_data) else None)) ;;
     copy_keys f_in output "data" data)%py
      (Dict.set s output
         [("data", H5.Group []); ("parameters", H5.Group [])]%string).
Proof.
intros Ein Hne Hc. unfold convert_old_file.
rewrite (bind_step _ _ _ _ _ (refuse_overwrite_run s output clobber Hc)).
rewrite (bind_step _ _ s f_in s)
  by (unfold H5.File_r, bind, gets, lift_opt, ret; rewrite Ein; reflexivity).
cbv zeta.
assert (Ew : H5.File_w output [input] s = (inr tt, Dict.set s output [])).
{ unfold H5.File_w. cbn [existsb].
  assert (E : String.eqb output input = false)
    by (apply String.eqb_neq; congruence).
  rewrite E. reflexivity. }
rewrite (bind_step _ _ _ _ _ Ew).
erewrite bind_step by (apply create_group_run; reflexivity).
erewrite bind_step by (apply create_group_run; reflexivity).
reflexivity.
Qed.

(** X14. [convert_old_file] on an old file that holds ["num_photons"]
    (a photon list) or else ["pix_center"] (an event list), whose root
    holds datasets only, into another file that may be written: the call
    returns, and the new file is the two groups ["data"] and
    ["parameters"]. A group holds a name with a value exactly when the
    name is in the list of lines 743-752 for that group and kind and the
    old file holds that value under it; no other file is changed. *)
Theorem convert_old_file_layout (s : H5.fs num) input output clobber f_in :
  Dict.get s input = Some f_in ->
  input <> output ->
  Dict.mem s output = false \/ clobber = true ->
  Dict.mem f_in "num_photons" = true \/ Dict.mem f_in "pix_center" = true ->
  (forall key n, Dict.get f_in key = Some n -> exists v, n = H5.Dataset v) ->
  let names :=
    if Dict.mem f_in "num_photons" then (photon_params, photon_data)
    else (event_params, event_data) in
  exists p d,
    convert_old_file input output clobber s
    = (inr tt,
       Dict.set s output [("data", H5.Group d); ("parameters", H5.Group p)]%string)
    /\ (forall k v,
          Dict.get p k = Some v
          <-> In k (fst names) /\ Dict.get f_in k = Some (H5.Dataset v))
    /\ (forall k v,
          Dict.get d k = Some v
          <-> In k (snd names) /\ Dict.get f_in k = Some (H5.Dataset v)).
Proof.
intros Ein Hne Hc Hkind Hflat names.
destruct NoDup_names as (N1 & N2 & N3 & N4).
assert (Hnames : (if Dict.mem f_in "num_photons"
                  then Some (photon_params, photon_data)
                  else if Dict.mem f_in "pix_center"
                       then Some (event_params, event_data) else None)
                 = Some names).
{ unfold names. destruct (Dict.mem f_in "num_photons"); [reflexivity |].
  destruct Hkind as [Hk | ->]; [discriminate | reflexivity]. }
assert (Nn : NoDup (fst names) /\ NoDup (snd names)).
{ unfold names. destruct (Dict.mem f_in "num_photons"); cbn; auto. }
destruct Nn as (Np & Nd).
set (f0 := [("data", H5.Group []); ("parameters", H5.Group [])]%string
           : H5.file num).
destruct (copy_keys_run f_in output "parameters" (fst names) s f0 [])
  as (p & Ep & Hp); [reflexivity | exact Np | intros ? ? [] | |].
{ intros key n _ E. apply (Hflat key n E). }
set (f1 := Dict.set f0 "parameters" (H5.Group p)) in Ep.
destruct (copy_keys_run f_in output "data" (snd names) s f1 [])
  as (d & Ed & Hd); [reflexivity | exact Nd | intros ? ? [] | |].
{ intros key n _ E. apply (Hflat key n E). }
exists p, d. split; [| split].
- rewrite (convert_old_file_groups s input output clobber f_in Ein Hne Hc).
  rewrite Hnames. cbn [option_map].
  rewrite (bind_step _ _ _ (fst names) (Dict.set s output f0)) by reflexivity.
  rewrite (bind_step _ _ _ _ _ Ep).
  rewrite (bind_step _ _ _ (snd names) (Dict.set s output f1)) by reflexivity.
  rewrite Ed. reflexivity.
- intros k v. rewrite Hp. cbn [Dict.get]. intuition discriminate.
- intros k v. rewrite Hd. cbn [Dict.get]. intuition discriminate.
Qed.

(** X15. On an old file that holds neither ["num_photons"] nor
    ["pix_center"] the lists [params] and [data] are never bound.
    [convert_old_file] ends in the [NameError] of [params] at line 759,
    after line 754 has created the output file: what the output file held
    before is lost, and it is left with two empty groups. *)
Theorem convert_old_file_unknown (s : H5.fs num) input output clobber f_in :
  Dict.get s input = Some f_in ->
  input <> output ->
  Dict.mem s output = false \/ clobber = true ->
  Dict.mem f_in "num_photons" = false ->
  Dict.mem f_in "pix_center" = false ->
  convert_old_file input output clobber s
  = (inl (NameError "params"),
     Dict.set s output [("data", H5.Group []); ("parameters", H5.Group [])]%string).
Proof.
intros Ein Hne Hc H1 H2.
rewrite (convert_old_file_groups s input output clobber f_in Ein Hne Hc).
rewrite H1, H2. reflexivity.
Qed.

End Converted.

(** The root of the old photon file of [Demo] holds datasets only. *)
Lemma old_photons_flat :
  forall key n, Dict.get Demo.old_photons key = Some n ->
                exists v, n = H5.Dataset v.
Proof.
intros key n.
let f := eval vm_compute in Demo.old_photons in change Demo.old_photons with f.
cbn [Dict.get].
repeat (destruct (String.eqb _ key); [intros E; inversion E; eauto |]).
intros E. discriminate E.
Defined.

Lemma convert_old_file_layout_witness :
  exists p d,
    convert_old_file "old.h5" "new.h5" false Demo.old_files
    = (inr tt,
       Dict.set Demo.old_files "new.h5"
         [("data", H5.Group d); ("parameters", H5.Group p)]%string)
    /\ (forall k v,
          Dict.get p k = Some v
          <-> In k photon_params
              /\ Dict.get Demo.old_photons k = Some (H5.Dataset v))
    /\ (forall k v,
          Dict.get d k = Some v
          <-> In k photon_data
              /\ Dict.get Demo.old_photons k = Some (H5.Dataset v)).
Proof.
exact (convert_old_file_layout Demo.old_files "old.h5" "new.h5" false
         Demo.old_photons eq_refl ltac:(discriminate) (or_introl eq_refl)
         (or_introl eq_refl) old_photons_flat).
Defined.

Lemma convert_old_file_unknown_witness :
  convert_old_file "notes.h5" "old.h5" true Demo.old_files
  = (inl (NameError "params"),
     [("old.h5", [("data", H5.Group []); ("parameters", H5.Group [])]);
      ("notes.h5", [("notes", H5.Dataset (H5.Str "none"))])]%string).
Proof.
exact (convert_old_file_unknown Demo.old_files "notes.h5" "old.h5" true
         [("notes", H5.Dataset (H5.Str "none"))]%string eq_refl
         ltac:(discriminate) (or_intror eq_refl) eq_refl eq_refl).
Defined.

Lemma Forall2_nth {A B} (R : A -> B -> Prop) : forall l l' i a b,
  Forall2 R l l' -> nth_error l i = Some a -> nth_error l' i = Some b -> R a b.
Proof.
intros l l' i a b HF. revert i.
induction HF as [| x y l l' Hxy HF IH]; intros [| i] Ea Eb; cbn in *;
  try discriminate.
- inversion Ea; inversion Eb; subst. exact Hxy.
- eapply IH; eassumption.
Qed.

Section ConvertedPhotons.

Import PhotonList Monad.
Context {num : Type} `{Scalar num}.
Variable force_unicode : string -> string.
Variable Cosmology : num -> num -> num -> num -> num -> num.

(** X16. An old photon file, converted by [convert_old_file] and read by
    [from_file] in a serial run, gives the photons of the old file and its
    nine parameters, with the [DataType] ["cells"]: ["data_type"] is not
    among the names of lines 744-746, so the new file has none. The columns are
    taken to be no longer than [x] and the energies no more than the
    counts add up to. *)
Theorem convert_old_photon_file (s : H5.fs num) input output clobber f_in
    (ph : Photons num) (p : Parameters num) :
  Dict.get s input = Some f_in ->
  input <> output ->
  Dict.mem s output = false \/ clobber = true ->
  (forall key n, Dict.get f_in key = Some n -> exists v, n = H5.Dataset v) ->
  Forall2 (fun key v => Dict.get f_in key = Some (H5.Dataset v))
    (photon_params ++ photon_data)
    [H5.Float (FiducialExposureTime p); H5.Float (FiducialArea p);
     H5.Float (FiducialAngularDiameterDistance p);
     H5.Float (FiducialRedshift p); H5.Int (Dimension p);
     H5.Float (Width p); H5.Float (HubbleConstant p);
     H5.Float (OmegaMatter p); H5.Float (OmegaLambda p);
     H5.Floats (ph_x ph); H5.Floats (ph_y ph); H5.Floats (ph_z ph);
     H5.Floats (ph_dx ph); H5.Floats (ph_vx ph); H5.Floats (ph_vy ph);
     H5.Floats (ph_vz ph); H5.Floats (Energy ph);
     H5.Ints (NumberOfPhotons ph)] ->
  Forall (fun col : list num => (List.length col <= List.length (ph_x ph))%nat)
         [ph_y ph; ph_z ph; ph_dx ph; ph_vx ph; ph_vy ph; ph_vz ph] ->
  (List.length (NumberOfPhotons ph) <= List.length (ph_x ph))%nat ->
  Z.of_nat (List.length (Energy ph)) <= Np.sum (NumberOfPhotons ph) ->
  exists s',
    convert_old_file input output clobber s = (inr tt, s')
    /\ from_file 0 1 force_unicode Cosmology output s'
       = (inr (__init__ ph
                 {| FiducialExposureTime := FiducialExposureTime p;
                    FiducialArea := FiducialArea p;
                    FiducialRedshift := FiducialRedshift p;
                    FiducialAngularDiameterDistance :=
                      FiducialAngularDiameterDistance p;
                    Dimension := Dimension p;
                    Width := Width p;
                    DataType := "cells";
                    HubbleConstant := HubbleConstant p;
                    OmegaMatter := OmegaMatter p;
                    OmegaLambda := OmegaLambda p |}
                 (Cosmology (HubbleConstant p) (OmegaMatter p) (OmegaLambda p))),
          s').
Proof.
intros Ein Hne Hc Hflat Hold Hcols Hn HE.
set (vals := [H5.Float (FiducialExposureTime p); _; _; _; _; _; _; _; _;
              _; _; _; _; _; _; _; _; _]) in Hold.
pose proof (fun i key v => Forall2_nth _ _ _ i key v Hold) as Hat.
assert (Hkind : Dict.mem f_in "num_photons" = true).
{ unfold Dict.mem. rewrite (Hat 17%nat _ _ eq_refl eq_refl). reflexivity. }
destruct (convert_old_file_layout s input output clobber f_in Ein Hne Hc
            (or_introl Hkind) Hflat) as (pg & dg & Erun & Hp & Hd).
rewrite Hkind in Hp, Hd. cbn [fst snd] in Hp, Hd.
eexists. split; [exact Erun |].
rewrite (from_file_run _ _ _ _ _ _ _ (get_set_same s output _)).
f_equal. unfold read_photon_list, H5.group_of.
cbn [Dict.get String.eqb Ascii.eqb Bool.eqb try_bind].
assert (Edt : Dict.mem pg "data_type" = false).
{ unfold Dict.mem. destruct (Dict.get pg "data_type") as [v |] eqn:E;
    [| reflexivity].
  apply Hp in E as (Hin & _). cbn in Hin. exfalso. intuition discriminate. }
assert (Hpg : forall i key v,
          nth_error photon_params i = Some key ->
          nth_error (firstn 9 vals) i = Some v ->
          Dict.get pg key = Some v).
{ intros i key v Ek Ev. apply Hp. split; [eapply nth_error_In; exact Ek |].
  assert (Hi : (i < List.length photon_params)%nat)
    by (apply nth_error_Some; rewrite Ek; discriminate).
  apply (Hat i).
  - rewrite nth_error_app1 by exact Hi. exact Ek.
  - rewrite nth_error_firstn in Ev.
    cbn in Hi. destruct (Nat.ltb_spec i 9); [exact Ev | lia]. }
assert (Hdg : forall i key v,
          nth_error photon_data i = Some key ->
          nth_error (skipn 9 vals) i = Some v ->
          Dict.get dg key = Some v).
{ intros i key v Ek Ev. apply Hd. split; [eapply nth_error_In; exact Ek |].
  apply (Hat (9 + i)%nat).
  - rewrite nth_error_app2 by (cbn; lia).
    replace (9 + i - List.length photon_params)%nat with i by (cbn; lia).
    exact Ek.
  - rewrite nth_error_skipn in Ev. exact Ev. }
unfold H5.dataset.
rewrite (Hpg 0%nat "fid_exp_time"%string _ eq_refl eq_refl).
rewrite (Hpg 1%nat "fid_area"%string _ eq_refl eq_refl).
rewrite (Hpg 2%nat "fid_d_a"%string _ eq_refl eq_refl).
rewrite (Hpg 3%nat "fid_redshift"%string _ eq_refl eq_refl).
rewrite (Hpg 4%nat "dimension"%string _ eq_refl eq_refl).
rewrite (Hpg 5%nat "width"%string _ eq_refl eq_refl).
rewrite (Hpg 6%nat "hubble"%string _ eq_refl eq_refl).
rewrite (Hpg 7%nat "omega_matter"%string _ eq_refl eq_refl).
rewrite (Hpg 8%nat "omega_lambda"%string _ eq_refl eq_refl).
rewrite Edt.
rewrite (Hdg 0%nat "x"%string _ eq_refl eq_refl).
rewrite (Hdg 1%nat "y"%string _ eq_refl eq_refl).
rewrite (Hdg 2%nat "z"%string _ eq_refl eq_refl).
rewrite (Hdg 3%nat "dx"%string _ eq_refl eq_refl).
rewrite (Hdg 4%nat "vx"%string _ eq_refl eq_refl).
rewrite (Hdg 5%nat "vy"%string _ eq_refl eq_refl).
rewrite (Hdg 6%nat "vz"%string _ eq_refl eq_refl).
rewrite (Hdg 7%nat "energy"%string _ eq_refl eq_refl).
rewrite (Hdg 8%nat "num_photons"%string _ eq_refl eq_refl).
cbn [try_bind try_opt YTQuantity number integer text floats counts].
set (n := Z.of_nat (List.length (ph_x ph))).
assert (Hlo : start_c 0 1 n = 0) by reflexivity.
assert (Hhi : end_c 0 1 n = n).
{ unfold end_c. rewrite Z.add_0_l, Z.mul_1_l, Z.div_1_r. reflexivity. }
assert (Hs : start_e 0 1 (NumberOfPhotons ph) n = 0) by reflexivity.
assert (He : end_e 0 1 (NumberOfPhotons ph) n = Np.sum (NumberOfPhotons ph)).
{ unfold end_e. rewrite Hs, Hlo, Hhi, Z.add_0_l.
  rewrite slice_all by (unfold n; lia).
  unfold Np.sum, Np.wrap64.
  destruct (NumberOfPhotons ph) as [| c cs] using rev_ind; [reflexivity |].
  rewrite fold_left_app. cbn [fold_left]. unfold Np.wrap64.
  apply Z.mod_mod. unfold Np.uint64_modulus. lia. }
rewrite Hlo, Hhi, Hs, He.
rewrite Forall_forall in Hcols.
rewrite !slice_all;
  try (unfold n; lia);
  try (unfold n; apply inj_le; apply Hcols; cbn; auto 10).
destruct ph. reflexivity.
Qed.

End ConvertedPhotons.

Lemma convert_old_photon_file_witness :
  exists s',
    convert_old_file "old.h5" "new.h5" false Demo.old_files = (inr tt, s')
    /\ PhotonList.from_file 0 1 (fun s => s) Demo.cosmology "new.h5" s'
       = (inr Demo.sample, s').
Proof.
exact (convert_old_photon_file (fun s => s) Demo.cosmology Demo.old_files
         "old.h5" "new.h5" false Demo.old_photons Demo.sample_photons
         Demo.sample_parameters eq_refl ltac:(discriminate)
         (or_introl eq_refl) old_photons_flat
         ltac:(repeat constructor) ltac:(repeat constructor)
         ltac:(cbn; lia) ltac:(vm_compute; discriminate)).
Defined.

(** ** Merged files *)

Section FileInversion.

Import Monad.
Context {num : Type}.

Lemma File_r_inr name (st : H5.fs num) f st' :
  H5.File_r name st = (inr f, st') -> st' = st /\ Dict.get st name = Some f.
Proof.
unfold H5.File_r, bind, gets, lift_opt, ret, raise.
destruct (Dict.get st name) as [f' |]; intros E; inversion E; auto.
Qed.

Lemma lift_inr {W A} (c : exn + A) (w : W) a w' :
  lift c w = (inr a, w') -> c = inr a /\ w' = w.
Proof. unfold lift. destruct c; intros E; inversion E; auto. Qed.

Lemma create_group_inr out name (st : H5.fs num) st' :
  H5.create_group out name st = (inr tt, st') ->
  exists f,
    Dict.get st out = Some f
    /\ ~ In name (Dict.keys f)
    /\ st' = Dict.set st out (H5.insert f name (H5.Group [])).
Proof.
unfold H5.create_group. intros E.
apply bind_inr in E as (f & st1 & Ef & E).
apply File_r_inr in Ef as (-> & Ef).
apply bind_inr in E as (f' & st1 & Ec & E).
apply lift_inr in Ec as (Ec & ->).
unfold H5.create in Ec.
destruct (Dict.mem f name) eqn:Em; [discriminate |]. inversion Ec; subst f'.
unfold modify in E. inversion E.
exists f. split; [exact Ef |]. split; [| reflexivity].
apply get_None_notin, mem_false, Em.
Qed.

Lemma create_dataset_inr out g key v (st : H5.fs num) st' :
  H5.create_dataset out g key v st = (inr tt, st') ->
  exists f grp,
    Dict.get st out = Some f
    /\ Dict.get f g = Some (H5.Group grp)
    /\ ~ In key (Dict.keys grp)
    /\ st' = Dict.set st out (Dict.set f g (H5.Group (H5.insert grp key v))).
Proof.
unfold H5.create_dataset. intros E.
apply bind_inr in E as (f & st1 & Ef & E).
apply File_r_inr in Ef as (-> & Ef).
apply bind_inr in E as (grp & st1 & Eg & E).
apply lift_inr in Eg as (Eg & ->).
apply bind_inr in E as (grp' & st1 & Ec & E).
apply lift_inr in Ec as (Ec & ->).
unfold H5.group_of in Eg.
destruct (Dict.get f g) as [[? | grp0] |] eqn:Efg; try discriminate.
inversion Eg; subst grp0.
unfold H5.create in Ec.
destruct (Dict.mem grp key) eqn:Em; [discriminate |]. inversion Ec; subst grp'.
unfold modify in E. inversion E.
exists f, grp. split; [exact Ef |]. split; [exact Efg |].
split; [| reflexivity].
apply get_None_notin, mem_false, Em.
Qed.

(** A loop keeps what each of its rounds keeps. *)
Lemma for_each_keeps {W A} (P : W -> Prop) (body : A -> M W unit) :
  forall l w w',
    (forall a w1 w2, In a l -> body a w1 = (inr tt, w2) -> P w1 -> P w2) ->
    for_each body l w = (inr tt, w') -> P w -> P w'.
Proof.
induction l as [| a l IH]; intros w w' Hb E Hw; cbn in E.
- unfold ret in E. inversion E; subst. exact Hw.
- apply bind_inr in E as ([] & w1 & Ea & E).
  apply (IH w1 w'); [| exact E |].
  + intros b u1 u2 Hin. apply Hb. right. exact Hin.
  + apply (Hb a w w1); [left; reflexivity | exact Ea | exact Hw].
Qed.

End FileInversion.

Section MergedPhotons.

Import PhotonList Monad.
Context {num : Type} `{Scalar num}.
Variable validate_parameters :
  H5.group num -> H5.node num -> list string -> exn + unit.
Variable out : string.

(** The output file has a group of parameters without
    ["fid_exp_time"]. *)
Let no_fid (st : H5.fs num) : Prop :=
  exists f g,
    Dict.get st out = Some f
    /\ Dict.get f "parameters" = Some (H5.Group g)
    /\ Dict.get g "fid_exp_time" = None.

Lemma create_group_parameters st st' :
  H5.create_group out "parameters" st = (inr tt, st') -> no_fid st'.
Proof.
intros E. apply create_group_inr in E as (f & Ef & Hn & ->).
exists (H5.insert f "parameters" (H5.Group [])), [].
split; [apply get_set_same |]. split; [| reflexivity].
rewrite insert_get by exact Hn. reflexivity.
Qed.

Lemma create_group_keeps name st st' :
  name <> "parameters"%string ->
  H5.create_group out name st = (inr tt, st') -> no_fid st -> no_fid st'.
Proof.
intros Hne E (f0 & g0 & Ef0 & Eg0 & Hg0).
apply create_group_inr in E as (f & Ef & Hn & ->).
rewrite Ef0 in Ef. inversion Ef; subst f0.
exists (H5.insert f name (H5.Group [])), g0.
split; [apply get_set_same |]. split; [| exact Hg0].
rewrite insert_get by exact Hn.
apply String.eqb_neq in Hne. rewrite Hne. exact Eg0.
Qed.

Lemma create_dataset_keeps g key v st st' :
  key <> "fid_exp_time"%string ->
  H5.create_dataset out g key v st = (inr tt, st') -> no_fid st -> no_fid st'.
Proof.
intros Hne E (f0 & g0 & Ef0 & Eg0 & Hg0).
apply create_dataset_inr in E as (f & grp & Ef & Eg & Hn & ->).
rewrite Ef0 in Ef. inversion Ef; subst f0.
destruct (String.eqb_spec g "parameters") as [-> | Hg].
- rewrite Eg0 in Eg. inversion Eg; subst g0.
  exists (Dict.set f "parameters" (H5.Group (H5.insert grp key v))),
    (H5.insert grp key v).
  split; [apply get_set_same |]. split; [apply get_set_same |].
  rewrite insert_get by exact Hn.
  apply String.eqb_neq in Hne. rewrite Hne. exact Hg0.
- exists (Dict.set f g (H5.Group (H5.insert grp key v))), g0.
  split; [apply get_set_same |]. split; [| exact Hg0].
  rewrite get_set_other by exact Hg. exact Eg0.
Qed.

Lemma copy_parameters_keeps : forall its key0 st key st',
  copy_parameters out its key0 st = (inr key, st') -> no_fid st -> no_fid st'.
Proof.
induction its as [| [k v] its IH]; intros key0 st key st' E Hst; cbn in E.
- unfold ret in E. inversion E; subst. exact Hst.
- destruct (endswith k "exp_time") eqn:Ek.
  + apply (IH _ _ _ _ E Hst).
  + apply bind_inr in E as ([] & st1 & Ec & E).
    apply (IH _ _ _ _ E).
    apply (create_dataset_keeps _ _ _ _ _) with (3 := Hst) (2 := Ec).
    intros Hk. subst k. vm_compute in Ek. discriminate Ek.
Qed.

Lemma gather_data_state add key : forall fns first tot data st r st',
  gather_data add key fns first tot data st = (inr r, st') -> st' = st.
Proof.
induction fns as [| fn fns IH]; intros first tot data st r st' E; cbn in E.
- unfold ret in E. inversion E. reflexivity.
- apply bind_inr in E as (f & st1 & Ef & E).
  apply File_r_inr in Ef as (-> & _).
  apply bind_inr in E as (tot' & st1 & Et & E).
  assert (st1 = st) as ->.
  { destruct (add || first).
    - apply bind_inr in Et as (p & st2 & Ep & Et).
      apply lift_inr in Ep as (_ & ->).
      apply bind_inr in Et as (v & st2 & Ev & Et).
      apply lift_inr in Ev as (_ & ->).
      destruct add.
      + apply lift_inr in Et as (_ & ->). reflexivity.
      + unfold ret in Et. inversion Et. reflexivity.
    - unfold ret in Et. inversion Et. reflexivity. }
  apply bind_inr in E as (d & st1 & Ed & E).
  apply lift_inr in Ed as (_ & ->).
  apply bind_inr in E as (data' & st1 & Ea & E).
  apply lift_inr in Ea as (_ & ->).
  apply (IH _ _ _ _ _ _ E).
Qed.

(** X17. A file that [merge_files] has written cannot be read as a photon
    list. The loop of lines 681-685 copies no parameter whose name ends in
    ["exp_time"], and line 708 stores the exposure time as ["exp_time"]:
    whatever the input files hold, the output has no ["fid_exp_time"], and
    [from_file], which reads it first, ends in its [KeyError]. *)
Theorem merge_files_photon_list (input_files : list string)
    (clobber add_exposure_times : bool) (s s' : H5.fs num) (rank size : Z)
    (force_unicode : string -> string)
    (Cosmology : num -> num -> num -> num -> num -> num) :
  merge_files validate_parameters input_files out clobber add_exposure_times s
  = (inr tt, s') ->
  from_file rank size force_unicode Cosmology out s'
  = (inl (KeyError "fid_exp_time"), s').
Proof.
intros E. unfold merge_files in E.
apply bind_inr in E as ([] & st & _ & E).
apply bind_inr in E as (first & st1 & _ & E).
apply bind_inr in E as (f_in & st2 & _ & E).
apply bind_inr in E as ([] & st3 & _ & E).
apply bind_inr in E as ([] & st4 & Eg & E).
apply create_group_parameters in Eg.
apply bind_inr in E as (p_in & st5 & Ep & E).
apply lift_inr in Ep as (_ & ->).
apply bind_inr in E as (key & st5 & Ec & E).
apply copy_parameters_keeps in Ec; [| exact Eg].
cbv zeta in E.
apply bind_inr in E as ([] & st6 & Ev & E).
assert (st6 = st5) as ->.
{ apply (for_each_keeps (fun w => w = st5)) with (2 := Ev); [| reflexivity].
  intros fn w1 w2 _ Eb ->.
  apply bind_inr in Eb as (f & w3 & Ef & Eb).
  apply File_r_inr in Ef as (-> & _).
  apply bind_inr in Eb as (p & w3 & Ep & Eb).
  apply lift_opt_inr in Ep as (_ & ->).
  apply lift_inr in Eb as (_ & ->). reflexivity. }
apply bind_inr in E as (gathered & st6 & Eg' & E).
apply gather_data_state in Eg' as ->.
apply bind_inr in E as ([] & st6 & Ee & E).
apply create_dataset_keeps in Ee; [| discriminate | exact Ec].
apply bind_inr in E as ([] & st7 & Ed & E).
apply create_group_keeps in Ed; [| discriminate | exact Ee].
assert (Hs' : no_fid s').
{ apply (for_each_keeps no_fid) with (2 := E); [| exact Ed].
  intros kv w1 w2 _ Eb Hw.
  apply bind_inr in Eb as (v & w3 & Ev' & Eb).
  apply lift_inr in Ev' as (_ & ->).
  destruct (String.eqb_spec (fst kv) "fid_exp_time") as [Ek | Hk].
  - apply create_dataset_inr in Eb as (f & grp & Ef & Eg0 & Hn & ->).
    destruct Hw as (f0 & g0 & Ef0 & Eg1 & Hg0).
    rewrite Ef0 in Ef. inversion Ef; subst f0.
    exists (Dict.set f "data" (H5.Group (H5.insert grp (fst kv) v))), g0.
    split; [apply get_set_same |]. split; [| exact Hg0].
    rewrite get_set_other by discriminate. exact Eg1.
  - apply (create_dataset_keeps _ _ _ _ _ Hk Eb Hw). }
destruct Hs' as (f & g & Ef & Eg0 & Hg).
unfold from_file, H5.File_r, bind, gets, lift_opt, lift, ret.
rewrite Ef. f_equal.
unfold read_photon_list, H5.group_of. rewrite Eg0.
cbn [try_bind]. unfold H5.dataset at 1. rewrite Hg. reflexivity.
Qed.

End MergedPhotons.

Lemma merge_files_photon_list_witness :
  exists s',
    merge_files Demo.accept ["photons.h5"; "photons.h5"]%string "merged.h5"
      false true Demo.files
    = (inr tt, s')
    /\ PhotonList.from_file 0 1 (fun s => s) Demo.cosmology "merged.h5" s'
       = (inl (KeyError "fid_exp_time"), s').
Proof.
destruct (merge_files Demo.accept ["photons.h5"; "photons.h5"]%string
            "merged.h5" false true Demo.files) as [[e | []] s'] eqn:E.
- exfalso. vm_compute in E. discriminate E.
- exists s'. split; [reflexivity |].
  exact (merge_files_photon_list Demo.accept "merged.h5" _ false true
           Demo.files s' 0 1 (fun s => s) Demo.cosmology E).
Defined.

Lemma get_In {V} (d : Dict.dict V) k v :
  NoDup (Dict.keys d) -> (Dict.get d k = Some v <-> In (k, v) d).
Proof.
induction d as [| [k0 v0] d IH]; cbn; intros Hnd.
- split; [discriminate | tauto].
- inversion Hnd as [| ? ? Hn Hnd']; subst.
  destruct (String.eqb_spec k0 k) as [-> | Hne].
  + split.
    * intros E. inversion E. left. reflexivity.
    * intros [E | Hin]; [inversion E; reflexivity |].
      exfalso. apply Hn. apply (in_map fst) in Hin. exact Hin.
  + rewrite (IH Hnd'). split; [tauto |].
    intros [E | Hin]; [inversion E; congruence | exact Hin].
Qed.

Lemma set_keys {V} (d : Dict.dict V) k v k' :
  In k' (Dict.keys (Dict.set d k v)) <-> k' = k \/ In k' (Dict.keys d).
Proof.
induction d as [| [k0 v0] d IH]; cbn.
- intuition.
- destruct (String.eqb_spec k0 k) as [-> | Hne]; cbn.
  + intuition.
  + rewrite IH. intuition.
Qed.

Lemma set_NoDup {V} (d : Dict.dict V) k v :
  NoDup (Dict.keys d) -> NoDup (Dict.keys (Dict.set d k v)).
Proof.
induction d as [| [k0 v0] d IH]; cbn; intros Hnd.
- repeat constructor. intros [].
- inversion Hnd as [| ? ? Hn Hnd']; subst.
  destruct (String.eqb_spec k0 k) as [-> | Hne]; cbn.
  + constructor; assumption.
  + constructor; [| apply IH, Hnd'].
    intros Hin. apply set_keys in Hin as [-> | Hin]; [congruence | contradiction].
Qed.

Lemma get_keys {V} (d : Dict.dict V) k :
  In k (Dict.keys d) <-> exists v, Dict.get d k = Some v.
Proof.
destruct (Dict.get d k) as [v |] eqn:E.
- split; [eauto |]. intros _.
  destruct (in_dec string_dec k (Dict.keys d)) as [Hin | Hn]; [exact Hin |].
  apply get_None_notin in Hn. congruence.
- apply get_None_notin in E. split; [contradiction |].
  intros (v & Hv). discriminate.
Qed.

Section MergeSteps.

Import Monad.
Context {num : Type} `{Scalar num}.
Variable out : string.

Lemma copy_parameters_run ek : forall its key0 (s : H5.fs num) f grp,
  Dict.get f "parameters" = Some (H5.Group grp) ->
  NoDup (Dict.keys its) ->
  (forall k, In k (Dict.keys its) -> ~ In k (Dict.keys grp)) ->
  (forall k, In k (Dict.keys its) -> endswith k "exp_time" = true -> k = ek) ->
  key0 = ek \/ In ek (Dict.keys its) ->
  endswith ek "exp_time" = true ->
  exists grp',
    copy_parameters out its key0 (Dict.set s out f)
    = (inr ek, Dict.set s out (Dict.set f "parameters" (H5.Group grp')))
    /\ forall k v,
         Dict.get grp' k = Some v
         <-> Dict.get grp k = Some v
             \/ (endswith k "exp_time" = false /\ In (k, v) its).
Proof.
induction its as [| [k0 v0] its IH];
  intros key0 s f grp Eg Hnd Hfresh Huniq Hek Hend.
- destruct Hek as [-> | []]. exists grp. split.
  + cbn. unfold ret. f_equal. f_equal.
    clear - Eg. induction f as [| [k1 n1] f IHf]; cbn in *; [discriminate |].
    destruct (String.eqb k1 "parameters") eqn:E.
    * inversion Eg; subst. apply String.eqb_eq in E. subst. reflexivity.
    * f_equal. apply IHf, Eg.
  + intros k v. cbn. tauto.
- cbn in Hnd. inversion Hnd as [| ? ? Hn Hnd']; subst.
  cbn [copy_parameters].
  destruct (endswith k0 "exp_time") eqn:Ek0.
  + assert (k0 = ek) as -> by (apply Huniq; [left; reflexivity | exact Ek0]).
    destruct (IH ek s f grp Eg Hnd') as (grp' & Erun & Hget).
    * intros k Hin. apply Hfresh. right. exact Hin.
    * intros k Hin. apply Huniq. right. exact Hin.
    * left. reflexivity.
    * exact Hend.
    * exists grp'. split; [exact Erun |].
      intros k v. rewrite Hget. split.
      -- intros [E | [Ee Hin]]; [left; exact E | right; split; [exact Ee |]].
         right. exact Hin.
      -- intros [E | [Ee [Ei | Hin]]]; [left; exact E | | right; auto].
         inversion Ei; subst. congruence.
  + assert (Hk : ~ In k0 (Dict.keys grp)) by (apply Hfresh; left; reflexivity).
    erewrite bind_step
      by (eapply create_dataset_run; [exact Eg | apply create_fresh, Hk]).
    destruct (IH key0 s (Dict.set f "parameters" (H5.Group (H5.insert grp k0 v0)))
                (H5.insert grp k0 v0))
      as (grp' & Erun & Hget).
    * apply get_set_same.
    * exact Hnd'.
    * intros k Hin Hin'. apply insert_keys in Hin' as [-> | Hin'].
      -- contradiction.
      -- apply (Hfresh k); [right; exact Hin | exact Hin'].
    * intros k Hin. apply Huniq. right. exact Hin.
    * destruct Hek as [Hk0 | [Hk0 | Hin]].
      -- left. exact Hk0.
      -- exfalso. cbn in Hk0. rewrite Hk0, Hend in Ek0. discriminate Ek0.
      -- right. exact Hin.
    * exact Hend.
    * exists grp'. split; [rewrite Erun, set_set; reflexivity |].
      intros k v. rewrite Hget, insert_get by exact Hk.
      destruct (String.eqb_spec k0 k) as [<- | Hne].
      -- apply get_None_notin in Hk. rewrite Hk. split.
         ++ intros [E | [Ee Hin]].
            ** inversion E; subst. right. split; [exact Ek0 | left; reflexivity].
            ** exfalso. apply Hn. apply (in_map fst) in Hin. exact Hin.
         ++ intros [E | [Ee [Ei | Hin]]]; [discriminate | |].
            ** inversion Ei; subst. left. reflexivity.
            ** exfalso. apply Hn. apply (in_map fst) in Hin. exact Hin.
      -- split.
         ++ intros [E | [Ee Hin]]; [left; exact E | right; split; [exact Ee |]].
            right. exact Hin.
         ++ intros [E | [Ee [Ei | Hin]]]; [left; exact E | | right; auto].
            inversion Ei; subst. congruence.
Qed.

(** The arrays: what [d[key][:]] accepts. *)
Let is_array (v : H5.value num) : Prop := H5.whole v = inr v.

Lemma append_data_run (d : H5.group num) : forall keys data,
  NoDup keys ->
  (forall k, In k keys -> exists a, Dict.get d k = Some a /\ is_array a) ->
  exists data',
    append_data d keys data = inr data'
    /\ (NoDup (Dict.keys data) -> NoDup (Dict.keys data'))
    /\ (forall k a, In k keys -> Dict.get d k = Some a ->
          Dict.get data' k
          = Some (match Dict.get data k with Some l => l | None => [] end
                  ++ [a]))
    /\ (forall k, ~ In k keys -> Dict.get data' k = Dict.get data k).
Proof.
induction keys as [| key keys IH]; intros data Hnd Hd.
- exists data. cbn. split; [reflexivity |]. split; [auto |].
  split; [intros k a [] | reflexivity].
- inversion Hnd as [| ? ? Hn Hnd']; subst.
  destruct (Hd key (or_introl eq_refl)) as (a0 & Ea0 & Ha0).
  cbn [append_data]. unfold H5.dataset. rewrite Ea0.
  cbn [try_opt try_bind]. rewrite Ha0. cbn [try_bind].
  set (data1 := Dict.set data key _).
  destruct (IH data1 Hnd') as (data' & Erun & Hnd1 & Hin & Hout).
  { intros k Hk. apply Hd. right. exact Hk. }
  exists data'. split; [exact Erun |].
  split; [intros Hdd; apply Hnd1, set_NoDup, Hdd |].
  split.
  + intros k a [<- | Hk] Ea.
    * rewrite Hout by exact Hn. unfold data1. rewrite get_set_same.
      rewrite Ea0 in Ea. inversion Ea. reflexivity.
    * rewrite (Hin k a Hk Ea). unfold data1.
      rewrite get_set_other by (intros ->; contradiction). reflexivity.
  + intros k Hk. rewrite Hout by (intros Hin'; apply Hk; right; exact Hin').
    unfold data1. rewrite get_set_other; [reflexivity |].
    intros ->. apply Hk. left. reflexivity.
Qed.

End MergeSteps.

Section MergeData.

Import Monad.
Context {num : Type} `{Scalar num}.
Variable validate_parameters :
  H5.group num -> H5.node num -> list string -> exn + unit.
Variable out : string.

(** An input file: its name, its parameters and its data. *)
Let input : Type := (string * H5.group num * H5.group num)%type.
Let name (x : input) : string := fst (fst x).
Let par (x : input) : H5.group num := snd (fst x).
Let dat (x : input) : H5.group num := snd x.

Let held (s : H5.fs num) (x : input) : Prop :=
  exists f,
    Dict.get s (name x) = Some f
    /\ Dict.get f "parameters" = Some (H5.Group (par x))
    /\ Dict.get f "data" = Some (H5.Group (dat x)).

Let arrays (x : input) : Prop :=
  NoDup (Dict.keys (dat x))
  /\ Forall (fun kv => H5.whole (snd kv) = inr (snd kv)) (dat x).

(** The arrays that the files hold under [k], in the order of the files. *)
Let chunks (l : list input) (k : string) : list (H5.value num) :=
  flat_map (fun x => match Dict.get (dat x) k with
                     | Some a => [a]
                     | None => []
                     end) l.

Let joined (o : option (list (H5.value num))) (c : list (H5.value num))
    : option (list (H5.value num)) :=
  match o, c with
  | None, [] => None
  | _, _ => Some (match o with Some l => l | None => [] end ++ c)
  end.

Lemma gather_data_run sum_times ek : forall (l : list input) first t ts data
    (s : H5.fs num),
  Forall (held s) l ->
  Forall arrays l ->
  Forall2 (fun x t => Dict.get (par x) ek = Some (H5.Float t)) l ts ->
  exists data',
    gather_data sum_times ek (map name l) first (H5.Float t) data s
    = (inr (H5.Float (if sum_times then fold_left add ts t
                      else if first then hd t ts else t), data'), s)
    /\ (NoDup (Dict.keys data) -> NoDup (Dict.keys data'))
    /\ forall k, Dict.get data' k = joined (Dict.get data k) (chunks l k).
Proof.
induction l as [| x l IH]; intros first t ts data s Hheld Harr Hts.
- inversion Hts; subst. exists data. split.
  + cbn. destruct sum_times, first; reflexivity.
  + split; [auto |]. intros k. cbn. destruct (Dict.get data k); cbn;
      [rewrite app_nil_r |]; reflexivity.
- inversion Hheld as [| ? ? (f & Ef & Ep & Ed) Hheld']; subst.
  inversion Harr as [| ? ? (Hnd & Hwhole) Harr']; subst.
  inversion Hts as [| ? t0 ? ts' Et0 Hts']; subst.
  destruct (append_data_run (dat x) (Dict.keys (dat x)) data Hnd)
    as (data1 & Eapp & Hnd1 & Hin1 & Hout1).
  { intros k Hk. apply get_keys in Hk as (a & Ea). exists a.
    split; [exact Ea |].
    apply get_In in Ea; [| exact Hnd].
    rewrite Forall_forall in Hwhole. apply (Hwhole (k, a) Ea). }
  destruct (IH false (if sum_times then (t + t0)%num else if first then t0 else t)
              ts' data1 s Hheld' Harr' Hts')
    as (data' & Erun & Hnd' & Hget).
  exists data'. split; [| split].
  + cbn [map gather_data].
    rewrite (bind_step _ _ s f s)
      by (unfold H5.File_r, bind, gets, lift_opt, ret; fold (name x);
          rewrite Ef; reflexivity).
    rewrite (bind_step _ _ s
               (H5.Float (if sum_times then (t + t0)%num
                          else if first then t0 else t)) s).
    2:{ destruct sum_times; cbn [orb].
        - unfold bind, lift, H5.group_of, H5.dataset. rewrite Ep.
          fold (par x) in Et0. rewrite Et0. reflexivity.
        - destruct first; [| reflexivity].
          unfold bind, lift, H5.group_of, H5.dataset, ret. rewrite Ep.
          fold (par x) in Et0. rewrite Et0. reflexivity. }
    rewrite (bind_step _ _ s (dat x) s)
      by (unfold lift, H5.group_of; rewrite Ed; reflexivity).
    rewrite (bind_step _ _ s data1 s)
      by (unfold lift; rewrite Eapp; reflexivity).
    rewrite Erun. destruct sum_times; [reflexivity |].
    destruct first; reflexivity.
  + intros Hd. apply Hnd', Hnd1, Hd.
  + intros k. rewrite Hget. unfold chunks. cbn [flat_map].
    fold (chunks l k).
    destruct (Dict.get (dat x) k) as [a |] eqn:Ea.
    * rewrite (Hin1 k a) by (try apply get_keys; eauto).
      unfold joined. cbn [app].
      destruct (Dict.get data k) as [prev |]; cbn [app];
        rewrite <- ?app_assoc; reflexivity.
    * rewrite Hout1; [reflexivity |].
      intros Hk. apply get_keys in Hk as (a & Ea'). congruence.
Qed.

Lemma concatenate_arrays (ch : list (H5.value num)) :
  ch <> [] ->
  Forall (fun v => H5.whole v = inr v) ch ->
  exists v, concatenate ch = inr v.
Proof.
intros Hne Hall. unfold concatenate.
destruct ch as [| c ch]; [contradiction |].
match goal with
| |- context [negb (forallb ?p ?l)] =>
    assert (E : forallb p l = true)
end.
{ apply forallb_forall. intros v Hv. rewrite Forall_forall in Hall.
  specialize (Hall v Hv). destruct v; cbn in Hall; try discriminate;
    reflexivity. }
rewrite E. cbn [negb].
match goal with
| |- context [if ?b then _ else _] => destruct b
end; eauto.
Qed.

Lemma write_data_run : forall (its : Dict.dict (list (H5.value num)))
    (s : H5.fs num) f grp,
  Dict.get f "data" = Some (H5.Group grp) ->
  NoDup (Dict.keys its) ->
  (forall k, In k (Dict.keys its) -> ~ In k (Dict.keys grp)) ->
  (forall k ch, In (k, ch) its -> exists v, concatenate ch = inr v) ->
  exists grp',
    for_each
      (fun kv : string * list (H5.value num) =>
         bind (lift (concatenate (snd kv)))
              (fun v => H5.create_dataset out "data" (fst kv) v))
      its (Dict.set s out f)
    = (inr tt, Dict.set s out (Dict.set f "data" (H5.Group grp')))
    /\ forall k v,
         Dict.get grp' k = Some v
         <-> Dict.get grp k = Some v
             \/ exists ch, In (k, ch) its /\ concatenate ch = inr v.
Proof.
induction its as [| [k0 ch0] its IH]; intros s f grp Eg Hnd Hfresh Hok.
- exists grp. split.
  + cbn. unfold ret. f_equal. f_equal.
    clear - Eg. induction f as [| [k1 n1] f IHf]; cbn in *; [discriminate |].
    destruct (String.eqb k1 "data") eqn:E.
    * inversion Eg; subst. apply String.eqb_eq in E. subst. reflexivity.
    * f_equal. apply IHf, Eg.
  + intros k v. split; [auto |]. intros [E | (ch & [] & _)]. exact E.
- cbn in Hnd. inversion Hnd as [| ? ? Hn Hnd']; subst.
  destruct (Hok k0 ch0 (or_introl eq_refl)) as (v0 & Ev0).
  assert (Hk : ~ In k0 (Dict.keys grp)) by (apply Hfresh; left; reflexivity).
  cbn [for_each fst snd].
  erewrite bind_step.
  2:{ erewrite bind_step by (unfold lift; rewrite Ev0; reflexivity).
      eapply create_dataset_run; [exact Eg | apply create_fresh, Hk]. }
  destruct (IH s (Dict.set f "data" (H5.Group (H5.insert grp k0 v0)))
              (H5.insert grp k0 v0))
    as (grp' & Erun & Hget).
  + apply get_set_same.
  + exact Hnd'.
  + intros k Hin Hin'. apply insert_keys in Hin' as [-> | Hin'].
    * contradiction.
    * apply (Hfresh k); [right; exact Hin | exact Hin'].
  + intros k ch Hin. apply (Hok k ch). right. exact Hin.
  + exists grp'. split; [rewrite Erun, set_set; reflexivity |].
    intros k v. rewrite Hget, insert_get by exact Hk.
    destruct (String.eqb_spec k0 k) as [<- | Hne].
    * apply get_None_notin in Hk. rewrite Hk. split.
      -- intros [E | (ch & Hin & Ec)].
         ++ inversion E; subst. right. exists ch0.
            split; [left; reflexivity | exact Ev0].
         ++ exfalso. apply Hn. apply (in_map fst) in Hin. exact Hin.
      -- intros [E | (ch & [Ei | Hin] & Ec)]; [discriminate | |].
         ++ inversion Ei; subst. left. congruence.
         ++ exfalso. apply Hn. apply (in_map fst) in Hin. exact Hin.
    * split.
      -- intros [E | (ch & Hin & Ec)]; [left; exact E |].
         right. exists ch. split; [right; exact Hin | exact Ec].
      -- intros [E | (ch & [Ei | Hin] & Ec)]; [left; exact E | |].
         ++ inversion Ei; subst. congruence.
         ++ right. exists ch. auto.
Qed.

Lemma held_other (s : H5.fs num) f x :
  name x <> out -> held s x -> held (Dict.set s out f) x.
Proof.
intros Hne (f0 & Ef & Ep & Ed). exists f0.
rewrite get_set_other by congruence. auto.
Qed.

Lemma validate_loop p0 skip (st : H5.fs num) : forall rest : list input,
  Forall (held st) rest ->
  Forall (fun x => validate_parameters p0 (H5.Group (par x)) skip = inr tt)
         rest ->
  for_each
    (fun fn =>
       bind (H5.File_r fn) (fun f =>
       bind (lift_opt (KeyError "parameters") (Dict.get f "parameters"))
            (fun p => lift (validate_parameters p0 p skip))))
    (map name rest) st
  = (inr tt, st).
Proof.
induction rest as [| x rest IH]; intros Hst Hval; [reflexivity |].
inversion Hval as [| ? ? Ev Hval']; subst.
inversion Hst as [| ? ? (f & Ef & Ep & _) Hst']; subst.
cbn [map for_each].
rewrite (bind_step _ _ st tt st); [apply IH; assumption |].
rewrite (bind_step _ _ st f st)
  by (unfold H5.File_r, bind, gets, lift_opt, ret; rewrite Ef; reflexivity).
rewrite (bind_step _ _ st (H5.Group (par x)) st) by (rewrite Ep; reflexivity).
unfold lift. rewrite Ev. reflexivity.
Qed.

(** X18. What [merge_files] writes, for input files other than the output
    that each hold a group of parameters and a group of data arrays, the
    first with one name [ek] that ends in ["exp_time"], each with a float
    under [ek], and all accepted by [validate_parameters]. The call
    returns, and the output holds the two groups. Its parameters are those
    of the first file whose names do not end in ["exp_time"], and
    ["exp_time"]: the exposure times added up from 0.0 in the order of the
    files, or the one of the first file without [add_exposure_times]. Its
    data has a name exactly when some input has it, with the arrays that
    the inputs hold under it joined in the order of the files. *)
Theorem merge_files_merges (x0 : string * H5.group num * H5.group num)
    (rest : list (string * H5.group num * H5.group num)) (ts : list num)
    (ek : string) (clobber add_exposure_times : bool) (s : H5.fs num) :
  let inputs := x0 :: rest in
  let skip := if add_exposure_times then [ek] else [] in
  ~ In out (map (fun x => fst (fst x)) inputs) ->
  Dict.mem s out = false \/ clobber = true ->
  Forall (fun x =>
            exists f,
              Dict.get s (fst (fst x)) = Some f
              /\ Dict.get f "parameters" = Some (H5.Group (snd (fst x)))
              /\ Dict.get f "data" = Some (H5.Group (snd x))) inputs ->
  Forall (fun x =>
            NoDup (Dict.keys (snd x))
            /\ Forall (fun kv => H5.whole (snd kv) = inr (snd kv)) (snd x))
         inputs ->
  NoDup (Dict.keys (snd (fst x0))) ->
  In ek (Dict.keys (snd (fst x0))) ->
  endswith ek "exp_time" = true ->
  (forall k, In k (Dict.keys (snd (fst x0))) ->
             endswith k "exp_time" = true -> k = ek) ->
  Forall2 (fun x t => Dict.get (snd (fst x)) ek = Some (H5.Float t)) inputs ts ->
  Forall (fun x =>
            validate_parameters (snd (fst x0)) (H5.Group (snd (fst x))) skip
            = inr tt) rest ->
  exists p d,
    merge_files validate_parameters (map (fun x => fst (fst x)) inputs) out
      clobber add_exposure_times s
    = (inr tt,
       Dict.set s out [("data", H5.Group d); ("parameters", H5.Group p)]%string)
    /\ (forall k v,
          Dict.get p k = Some v
          <-> (k = "exp_time"%string
               /\ v = H5.Float (if add_exposure_times
                                then fold_left add ts (of_Z 0)
                                else hd (of_Z 0) ts))
              \/ (endswith k "exp_time" = false
                  /\ Dict.get (snd (fst x0)) k = Some v))
    /\ (forall k v,
          Dict.get d k = Some v
          <-> flat_map (fun x => match Dict.get (snd x) k with
                                 | Some a => [a]
                                 | None => []
                                 end) inputs <> []
              /\ concatenate
                   (flat_map (fun x => match Dict.get (snd x) k with
                                       | Some a => [a]
                                       | None => []
                                       end) inputs)
                 = inr v).
Proof.
intros inputs skip Hout Hc Hheld Harr Hnd0 Hek Hend Huniq Hts Hval.
fold (chunks inputs) in |- *.
set (f0 := [("parameters", H5.Group [])]%string : H5.file num).
assert (Hfirst : name x0 <> out)
  by (intros E; apply Hout; left; exact E).
inversion Hheld as [| ? ? (fin & Efin & Epin & Edin) Hheld']; subst.
change (Dict.get s (name x0) = Some fin) in Efin.
change (Dict.get fin "parameters" = Some (H5.Group (par x0))) in Epin.
destruct (copy_parameters_run out ek (par x0) "" s f0 [])
  as (p1 & Ecopy & Hp1);
  [reflexivity | exact Hnd0 | intros ? ? [] | exact Huniq | right; exact Hek
  | exact Hend |].
set (f1 := Dict.set f0 "parameters" (H5.Group p1)) in Ecopy.
set (st := Dict.set s out f1) in Ecopy.
assert (Hst : Forall (held st) inputs).
{ apply Forall_forall. intros x Hx. apply held_other.
  - intros E. apply Hout. rewrite <- E. apply in_map with (f := name), Hx.
  - rewrite Forall_forall in Hheld. apply Hheld, Hx. }
destruct (gather_data_run add_exposure_times ek inputs true (of_Z 0) ts [] st
            Hst Harr Hts) as (data & Egather & Hndd & Hdata).
specialize (Hndd (NoDup_nil _)).
set (tot := H5.Float (if add_exposure_times then fold_left add ts (of_Z 0)
                      else hd (of_Z 0) ts)) in *.
assert (Hfresh : ~ In "exp_time"%string (Dict.keys p1)).
{ intros Hin. apply get_keys in Hin as (v & Ev).
  apply Hp1 in Ev as [Ev | (Ee & _)]; [discriminate | discriminate Ee]. }
set (p2 := H5.insert p1 "exp_time" tot).
set (f2 := [("data", H5.Group []); ("parameters", H5.Group p2)]%string
           : H5.file num).
destruct (write_data_run data s f2 []) as (d & Ewrite & Hd);
  [reflexivity | exact Hndd | intros ? ? [] | |].
{ intros k ch Hin. apply get_In in Hin; [| exact Hndd].
  rewrite Hdata in Hin. cbn [Dict.get joined] in Hin.
  apply concatenate_arrays.
  - intros ->. destruct (chunks inputs k); discriminate.
  - assert (Hch : ch = chunks inputs k)
      by (destruct (chunks inputs k); [discriminate | inversion Hin; reflexivity]).
    rewrite Hch. unfold chunks. apply Forall_forall. intros a Ha.
    apply in_flat_map in Ha as (x & Hx & Ha).
    rewrite Forall_forall in Harr. destruct (Harr x Hx) as (Hndx & Hwx).
    destruct (Dict.get (dat x) k) as [a' |] eqn:Ea; [| contradiction].
    destruct Ha as [<- | []].
    apply get_In in Ea; [| exact Hndx].
    rewrite Forall_forall in Hwx. apply (Hwx (k, a') Ea). }
exists p2, d. split; [| split].
- unfold merge_files.
  rewrite (bind_step _ _ _ _ _ (refuse_overwrite_run s out clobber Hc)).
  rewrite (bind_step _ _ s (name x0) s) by reflexivity.
  rewrite (bind_step _ _ s fin s)
    by (unfold H5.File_r, bind, gets, lift_opt, ret; rewrite Efin; reflexivity).
  assert (Ew : H5.File_w out [name x0] s = (inr tt, Dict.set s out [])).
  { unfold H5.File_w. cbn [existsb].
    assert (E : String.eqb out (name x0) = false)
      by (apply String.eqb_neq; congruence).
    rewrite E. reflexivity. }
  rewrite (bind_step _ _ _ _ _ Ew).
  erewrite bind_step by (apply create_group_run; reflexivity).
  rewrite (bind_step _ _ _ (par x0) (Dict.set s out f0))
    by (unfold lift, H5.group_of; rewrite Epin; reflexivity).
  rewrite (bind_step _ _ _ _ _ Ecopy).
  cbv zeta.
  rewrite (bind_step _ _ st tt st).
  2:{ cbn [tl map]. inversion Hst as [| ? ? _ Hst']; subst.
      apply (validate_loop (par x0) skip st rest Hst' Hval). }
  change (map (fun x => fst (fst x)) inputs) with (map name inputs).
  rewrite (bind_step _ _ _ _ _ Egather). cbn [fst snd].
  erewrite bind_step
    by (eapply create_dataset_run;
        [reflexivity | apply create_fresh, Hfresh]).
  erewrite bind_step by (apply create_group_run; reflexivity).
  exact Ewrite.
- intros k v. unfold p2. rewrite insert_get by exact Hfresh.
  destruct (String.eqb_spec "exp_time" k) as [<- | Hne].
  + split.
    * intros E. inversion E. left. auto.
    * intros [[_ ->] | [Ee _]]; [reflexivity | discriminate Ee].
  + rewrite Hp1. cbn [Dict.get].
    rewrite (get_In (snd (fst x0)) k v Hnd0). split.
    * intros [E | Hr]; [discriminate | right; exact Hr].
    * intros [[E _] | Hr]; [congruence | right; exact Hr].
- intros k v. rewrite Hd. cbn [Dict.get].
  change (None = Some v \/ (exists ch, In (k, ch) data /\ concatenate ch = inr v)
          <-> chunks inputs k <> [] /\ concatenate (chunks inputs k) = inr v).
  split.
  + intros [E | (ch & Hin & Ec)]; [discriminate E |].
    apply get_In in Hin; [| exact Hndd].
    rewrite Hdata in Hin. cbn [Dict.get joined] in Hin.
    destruct (chunks inputs k) as [| c cs] eqn:Ech; [discriminate |].
    inversion Hin; subst ch. split; [discriminate | exact Ec].
  + intros (Hne & Ec). right. exists (chunks inputs k).
    split; [| exact Ec].
    apply get_In; [exact Hndd |]. rewrite Hdata. cbn [Dict.get joined].
    destruct (chunks inputs k); [contradiction | reflexivity].
Qed.

End MergeData.

Lemma merge_files_merges_witness :
  exists p d,
    merge_files Demo.accept ["photons.h5"; "photons.h5"]%string "merged.h5"
      false true Demo.files
    = (inr tt,
       Dict.set Demo.files "merged.h5"
         [("data", H5.Group d); ("parameters", H5.Group p)]%string)
    /\ Dict.get p "exp_time" = Some (H5.Float (of_Z 200000))
    /\ Dict.get p "fid_exp_time" = None
    /\ Dict.get d "energy"
       = Some (H5.Floats (PhotonList.Energy Demo.sample_photons
                          ++ PhotonList.Energy Demo.sample_photons)).
Proof.
pose (x := ("photons.h5"%string,
            Demo.group_at "photons.h5" "parameters",
            Demo.group_at "photons.h5" "data")).
assert (Hheld : exists f,
          Dict.get Demo.files (fst (fst x)) = Some f
          /\ Dict.get f "parameters" = Some (H5.Group (snd (fst x)))
          /\ Dict.get f "data" = Some (H5.Group (snd x)))
  by (eexists; repeat split; vm_compute; reflexivity).
assert (Harr : NoDup (Dict.keys (snd x))
               /\ Forall (fun kv : string * H5.value float =>
                            H5.whole (snd kv) = inr (snd kv)) (snd x)).
{ split.
  - let l := eval vm_compute in (Dict.keys (snd x)) in
    change (NoDup l); change l with (nodup string_dec l); apply NoDup_nodup.
  - let l := eval vm_compute in (snd x) in change (snd x) with l.
    repeat constructor. }
assert (Hnd : NoDup (Dict.keys (snd (fst x)))).
{ let l := eval vm_compute in (Dict.keys (snd (fst x))) in
  change (NoDup l); change l with (nodup string_dec l); apply NoDup_nodup. }
assert (Huniq : forall k, In k (Dict.keys (snd (fst x))) ->
                  endswith k "exp_time" = true -> k = "fid_exp_time"%string).
{ intros k Hin. vm_compute in Hin.
  repeat (destruct Hin as [<- | Hin];
          [first [reflexivity | intros E; vm_compute in E; discriminate E] |]).
  contradiction. }
destruct (merge_files_merges Demo.accept "merged.h5" x [x]
            [of_Z 100000; of_Z 100000] "fid_exp_time" false true Demo.files
            ltac:(cbn; intuition discriminate) (or_introl eq_refl)
            (Forall_cons _ Hheld (Forall_cons _ Hheld (Forall_nil _)))
            (Forall_cons _ Harr (Forall_cons _ Harr (Forall_nil _)))
            Hnd ltac:(vm_compute; auto 20) eq_refl Huniq
            ltac:(repeat constructor) ltac:(repeat constructor))
  as (p & d & E & Hp & Hd).
exists p, d. split; [exact E |]. split; [| split].
- apply Hp. left. split; [reflexivity | vm_compute; reflexivity].
- destruct (Dict.get p "fid_exp_time") as [v |] eqn:Ev; [| reflexivity].
  apply Hp in Ev as [[Ek _] | [Ee _]]; [discriminate Ek |].
  vm_compute in Ee. discriminate Ee.
- apply Hd. split; [vm_compute; discriminate | vm_compute; reflexivity].
Defined.
